(** * Transpormax vehicle-custody pipeline: a shallow embedding

    The development follows the JavaScript sources of the repository:
    - [DataHashService]   (fingerprint engine: normalise, serialise, djb2 + checksum),
    - [WhatsAppParser]    (pattern extractor, temporal extractor, deduplicator),
    - [ChatUpload] / [TransferPreview] (reconciler and manual override),
    - [AlertService] / [EmailService]  (daily-processing ledger and alert scheduler).

    Conventions of the embedding.
    - A JavaScript string is a sequence of UTF-16 code units.  The model uses
      Rocq's [string], one [ascii] per code unit, and therefore covers text
      whose code units lie in U+0000..U+00FF (Latin-1); this range contains
      every character the source patterns name (accented vowels, N with tilde).
    - JavaScript numbers that hold integers (hash accumulators, epoch
      milliseconds, counts) are [Z]; 32-bit wrap-around is written out.
      Confidence scores are binary64 floats, as in the source.
    - Code that can throw returns a [result]; code that reads or writes the
      store threads a [World] explicitly. *)

From Stdlib Require Import ZArith String Ascii List Bool Lia Floats Uint63 DecimalString.
From Stdlib Require Import Sorting.Sorted.
From stdpp Require Import base gmap strings list.

Set Warnings "-register-all,-inexact-float".

Open Scope string_scope.
Open Scope Z_scope.

(** ** Results of code that may throw *)

Inductive result (A : Type) : Type :=
| Ok (a : A)
| Throw (msg : string).
Arguments Ok {A} a.
Arguments Throw {A} msg.

(** ** JavaScript strings *)

Module JsString.

(** [charCodeAt] of a single code unit. *)
Definition code (c : ascii) : Z := Z.of_N (N_of_ascii c).

Definition chr (n : Z) : ascii := ascii_of_N (Z.to_N n).

Definition inRange (lo hi : Z) (c : ascii) : bool :=
  (lo <=? code c) && (code c <=? hi).

Definition isUpper (c : ascii) : bool := inRange 65 90 c.
Definition isLower (c : ascii) : bool := inRange 97 122 c.
Definition isDigit (c : ascii) : bool := inRange 48 57 c.

(** [\w] of a regular expression without the [u] flag. *)
Definition isWordChar (c : ascii) : bool :=
  isUpper c || isLower c || isDigit c || (code c =? 95).

(** White space and line terminators below U+0100: what [trim] removes and
    what [\s] matches (TAB, LF, VT, FF, CR, SPACE, NBSP). *)
Definition isWhiteSpace (c : ascii) : bool :=
  inRange 9 13 c || (code c =? 32) || (code c =? 160).

(** Letters of the Latin-1 supplement that have a case partner inside the
    range: U+00C0..U+00DE without the multiplication sign, and
    U+00E0..U+00FE without the division sign. *)
Definition isUpperLatin1 (c : ascii) : bool :=
  inRange 192 222 c && negb (code c =? 215).
Definition isLowerLatin1 (c : ascii) : bool :=
  inRange 224 254 c && negb (code c =? 247).

Definition lowerChar (c : ascii) : ascii :=
  if isUpper c || isUpperLatin1 c then chr (code c + 32) else c.

(** Single-unit upper-casing.  The two Latin-1 letters whose capital lies
    above U+00FF (y with diaeresis, micro sign) are left in place. *)
Definition upperChar (c : ascii) : ascii :=
  if isLower c || isLowerLatin1 c then chr (code c - 32) else c.

Fixpoint toLowerCase (s : string) : string :=
  match s with
  | EmptyString => EmptyString
  | String c r => String (lowerChar c) (toLowerCase r)
  end.

(** [toUpperCase]: the sharp s (U+00DF) becomes the two units "SS". *)
Fixpoint toUpperCase (s : string) : string :=
  match s with
  | EmptyString => EmptyString
  | String c r =>
      if code c =? 223 then String "S" (String "S" (toUpperCase r))
      else String (upperChar c) (toUpperCase r)
  end.

Fixpoint trimStart (s : string) : string :=
  match s with
  | EmptyString => EmptyString
  | String c r => if isWhiteSpace c then trimStart r else s
  end.

Fixpoint trimEnd (s : string) : string :=
  match s with
  | EmptyString => EmptyString
  | String c r =>
      match trimEnd r with
      | EmptyString => if isWhiteSpace c then EmptyString else String c EmptyString
      | r' => String c r'
      end
  end.

Definition trim (s : string) : string := trimEnd (trimStart s).

Fixpoint forallb (p : ascii -> bool) (s : string) : bool :=
  match s with
  | EmptyString => true
  | String c r => p c && forallb p r
  end.

Fixpoint filter (p : ascii -> bool) (s : string) : string :=
  match s with
  | EmptyString => EmptyString
  | String c r => if p c then String c (filter p r) else filter p r
  end.

Fixpoint repeat (c : ascii) (n : nat) : string :=
  match n with
  | O => EmptyString
  | S k => String c (repeat c k)
  end.

(** [s.padStart(n, c)] for a one-unit filler. *)
Definition padStart (n : nat) (c : ascii) (s : string) : string :=
  repeat c (n - String.length s) +:+ s.

(** [s.startsWith(p)] and [s.includes(p)]. *)
Fixpoint startsWith (p s : string) : bool :=
  match p, s with
  | EmptyString, _ => true
  | String a p', String b s' => Ascii.eqb a b && startsWith p' s'
  | String _ _, EmptyString => false
  end.

Fixpoint includes (p s : string) : bool :=
  startsWith p s ||
  match s with
  | EmptyString => false
  | String _ r => includes p r
  end.

(** [s.substring(0, n)] and the tail from index [n]. *)
Fixpoint take (n : nat) (s : string) : string :=
  match n, s with
  | S k, String c r => String c (take k r)
  | _, _ => EmptyString
  end.

Fixpoint drop (n : nat) (s : string) : string :=
  match n, s with
  | S k, String _ r => drop k r
  | _, _ => s
  end.

(** [s.split(sep)] for a one-unit separator. *)
Fixpoint split (sep : ascii) (s : string) : list string :=
  match s with
  | EmptyString => [EmptyString]
  | String c r =>
      if Ascii.eqb c sep then EmptyString :: split sep r
      else match split sep r with
           | [] => [String c EmptyString]
           | p :: ps => String c p :: ps
           end
  end.

(** Code-unit order, the order of the default [Array.prototype.sort]:
    negative, zero or positive. *)
Fixpoint compareUnits (a b : string) : Z :=
  match a, b with
  | EmptyString, EmptyString => 0
  | EmptyString, String _ _ => -1
  | String _ _, EmptyString => 1
  | String x a', String y b' =>
      if code x <? code y then -1
      else if code y <? code x then 1
      else compareUnits a' b'
  end.

End JsString.

(** ** JavaScript numbers that hold integers *)

Module JsNumber.
Import JsString.

(** [ToInt32]: reduction modulo 2^32 into the signed range. *)
Definition toInt32 (x : Z) : Z :=
  let m := x mod 2 ^ 32 in
  if m <? 2 ^ 31 then m else m - 2 ^ 32.

(** [a << n] and [a & b] on 32-bit integers. *)
Definition shl32 (a n : Z) : Z := toInt32 (Z.shiftl (toInt32 a) (n mod 32)).
Definition and32 (a b : Z) : Z := toInt32 (Z.land (toInt32 a) (toInt32 b)).

Definition hexDigit (d : Z) : ascii :=
  if d <? 10 then chr (48 + d) else chr (87 + d).

Fixpoint toHexAux (fuel : nat) (n : Z) (acc : string) : string :=
  match fuel with
  | O => acc
  | S f =>
      let acc' := String (hexDigit (n mod 16)) acc in
      if n / 16 =? 0 then acc' else toHexAux f (n / 16) acc'
  end.

(** [n.toString(16)] for a non-negative integer: one round per bit is more
    than the number of hexadecimal digits. *)
Definition toString16 (n : Z) : string :=
  toHexAux (S (Z.to_nat (Z.log2 n))) n EmptyString.

(** [String(n)] for an integer below 10^21 in magnitude. *)
Definition toString10 (n : Z) : string :=
  NilEmpty.string_of_int (Z.to_int n).

Definition isHexLower (c : ascii) : bool :=
  isDigit c || inRange 97 102 c.

(** Reading back a hexadecimal numeral (used to state that [toString16]
    loses nothing). *)
Definition hexValue (c : ascii) : Z :=
  if isDigit c then code c - 48 else code c - 87.

Fixpoint fromHexAux (acc : Z) (s : string) : Z :=
  match s with
  | EmptyString => acc
  | String c r => fromHexAux (16 * acc + hexValue c) r
  end.

Definition fromHex (s : string) : Z := fromHexAux 0 s.

End JsNumber.


(** ** Dates: time values in milliseconds since the epoch *)

Module JsDate.
Import JsString JsNumber.

(** A [Date] object holds a time value or NaN ("Invalid Date"). *)
Inductive Date : Type :=
| Valid (t : Z)
| Invalid.

(** [d.getTime()]: [None] stands for NaN. *)
Definition getTime (d : Date) : option Z :=
  match d with
  | Valid t => Some t
  | Invalid => None
  end.

Definition msPerDay : Z := 86400000.

Definition Day (t : Z) : Z := t / msPerDay.
Definition TimeWithinDay (t : Z) : Z := t mod msPerDay.

(** Day of the week of a time value, 0 = Sunday (1 January 1970 was a
    Thursday). *)
Definition WeekDay (t : Z) : Z := (Day t + 4) mod 7.

(** Year, month (1..12) and day of the month of a day number. *)
Definition civilFromDays (days : Z) : Z * Z * Z :=
  let z := days + 719468 in
  let era := z / 146097 in
  let doe := z - era * 146097 in
  let yoe := (doe - doe / 1460 + doe / 36524 - doe / 146096) / 365 in
  let doy := doe - (365 * yoe + yoe / 4 - yoe / 100) in
  let mp := (5 * doy + 2) / 153 in
  let d := doy - (153 * mp + 2) / 5 + 1 in
  let m := if mp <? 10 then mp + 3 else mp - 9 in
  let y := yoe + era * 400 + (if m <=? 2 then 1 else 0) in
  (y, m, d).

(** Day number of a calendar date. *)
Definition daysFromCivil (y m d : Z) : Z :=
  let y' := if m <=? 2 then y - 1 else y in
  let era := y' / 400 in
  let yoe := y' - era * 400 in
  let mp := if 2 <? m then m - 3 else m + 9 in
  let doy := (153 * mp + 2) / 5 + d - 1 in
  let doe := yoe * 365 + yoe / 4 - yoe / 100 + doy in
  era * 146097 + doe - 719468.

Definition isLeapYear (y : Z) : bool :=
  ((y mod 4 =? 0) && negb (y mod 100 =? 0)) || (y mod 400 =? 0).

Definition daysInMonth (y m : Z) : Z :=
  if m =? 2 then (if isLeapYear y then 29 else 28)
  else if (m =? 4) || (m =? 6) || (m =? 9) || (m =? 11) then 30
  else 31.

Definition pad (n : nat) (v : Z) : string := padStart n "0" (toString10 v).

(** The year of [toISOString]: four digits, or a sign and six digits outside
    0..9999. *)
Definition isoYear (y : Z) : string :=
  if (0 <=? y) && (y <=? 9999) then pad 4 y
  else if y <? 0 then "-" +:+ pad 6 (- y)
  else "+" +:+ pad 6 y.

(** The calendar date "YYYY-MM-DD" of a time value, in UTC. *)
Definition isoDate (t : Z) : string :=
  let '(y, m, d) := civilFromDays (Day t) in
  isoYear y +:+ "-" +:+ pad 2 m +:+ "-" +:+ pad 2 d.

(** The time of day "HH:mm:ss.sss" of a time value, in UTC. *)
Definition isoTime (t : Z) : string :=
  let ms := TimeWithinDay t in
  pad 2 (ms / 3600000) +:+ ":" +:+ pad 2 (ms / 60000 mod 60) +:+ ":" +:+
  pad 2 (ms / 1000 mod 60) +:+ "." +:+ pad 3 (ms mod 1000).

(** [d.toISOString()] of a valid date. *)
Definition toISOString (t : Z) : string :=
  isoDate t +:+ "T" +:+ isoTime t +:+ "Z".

(** Reading a decimal field of fixed width. *)
Fixpoint digitsValue (acc : Z) (s : string) : option Z :=
  match s with
  | EmptyString => Some acc
  | String c r =>
      if isDigit c then digitsValue (10 * acc + (code c - 48)) r else None
  end.

Definition field (n : nat) (s : string) : option Z :=
  if (String.length s =? n)%nat then digitsValue 0 s else None.

(** The date-time string format of ECMA-262 without offset,
    "YYYY-MM-DDTHH:mm:ss", read as local time; [tza] is the offset of local
    time from UTC in milliseconds.  Anything else is not a date. *)
Definition parseIsoLocal (tza : Z) (s : string) : Date :=
  match split "T" s with
  | [ds; ts] =>
      match split "-" ds, split ":" ts with
      | [ys; ms; dds], [hs; mins; ss] =>
          match field 4 ys, field 2 ms, field 2 dds,
                field 2 hs, field 2 mins, field 2 ss with
          | Some y, Some m, Some d, Some h, Some mi, Some sec =>
              if (1 <=? m) && (m <=? 12) && (1 <=? d) && (d <=? daysInMonth y m)
                 && ((h <=? 23) || ((h =? 24) && (mi =? 0) && (sec =? 0)))
                 && (mi <=? 59) && (sec <=? 59)
              then Valid (daysFromCivil y m d * msPerDay
                          + h * 3600000 + mi * 60000 + sec * 1000 - tza)
              else Invalid
          | _, _, _, _, _, _ => Invalid
          end
      | _, _ => Invalid
      end
  | _ => Invalid
  end.

End JsDate.


(** ** Regular expressions: a backtracking matcher

    The matcher returns the ways a pattern can match at a position, in the
    order in which a backtracking engine tries them; the first one is the
    match [exec] reports.  The patterns of the sources have no capture group
    under a quantifier and no back-reference. *)

Module Regex.
Import JsString.

Inductive regex : Type :=
| Empty
| Lit (c : ascii)
| Class (negated : bool) (ranges : list (Z * Z))
| Dot
| Seq (r1 r2 : regex)
| Alt (r1 r2 : regex)
| Star (greedy : bool) (r : regex)
| Opt (greedy : bool) (r : regex)
| Group (i : nat) (r : regex)
| Bol
| Eol
| WordBoundary.

(** Character class escapes as ranges of code units. *)
Definition cls_s : list (Z * Z) := [(9, 13); (32, 32); (160, 160)].
Definition cls_d : list (Z * Z) := [(48, 57)].
Definition cls_w : list (Z * Z) := [(65, 90); (97, 122); (48, 57); (95, 95)].

(** Derived forms. *)
Definition Plus (r : regex) : regex := Seq r (Star true r).

Fixpoint Lits (s : string) : regex :=
  match s with
  | EmptyString => Empty
  | String c EmptyString => Lit c
  | String c r => Seq (Lit c) (Lits r)
  end.

Fixpoint Alts (l : list regex) : regex :=
  match l with
  | [] => Empty
  | [r] => r
  | r :: rs => Alt r (Alts rs)
  end.

Fixpoint Seqs (l : list regex) : regex :=
  match l with
  | [] => Empty
  | [r] => r
  | r :: rs => Seq r (Seqs rs)
  end.

Fixpoint Times (n : nat) (r : regex) : regex :=
  match n with
  | O => Empty
  | S k => Seq r (Times k r)
  end.

(** A position in the subject: the unit before it, the text after it and the
    captures made so far (latest first). *)
Record mstate : Type := mkState {
  before : option ascii;
  rest : string;
  caps : list (nat * string)
}.

(** Two units are the same under the [i] flag when their canonical (upper
    case) forms agree. *)
Definition sameUnit (ic : bool) (c x : ascii) : bool :=
  if ic then Ascii.eqb (upperChar c) (upperChar x) else Ascii.eqb c x.

Definition inRanges (ic : bool) (ranges : list (Z * Z)) (x : ascii) : bool :=
  existsb (fun r =>
             inRange (fst r) (snd r) x ||
             (ic && (inRange (fst r) (snd r) (upperChar x) ||
                     inRange (fst r) (snd r) (lowerChar x))))
          ranges.

Definition isLineTerminator (c : ascii) : bool := (code c =? 10) || (code c =? 13).

Definition step (p : ascii -> bool) (st : mstate) : list mstate :=
  match rest st with
  | String x r => if p x then [mkState (Some x) r (caps st)] else []
  | EmptyString => []
  end.

Definition progressed (st st' : mstate) : bool :=
  (String.length (rest st') <? String.length (rest st))%nat.

Definition consumed (st st' : mstate) : string :=
  take (String.length (rest st) - String.length (rest st')) (rest st).

Definition isWordAt (o : option ascii) : bool :=
  match o with
  | Some c => isWordChar c
  | None => false
  end.

Definition nextUnit (s : string) : option ascii :=
  match s with
  | String c _ => Some c
  | EmptyString => None
  end.

(** The rounds of a star: [body] gives the matches of the starred pattern, a
    round counts only when it moves on, and the greedy star tries one more
    round before it stops.  The remaining text bounds the number of rounds. *)
Fixpoint starLoop (body : mstate -> list mstate) (greedy : bool) (n : nat) (st : mstate)
  : list mstate :=
  match n with
  | O => [st]
  | S n' =>
      let more :=
        flat_map (fun st' => if progressed st st' then starLoop body greedy n' st' else [])
                 (body st) in
      if greedy then (more ++ [st])%list else st :: more
  end.

Fixpoint matches (ic : bool) (r : regex) (st : mstate) : list mstate :=
  match r with
  | Empty => [st]
  | Lit c => step (sameUnit ic c) st
  | Class negated ranges => step (fun x => xorb negated (inRanges ic ranges x)) st
  | Dot => step (fun x => negb (isLineTerminator x)) st
  | Seq r1 r2 => flat_map (matches ic r2) (matches ic r1 st)
  | Alt r1 r2 => (matches ic r1 st ++ matches ic r2 st)%list
  | Star greedy r' => starLoop (matches ic r') greedy (String.length (rest st)) st
  | Opt greedy r' =>
      let once := List.filter (progressed st) (matches ic r' st) in
      if greedy then (once ++ [st])%list else st :: once
  | Group i r' =>
      List.map (fun st' => mkState (before st') (rest st') ((i, consumed st st') :: caps st'))
               (matches ic r' st)
  | Bol => match before st with None => [st] | Some _ => [] end
  | Eol => match rest st with EmptyString => [st] | String _ _ => [] end
  | WordBoundary =>
      if xorb (isWordAt (before st)) (isWordAt (nextUnit (rest st))) then [st] else []
  end.

(** Patterns every match of which takes at least one unit. *)
Fixpoint consumes (r : regex) : bool :=
  match r with
  | Lit _ | Class _ _ | Dot => true
  | Seq r1 r2 => consumes r1 || consumes r2
  | Alt r1 r2 => consumes r1 && consumes r2
  | Group _ r' => consumes r'
  | _ => false
  end.

(** What [exec] reports: where the match starts and ends, the matched text
    and the captures. *)
Record MatchResult : Type := mkMatch {
  index : nat;
  endIndex : nat;
  matched : string;
  groups : list (nat * string)
}.

(** [match[i]]. *)
Fixpoint group (i : nat) (gs : list (nat * string)) : option string :=
  match gs with
  | [] => None
  | (j, s) :: r => if (i =? j)%nat then Some s else group i r
  end.

(** Leftmost match at or after the current position, which has index [idx]. *)
Fixpoint search (ic : bool) (r : regex) (prev : option ascii) (text : string) (idx : nat)
  : option MatchResult :=
  match matches ic r (mkState prev text []) with
  | st' :: _ =>
      let n := (String.length text - String.length (rest st'))%nat in
      Some (mkMatch idx (idx + n) (take n text) (caps st'))
  | [] =>
      match text with
      | EmptyString => None
      | String c t => search ic r (Some c) t (S idx)
      end
  end.

Fixpoint lastUnit (s : string) : option ascii :=
  match s with
  | EmptyString => None
  | String c EmptyString => Some c
  | String _ r => lastUnit r
  end.

(** [pattern.exec(text)] with [pattern.lastIndex = lastIndex]. *)
Definition exec (ic : bool) (r : regex) (text : string) (lastIndex : nat)
  : option MatchResult :=
  if (String.length text <? lastIndex)%nat then None
  else search ic r (lastUnit (take lastIndex text)) (drop lastIndex text) lastIndex.

(** [text.replace(pattern, f)] for a pattern without the [g] flag. *)
Definition replaceFirst (ic : bool) (r : regex) (f : string -> string) (text : string)
  : string :=
  match exec ic r text 0 with
  | None => text
  | Some m => take (index m) text +:+ f (matched m) +:+ drop (endIndex m) text
  end.

(** [text.replace(pattern, f)] for a pattern with the [g] flag: after an empty
    match the scan moves on by one unit. *)
Fixpoint replaceLoop (fuel : nat) (ic : bool) (r : regex) (f : string -> string)
  (text : string) (pos : nat) : string :=
  match fuel with
  | O => drop pos text
  | S fuel' =>
      match exec ic r text pos with
      | None => drop pos text
      | Some m =>
          take (index m - pos) (drop pos text) +:+ f (matched m) +:+
          (if (endIndex m =? index m)%nat
           then take 1 (drop (endIndex m) text) +:+
                replaceLoop fuel' ic r f text (S (endIndex m))
           else replaceLoop fuel' ic r f text (endIndex m))
      end
  end.

Definition replaceAll (ic : bool) (r : regex) (f : string -> string) (text : string)
  : string :=
  replaceLoop (S (String.length text)) ic r f text 0.

End Regex.


(** ** JSON text, as [JSON.stringify] writes it *)

Module Json.
Import JsString JsNumber.

Inductive json : Type :=
| JNull
| JNum (n : Z)
| JStr (s : string)
| JArr (items : list json)
| JObj (fields : list (string * json)).

Definition dquote : string := String "034" EmptyString.

(** One code unit inside a JSON string literal. *)
Definition quoteUnit (c : ascii) : string :=
  let n := code c in
  if n =? 8 then "\b"
  else if n =? 9 then "\t"
  else if n =? 10 then "\n"
  else if n =? 12 then "\f"
  else if n =? 13 then "\r"
  else if n =? 34 then "\" +:+ dquote
  else if n =? 92 then "\\"
  else if n <? 32 then "\u00" +:+ padStart 2 "0" (toString16 n)
  else String c EmptyString.

Fixpoint quoteUnits (s : string) : string :=
  match s with
  | EmptyString => EmptyString
  | String c r => quoteUnit c +:+ quoteUnits r
  end.

Definition quote (s : string) : string := dquote +:+ quoteUnits s +:+ dquote.

Fixpoint join (sep : string) (l : list string) : string :=
  match l with
  | [] => EmptyString
  | [x] => x
  | x :: r => x +:+ sep +:+ join sep r
  end.

(** Stable insertion sort under a three-way comparator, the contract of
    [Array.prototype.sort] for a consistent comparator: an element moves in
    front of the first one it does not follow. *)
Section Sort.
Context {A : Type} (cmp : A -> A -> Z).

Fixpoint insertSorted (x : A) (l : list A) : list A :=
  match l with
  | [] => [x]
  | y :: r => if 0 <? cmp x y then y :: insertSorted x r else x :: l
  end.

Fixpoint sortBy (l : list A) : list A :=
  match l with
  | [] => []
  | x :: r => insertSorted x (sortBy r)
  end.

End Sort.

(** The replacer of the service: the keys of every object in code-unit order
    ([Object.keys(value).sort()]). *)
Definition orderKeys {A : Type} (fields : list (string * A)) : list (string * A) :=
  sortBy (fun a b => compareUnits (fst a) (fst b)) fields.

(** [JSON.stringify(value, replacer, 0)] with the key-ordering replacer. *)
Fixpoint stringify (v : json) : string :=
  match v with
  | JNull => "null"
  | JNum n => toString10 n
  | JStr s => quote s
  | JArr items => "[" +:+ join "," (List.map stringify items) +:+ "]"
  | JObj fields =>
      "{" +:+
      join "," (List.map (fun kv => quote (fst kv) +:+ ":" +:+ snd kv)
                  (orderKeys (List.map (fun kv => (fst kv, stringify (snd kv))) fields)))
      +:+ "}"
  end.

End Json.

(** ** DataHashService *)

Module DataHashService.
Import JsString JsNumber Json.

(** A transfer as the service reads it: absent or null fields are [None]. *)
Record Transfer : Type := mkTransfer {
  vehicleId : option string;
  toDriver : option string;
  fromDriver : option string;
  dateTime : option JsDate.Date
}.

(** [ProcessingData]; [transfers] and [filesProcessed] are [None] when they
    are not arrays. *)
Record ProcessingData : Type := mkProcessingData {
  transfersCount : Z;
  transfers : option (list Transfer);
  filesProcessed : option (list string);
  source : option string;
  department : option string
}.

(** The two readings of the surroundings the fallback digest is made of:
    [Date.now()] and the base-36 digits of [Math.random()]. *)
Record Host : Type := mkHost {
  now : Z;
  random : string
}.

(** [parseInt(text, 10)]: leading white space, an optional sign, the longest
    run of digits; [None] is NaN. *)
Fixpoint parseDigits (acc : option Z) (s : string) : option Z :=
  match s with
  | EmptyString => acc
  | String c r =>
      if isDigit c
      then parseDigits (Some (10 * (match acc with Some a => a | None => 0 end)
                              + (code c - 48))) r
      else acc
  end.

Definition parseInt (s : string) : option Z :=
  match trimStart s with
  | String "-" r => option_map Z.opp (parseDigits None r)
  | String "+" r => parseDigits None r
  | r => parseDigits None r
  end.

Definition _normalizeNumber (value : Z) : Z :=
  match parseInt (toString10 value) with
  | Some num => num
  | None => 0
  end.

Definition _normalizeString (value : option string) : string :=
  match value with
  | Some s => toLowerCase (trim s)
  | None => EmptyString
  end.

Record NormalizedTransfer : Type := mkNormalizedTransfer {
  n_vehicleId : string;
  n_toDriver : string;
  n_fromDriver : string;
  n_dateTime : option string
}.

(** The callback of [transfers.map]: [toISOString] throws a RangeError on an
    invalid date. *)
Definition normalizeTransfer (transfer : Transfer) : result NormalizedTransfer :=
  let mk := mkNormalizedTransfer
              (_normalizeString (vehicleId transfer))
              (_normalizeString (toDriver transfer))
              (_normalizeString (fromDriver transfer)) in
  match dateTime transfer with
  | None => Ok (mk None)
  | Some (JsDate.Valid t) => Ok (mk (Some (JsDate.toISOString t)))
  | Some JsDate.Invalid => Throw "RangeError: Invalid time value"
  end.

Fixpoint mapResult {A B : Type} (f : A -> result B) (l : list A) : result (list B) :=
  match l with
  | [] => Ok []
  | x :: r =>
      match f x with
      | Throw e => Throw e
      | Ok y =>
          match mapResult f r with
          | Throw e => Throw e
          | Ok ys => Ok (y :: ys)
          end
      end
  end.

Definition sortKey (a : NormalizedTransfer) : string :=
  n_vehicleId a +:+ "-" +:+ n_toDriver a +:+ "-" +:+ n_fromDriver a.

Section WithCollation.

(** [a.localeCompare(b)] of the host: negative, zero or positive. *)
Variable localeCompare : string -> string -> Z.

Definition _normalizeTransfers (transfers : option (list Transfer))
  : result (list NormalizedTransfer) :=
  match transfers with
  | None => Ok []
  | Some l =>
      match mapResult normalizeTransfer l with
      | Throw e => Throw e
      | Ok mapped =>
          Ok (sortBy (fun a b => localeCompare (sortKey a) (sortKey b)) mapped)
      end
  end.

Definition nonEmpty (s : string) : bool := (0 <? String.length s)%nat.

Definition _normalizeFilesList (files : option (list string)) : list string :=
  match files with
  | None => []
  | Some l =>
      sortBy compareUnits
        (List.filter nonEmpty (List.map (fun file => _normalizeString (Some file)) l))
  end.

Definition transferJson (t : NormalizedTransfer) : json :=
  JObj [("vehicleId", JStr (n_vehicleId t));
        ("toDriver", JStr (n_toDriver t));
        ("fromDriver", JStr (n_fromDriver t));
        ("dateTime", match n_dateTime t with Some s => JStr s | None => JNull end)].

Definition _normalizeData (data : ProcessingData) : result json :=
  match _normalizeTransfers (transfers data) with
  | Throw e => Throw e
  | Ok ts =>
      Ok (JObj [("transfersCount", JNum (_normalizeNumber (transfersCount data)));
                ("transfers", JArr (List.map transferJson ts));
                ("filesProcessed", JArr (List.map JStr (_normalizeFilesList (filesProcessed data))));
                ("source", JStr (_normalizeString (source data)));
                ("department", JStr (_normalizeString (department data)))])
  end.

(** [JSON.stringify] cannot throw on the normalised value (no cycles, no
    BigInt), so the inner [catch] of the source is never entered. *)
Definition _serializeData (data : json) : string := stringify data.

(** One round of the loop of [_calculateHash]:
    [hash = ((hash << 5) + hash) + char; hash = hash & hash]. *)
Definition hashStep (hash : Z) (c : ascii) : Z :=
  let hash' := (shl32 hash 5 + hash) + code c in
  and32 hash' hash'.

Fixpoint hashLoop (hash : Z) (str : string) : Z :=
  match str with
  | EmptyString => hash
  | String c r => hashLoop (hashStep hash c) r
  end.

Fixpoint sumLoop (sum : Z) (str : string) : Z :=
  match str with
  | EmptyString => sum
  | String c r => sumLoop (sum + code c) r
  end.

Definition _calculateChecksum (str : string) : string :=
  padStart 2 "0" (toString16 (sumLoop 0 str mod 256)).

Definition _calculateHash (str : string) : string :=
  let hash := hashLoop 5381 str in
  let hashStr := padStart 8 "0" (toString16 (Z.abs hash)) in
  let checksum := _calculateChecksum str in
  hashStr +:+ checksum.

Definition _generateFallbackHash (host : Host) : string :=
  let timestamp := toString10 (now host) in
  _calculateHash ("fallback_" +:+ timestamp +:+ "_" +:+ random host).

(** [generateDataHash]: the [try] block, and the [catch] that answers with
    the fallback digest.  The result is [Ok] when the method returns and
    [Throw] when an error leaves it. *)
Definition generateDataHash (host : Host) (data : ProcessingData) : result string :=
  match _normalizeData data with
  | Ok normalizedData =>
      let dataString := _serializeData normalizedData in
      Ok (_calculateHash dataString)
  | Throw _ => Ok (_generateFallbackHash host)
  end.

End WithCollation.

(** [/^[0-9a-f]{10}$/] *)
Definition hashPattern : Regex.regex :=
  Regex.Seqs [Regex.Bol; Regex.Times 10 (Regex.Class false [(48, 57); (97, 102)]); Regex.Eol].

(** [isValidHash]: [/^[0-9a-f]{10}$/.test(hash)]. *)
Definition isValidHash (hash : string) : bool :=
  match Regex.exec false hashPattern hash 0 with
  | Some _ => true
  | None => false
  end.

(** *** Files and utilities *)

(** [hash1 === hash2] when both are strings ([None] is any other value). *)
Definition compareHashes (hash1 hash2 : option string) : bool :=
  match hash1, hash2 with
  | Some a, Some b => String.eqb a b
  | _, _ => false
  end.

(** [content.replace(/\r\n/g, '\n')]: a carriage return goes when a line feed
    follows it. *)
Fixpoint crlfToLf (content : string) : string :=
  match content with
  | EmptyString => EmptyString
  | String c r =>
      match r with
      | String c' r' =>
          if (code c =? 13) && (code c' =? 10) then String c' (crlfToLf r')
          else String c (crlfToLf r)
      | EmptyString => String c EmptyString
      end
  end.

(** [content.replace(/\r/g, '\n')] *)
Fixpoint crToLf (content : string) : string :=
  match content with
  | EmptyString => EmptyString
  | String c r => String (if code c =? 13 then chr 10 else c) (crToLf r)
  end.

(** [_normalizeFileContent]; [None] is a content that is not a string. *)
Definition _normalizeFileContent (content : option string) : string :=
  match content with
  | None => EmptyString
  | Some content => toLowerCase (trim (crToLf (crlfToLf content)))
  end.

(** [generateFileHash]: nothing in the [try] block throws for a file name
    that is a string, so the fallback of the [catch] is not reached. *)
Definition generateFileHash (fileContent : option string) (fileName : string) : string :=
  let normalizedContent := _normalizeFileContent fileContent in
  let dataString := fileName +:+ ":" +:+ normalizedContent in
  _calculateHash dataString.

(** What [getHashInfo] answers. *)
Inductive HashInfo : Type :=
| InvalidHash (error : string)
| ValidHash (algorithm : string) (length : nat) (hashPart checksumPart : string).

Definition getHashInfo (hash : string) : HashInfo :=
  if negb (isValidHash hash) then InvalidHash "Invalid hash format"
  else ValidHash "djb2" (String.length hash) (take 8 hash) (take 2 (drop 8 hash)).

End DataHashService.


(** ** WhatsAppParser *)

Module WhatsAppParser.
Import JsString JsNumber Regex.

(** *** The patterns of the constructor *)

Definition ws : regex := Class false cls_s.
Definition ws1 : regex := Plus ws.
Definition digit : regex := Class false cls_d.

(** [\d{1,2}] *)
Definition digit12 : regex := Seq digit (Opt true digit).

(** [(?:el\s+)?] *)
Definition article : regex := Opt true (Seq (Lits "el") ws1).

(** [(?:carro|vehiculo|auto|taxi)], the second word with i-acute (U+00ED). *)
Definition vehicleWord : regex :=
  Alts [Lits "carro"; Seqs [Lits "veh"; Lit "237"; Lits "culo"]; Lits "auto"; Lits "taxi"].

(** [([A-Z0-9\-\s]+)] *)
Definition plateClass : regex :=
  Class false ([(65, 90); (48, 57); (45, 45)] ++ cls_s)%list.

(** [([A-Za-z...\s]+)]: the ASCII letters, the five acute vowels in both
    cases, N and n with tilde, and white space. *)
Definition nameClass : regex :=
  Class false ([(65, 90); (97, 122);
                (193, 193); (201, 201); (205, 205); (211, 211); (218, 218);
                (225, 225); (233, 233); (237, 237); (243, 243); (250, 250);
                (209, 209); (241, 241)] ++ cls_s)%list.

Definition plate (i : nat) : regex := Group i (Plus plateClass).
Definition name (i : nat) : regex := Group i (Plus nameClass).

Definition transferPatterns : list regex :=
  [ (* "le paso el carro X a Y" *)
    Seqs [Alts [Seqs [Lits "le"; ws1; Lits "paso"]; Lits "paso"; Lits "entrego"; Lits "doy"];
          ws1; article; vehicleWord; ws1; plate 1; ws1; Lit "a"; ws1; name 2];
    (* "el carro X se lo paso a Y" *)
    Seqs [article; vehicleWord; ws1; plate 1; ws1; Lits "se"; ws1; Lits "lo"; ws1;
          Alts [Lits "paso"; Lits "entrego"; Lits "doy"]; ws1; Lit "a"; ws1; name 2];
    (* "Y recibe el carro X" *)
    Seqs [name 1; ws1; Alts [Lits "recibe"; Lits "toma"; Lits "agarra"]; ws1;
          article; vehicleWord; ws1; plate 2];
    (* "transferir carro X a Y" *)
    Seqs [Alts [Lits "transferir"; Lits "transferencia"]; ws1; article; vehicleWord; ws1;
          plate 1; ws1; Lit "a"; ws1; name 2];
    (* "X deja el carro, Y lo toma" *)
    Seqs [name 1; ws1; Alts [Lits "deja"; Lits "entrega"]; ws1; article; vehicleWord; ws1;
          plate 2; Star false Dot; name 3; ws1;
          Alts [Seqs [Lits "lo"; ws1; Lits "toma"]; Seqs [Lits "lo"; ws1; Lits "recibe"];
                Seqs [Lits "lo"; ws1; Lits "agarra"]]];
    (* "carro X para Y" *)
    Seqs [vehicleWord; ws1; plate 1; ws1; Lits "para"; ws1; name 2] ].

(** The date of a layout, [\d{1,2}\/\d{1,2}\/\d{n}], and its two times. *)
Definition datePart (yearDigits : nat) : regex :=
  Seqs [digit12; Lit "/"; digit12; Lit "/"; Times yearDigits digit].
Definition timeHM : regex := Seqs [digit12; Lit ":"; Times 2 digit].
Definition timeHMS : regex := Seqs [digit12; Lit ":"; Times 2 digit; Lit ":"; Times 2 digit].

Definition dateTimePatterns : list regex :=
  [ (* DD/MM/YYYY, HH:MM *)
    Seqs [Group 1 (datePart 4); Opt true (Lit ","); Star true ws; Group 2 timeHM];
    (* DD/MM/YY, HH:MM *)
    Seqs [Group 1 (datePart 2); Opt true (Lit ","); Star true ws; Group 2 timeHM];
    (* [DD/MM/YY HH:MM:SS] *)
    Seqs [Lit "["; Group 1 (datePart 2); ws1; Group 2 timeHMS; Lit "]"] ].

(** [cleanNamePatterns]: a leading dash, a colon with what follows it, runs of
    white space (the last with the [g] flag). *)
Definition leadingDash : regex := Seqs [Bol; Star true ws; Lit "-"; Star true ws].
Definition colonTail : regex := Seqs [Star true ws; Lit ":"; Star true Dot; Eol].

(** *** Cleaning of the captured tokens *)

(** [.replace(/\s+/g, ' ')]: every maximal run of white space becomes one
    space; [inRun] tells that the unit before was white space. *)
Fixpoint collapseSpaces (inRun : bool) (s : string) : string :=
  match s with
  | EmptyString => EmptyString
  | String c r =>
      if isWhiteSpace c
      then (if inRun then collapseSpaces true r else String " " (collapseSpaces true r))
      else String c (collapseSpaces false r)
  end.

(** The units [/[^\w\s\-]/g] leaves in place. *)
Definition plateUnit (c : ascii) : bool :=
  isWordChar c || isWhiteSpace c || (code c =? 45).

Definition cleanVehicleId (vehicleId : string) : string :=
  match vehicleId with
  | EmptyString => EmptyString
  | _ => trim (filter plateUnit (collapseSpaces false (toUpperCase (trim vehicleId))))
  end.

Definition space (_ : string) : string := " ".

Definition cleanDriverName (driverName : string) : string :=
  match driverName with
  | EmptyString => EmptyString
  | _ =>
      let cleaned := trim driverName in
      let cleaned := replaceFirst false leadingDash space cleaned in
      let cleaned := replaceFirst false colonTail space cleaned in
      let cleaned := replaceAll false ws1 space cleaned in
      replaceAll false (Seq WordBoundary (Class false cls_w)) toUpperCase
        (toLowerCase (replaceAll false ws1 space (trim cleaned)))
  end.

(** *** Confidence *)

Definition patternConfidence : list float :=
  [0.9; 0.85; 0.8; 0.9; 0.75; 0.7]%float.

Definition keyWords : list string := ["transferir"; "entrego"; "paso"; "recibe"].

Definition calculateConfidence (matchText : string) (patternIndex : nat) : float :=
  let confidence := nth patternIndex patternConfidence 0.7%float in
  let keyWordCount :=
    List.length (List.filter (fun word => includes word (toLowerCase matchText)) keyWords) in
  let confidence :=
    (confidence + PrimFloat.of_uint63 (Uint63.of_Z (Z.of_nat keyWordCount)) * 0.05)%float in
  if PrimFloat.ltb 1%float confidence then 1%float else confidence.

(** *** Pattern extraction *)

Record Candidate : Type := mkCandidate {
  vehicleId : string;
  fromDriver : option string;
  toDriver : string;
  patternUsed : nat;
  confidence : float
}.

(** [match[i]] handed to a cleaning function ([undefined] cleans to the empty string). *)
Definition cleaned (f : string -> string) (i : nat) (m : MatchResult) : string :=
  match group i (groups m) with
  | Some s => f s
  | None => EmptyString
  end.

(** The body of the [while] loop: the roles of the groups depend on the
    pattern, and a candidate needs a vehicle and a to-driver. *)
Definition interpret (patternIndex : nat) (m : MatchResult) : option Candidate :=
  let '(vehicle, from, to) :=
    match patternIndex with
    | 2%nat => (cleaned cleanVehicleId 2 m, EmptyString, cleaned cleanDriverName 1 m)
    | 4%nat => (cleaned cleanVehicleId 2 m, cleaned cleanDriverName 1 m,
                cleaned cleanDriverName 3 m)
    | 0%nat | 1%nat | 3%nat | 5%nat =>
        (cleaned cleanVehicleId 1 m, EmptyString, cleaned cleanDriverName 2 m)
    | _ => (EmptyString, EmptyString, EmptyString)
    end in
  match vehicle, to with
  | EmptyString, _ | _, EmptyString => None
  | _, _ =>
      Some (mkCandidate vehicle
              (match from with EmptyString => None | _ => Some from end)
              to patternIndex (calculateConfidence (matched m) patternIndex))
  end.

(** [while ((match = pattern.exec(text)) !== null)]: every match moves
    [lastIndex] to its end.  [None] when the bound is used up, which is the
    case of a loop that does not end (an empty match leaves [lastIndex]
    where it was). *)
Fixpoint execAll (fuel : nat) (r : regex) (text : string) (lastIndex : nat)
  : option (list MatchResult) :=
  match fuel with
  | O => None
  | S fuel' =>
      match exec true r text lastIndex with
      | None => Some []
      | Some m => option_map (cons m) (execAll fuel' r text (endIndex m))
      end
  end.

Fixpoint forEachPattern (patterns : list regex) (patternIndex : nat) (text : string)
  : option (list Candidate) :=
  match patterns with
  | [] => Some []
  | pattern :: more =>
      match execAll (S (String.length text)) pattern text 0,
            forEachPattern more (S patternIndex) text with
      | Some ms, Some later =>
          Some (omap (interpret patternIndex) ms ++ later)%list
      | _, _ => None
      end
  end.

Definition findTransferPatterns (text : string) : option (list Candidate) :=
  forEachPattern transferPatterns 0 text.

(** *** Temporal extraction *)

Section WithHostDate.

(** [new Date(text)] of the host for a date-time string. *)
Variable newDate : string -> JsDate.Date.

(** The [try] block for one match: the value the method returns, or the
    error the [catch] swallows. *)
Definition convertMatch (m : MatchResult) : result (option JsDate.Date) :=
  match group 1 (groups m), group 2 (groups m) with
  | Some dateStr, Some timeStr =>
      let dateStr' :=
        if includes "/" dateStr then
          match split "/" dateStr with
          | p0 :: p1 :: p2 :: _ =>
              let p2' := if (String.length p2 =? 2)%nat then "20" +:+ p2 else p2 in
              Ok (p2' +:+ "-" +:+ padStart 2 "0" p1 +:+ "-" +:+ padStart 2 "0" p0)
          | _ => Throw "TypeError: Cannot read properties of undefined"
          end
        else Ok dateStr in
      match dateStr' with
      | Throw e => Throw e
      | Ok dateStr =>
          let timeStr :=
            if (List.length (split ":" timeStr) =? 3)%nat then take 5 timeStr else timeStr in
          let dateTime := newDate (dateStr +:+ "T" +:+ timeStr +:+ ":00") in
          match JsDate.getTime dateTime with
          | None => Ok None
          | Some _ => Ok (Some dateTime)
          end
      end
  | _, _ => Throw "TypeError: Cannot read properties of undefined"
  end.

(** The [for] loop over the layouts. *)
Fixpoint extractFrom (patterns : list regex) (text : string) : option JsDate.Date :=
  match patterns with
  | [] => None
  | pattern :: more =>
      match exec false pattern text 0 with
      | Some m =>
          match convertMatch m with
          | Ok value => value
          | Throw _ => extractFrom more text
          end
      | None => extractFrom more text
      end
  end.

Definition extractDateTime (text : string) : option JsDate.Date :=
  extractFrom dateTimePatterns text.

(** *** Deduplication and the whole parse *)

Record ParsedTransfer : Type := mkParsed {
  candidate : Candidate;
  dateTime : option JsDate.Date;
  originalText : string;
  lineNumber : nat
}.

(** [transfer.dateTime?.getTime() || 'no-date'] *)
Definition timeKey (dateTime : option JsDate.Date) : string :=
  match dateTime with
  | Some d =>
      match JsDate.getTime d with
      | Some t => if t =? 0 then "no-date" else toString10 t
      | None => "no-date"
      end
  | None => "no-date"
  end.

Definition dedupKey (transfer : ParsedTransfer) : string :=
  vehicleId (candidate transfer) +:+ "-" +:+ toDriver (candidate transfer) +:+ "-" +:+
  timeKey (dateTime transfer).

(** [transfers.filter(...)] with the set [seen]. *)
Fixpoint filterSeen (seen : gset string) (transfers : list ParsedTransfer)
  : list ParsedTransfer :=
  match transfers with
  | [] => []
  | transfer :: more =>
      let key := dedupKey transfer in
      if decide (key ∈ seen) then filterSeen seen more
      else transfer :: filterSeen ({[key]} ∪ seen) more
  end.

Definition deduplicateTransfers (transfers : list ParsedTransfer) : list ParsedTransfer :=
  filterSeen ∅ transfers.

(** The loop of [parseChat] over the lines, [i] being the index of the line. *)
Fixpoint parseLines (lines : list string) (i : nat) : option (list ParsedTransfer) :=
  match lines with
  | [] => Some []
  | raw :: more =>
      let line := trim raw in
      match line with
      | EmptyString => parseLines more (S i)
      | _ =>
          let dateTime := extractDateTime line in
          match findTransferPatterns line, parseLines more (S i) with
          | Some found, Some later =>
              Some (List.map (fun c => mkParsed c dateTime line (S i)) found ++ later)%list
          | _, _ => None
          end
      end
  end.

Definition parseChat (content : string) : option (list ParsedTransfer) :=
  match content with
  | EmptyString => Some []
  | _ => option_map deduplicateTransfers (parseLines (split "010" content) 0)
  end.

(** *** CSV exports *)

(** The [replace] of a column: every double quote (U+0022) goes. *)
Definition removeQuotes (col : string) : string :=
  filter (fun c => negb (code c =? 34)) col.

(** [parseCSVDateTime]: the host reads the date and the time joined by a
    space; what is not a date becomes [null]. *)
Definition parseCSVDateTime (date time : string) : option JsDate.Date :=
  let dateTime := newDate (date +:+ " " +:+ time) in
  match JsDate.getTime dateTime with
  | None => None
  | Some _ => Some dateTime
  end.

(** A transfer read from a CSV row carries the sender besides. *)
Record CsvTransfer : Type := mkCsv {
  transfer : ParsedTransfer;
  sender : string
}.

(** [deduplicateTransfers] on the transfers of a CSV file: the key reads the
    same three fields. *)
Fixpoint filterSeenCsv (seen : gset string) (transfers : list CsvTransfer)
  : list CsvTransfer :=
  match transfers with
  | [] => []
  | row :: more =>
      let key := dedupKey (transfer row) in
      if decide (key ∈ seen) then filterSeenCsv seen more
      else row :: filterSeenCsv ({[key]} ∪ seen) more
  end.

Definition deduplicateCsvTransfers (transfers : list CsvTransfer) : list CsvTransfer :=
  filterSeenCsv ∅ transfers.

(** The loop of [parseCSV] over the lines after the header, [i] being the
    index of the line: a row needs four columns, the fourth is the message. *)
Fixpoint parseCSVLines (lines : list string) (i : nat) : option (list CsvTransfer) :=
  match lines with
  | [] => Some []
  | raw :: more =>
      let line := trim raw in
      match line with
      | EmptyString => parseCSVLines more (S i)
      | _ =>
          let columns := List.map (fun col => trim (removeQuotes col)) (split "," line) in
          match columns with
          | date :: time :: sender :: message :: _ =>
              let fullText :=
                date +:+ " " +:+ time +:+ " " +:+ sender +:+ ": " +:+ message in
              match findTransferPatterns message, parseCSVLines more (S i) with
              | Some found, Some later =>
                  Some (List.map
                          (fun c => mkCsv (mkParsed c (parseCSVDateTime date time)
                                             fullText (S i)) sender)
                          found ++ later)%list
              | _, _ => None
              end
          | _ => parseCSVLines more (S i)
          end
      end
  end.

(** [parseCSV]: the first line is the header and is skipped. *)
Definition parseCSV (csvContent : string) : option (list CsvTransfer) :=
  option_map deduplicateCsvTransfers (parseCSVLines (tl (split "010" csvContent)) 1).

End WithHostDate.

End WhatsAppParser.


(** ** Reconciliation against the registry (ChatUpload, TransferPreview) *)

Module Reconciler.
Import JsString.

Record Vehicle : Type := mkVehicle {
  vehicle_id : string;
  plate : string
}.

Record Driver : Type := mkDriver {
  driver_id : string;
  name : string
}.

(** A reconciled transfer: the parsed transfer, the matches ([None] is
    [null] or [undefined]) and the validity flag. *)
Record ReconciledTransfer : Type := mkReconciled {
  parsed : WhatsAppParser.ParsedTransfer;
  vehicleMatch : option Vehicle;
  fromDriverMatch : option Driver;
  toDriverMatch : option Driver;
  isValid : bool;
  vehicleSuggestions : option (list Vehicle);
  fromDriverSuggestions : option (list Driver);
  toDriverSuggestions : option (list Driver)
}.

(** Truthiness of a match: an object is truthy, [null] and [undefined] are not. *)
Definition truthy {A : Type} (o : option A) : bool :=
  match o with
  | Some _ => true
  | None => false
  end.

Definition removeSpaces (s : string) : string :=
  filter (fun c => negb (isWhiteSpace c)) s.
Definition removeDashes (s : string) : string :=
  filter (fun c => negb (code c =? 45)) s.
Definition removeDashesAndSpaces (s : string) : string :=
  filter (fun c => negb ((code c =? 45) || isWhiteSpace c)) s.

(** [name.split(' ')[0]] *)
Definition firstWord (s : string) : string := hd EmptyString (split " " s).

Section WithRegistry.
Variable vehicles : list Vehicle.
Variable drivers : list Driver.

Definition findVehicleByIdentifier (identifier : string) : option Vehicle :=
  match identifier with
  | EmptyString => None
  | _ =>
      let cleanId := removeSpaces (toLowerCase identifier) in
      List.find (fun vehicle =>
                   String.eqb (removeSpaces (toLowerCase (plate vehicle))) cleanId ||
                   String.eqb (removeDashesAndSpaces (toLowerCase (plate vehicle)))
                              (removeDashes cleanId))
                vehicles
  end.

Definition findDriverByName (name' : string) : option Driver :=
  match name' with
  | EmptyString => None
  | _ =>
      let cleanName := trim (toLowerCase name') in
      List.find (fun driver =>
                   includes cleanName (toLowerCase (name driver)) ||
                   includes (firstWord (toLowerCase (name driver))) cleanName)
                drivers
  end.

Definition getSimilarVehicles (identifier : string) : list Vehicle :=
  match identifier with
  | EmptyString => []
  | _ =>
      let cleanId := toLowerCase identifier in
      firstn 3 (List.filter
                  (fun vehicle =>
                     includes (take 3 cleanId) (toLowerCase (plate vehicle)) ||
                     includes (take 3 (toLowerCase (plate vehicle))) cleanId)
                  vehicles)
  end.

Definition getSimilarDrivers (name' : option string) : list Driver :=
  match name' with
  | None | Some EmptyString => []
  | Some n =>
      let cleanName := toLowerCase n in
      firstn 3 (List.filter
                  (fun driver =>
                     let driverName := toLowerCase (name driver) in
                     includes (firstWord cleanName) driverName ||
                     includes (firstWord driverName) cleanName)
                  drivers)
  end.

Definition enrichTransfer (transfer : WhatsAppParser.ParsedTransfer) : ReconciledTransfer :=
  let c := WhatsAppParser.candidate transfer in
  let vehicle := findVehicleByIdentifier (WhatsAppParser.vehicleId c) in
  let fromDriver :=
    match WhatsAppParser.fromDriver c with
    | Some n => findDriverByName n
    | None => None
    end in
  let toDriver := findDriverByName (WhatsAppParser.toDriver c) in
  mkReconciled transfer vehicle fromDriver toDriver
    (truthy vehicle && truthy toDriver)
    (if truthy vehicle then None
     else Some (getSimilarVehicles (WhatsAppParser.vehicleId c)))
    (if truthy fromDriver then None
     else Some (getSimilarDrivers (WhatsAppParser.fromDriver c)))
    (if truthy toDriver then None
     else Some (getSimilarDrivers (Some (WhatsAppParser.toDriver c)))).

Definition enrichTransfers (transfers : list WhatsAppParser.ParsedTransfer)
  : list ReconciledTransfer :=
  List.map enrichTransfer transfers.

(** The [type] argument of [handleManualMatch]; any other string changes no
    match. *)
Inductive MatchType : Type :=
| OfVehicle
| OfFromDriver
| OfToDriver
| OfOther.

Definition overrideMatch (type : MatchType) (selectedId : string)
  (transfer : ReconciledTransfer) : ReconciledTransfer :=
  let vehicleMatch' :=
    match type with
    | OfVehicle => List.find (fun v => String.eqb (vehicle_id v) selectedId) vehicles
    | _ => vehicleMatch transfer
    end in
  let fromDriverMatch' :=
    match type with
    | OfFromDriver => List.find (fun d => String.eqb (driver_id d) selectedId) drivers
    | _ => fromDriverMatch transfer
    end in
  let toDriverMatch' :=
    match type with
    | OfToDriver => List.find (fun d => String.eqb (driver_id d) selectedId) drivers
    | _ => toDriverMatch transfer
    end in
  mkReconciled (parsed transfer) vehicleMatch' fromDriverMatch' toDriverMatch'
    (truthy vehicleMatch' && truthy toDriverMatch')
    (vehicleSuggestions transfer) (fromDriverSuggestions transfer)
    (toDriverSuggestions transfer).

(** [handleManualMatch] followed by the [onUpdateTransfer] of the page, which
    stores the updated transfer at the same index.  The component calls it
    with the index of a row it has rendered; for an index outside the list
    the list is returned as it is. *)
Definition handleManualMatch (transfers : list ReconciledTransfer)
  (transferIndex : nat) (type : MatchType) (selectedId : string)
  : list ReconciledTransfer :=
  match transfers !! transferIndex with
  | Some transfer => <[transferIndex := overrideMatch type selectedId transfer]> transfers
  | None => transfers
  end.

(** A sequence of manual overrides, applied in order. *)
Definition applyOverrides (ops : list (nat * MatchType * string))
  (transfers : list ReconciledTransfer) : list ReconciledTransfer :=
  fold_left (fun ts op => handleManualMatch ts (fst (fst op)) (snd (fst op)) (snd op))
            ops transfers.

End WithRegistry.

(** The validity flag agrees with the two matches it is derived from. *)
Definition validityDerived (t : ReconciledTransfer) : Prop :=
  isValid t = truthy (vehicleMatch t) && truthy (toDriverMatch t).

End Reconciler.


(** ** The preview of the detected transfers (TransferPreview) *)

Module TransferPreview.
Import Reconciler.

(** The initial value of the state [selectedTransfers]:
    [transfers.filter(t => t.isValid).map((_, index) => index)]. *)
Definition initialSelection (transfers : list ReconciledTransfer) : list nat :=
  imap (fun index _ => index) (List.filter isValid transfers).

(** The state after [handleTransferToggle(index)]. *)
Definition handleTransferToggle (index : nat) (prev : list nat) : list nat :=
  if existsb (Nat.eqb index) prev
  then List.filter (fun i => negb (i =? index)%nat) prev
  else (prev ++ [index])%list.

(** The state after [handleSelectAll()]. *)
Definition handleSelectAll (transfers : list ReconciledTransfer) : list nat :=
  List.map snd
    (List.filter (fun p : ReconciledTransfer * nat => isValid (fst p))
       (imap (fun index transfer => (transfer, index)) transfers)).

(** The state after [handleDeselectAll()]. *)
Definition handleDeselectAll : list nat := [].

Definition undefinedIsValid : string :=
  "TypeError: Cannot read properties of undefined (reading 'isValid')".

(** [.filter(transfer => transfer.isValid)] over the rows picked by index:
    a row outside the list is [undefined], and reading its flag throws. *)
Fixpoint filterValid (picked : list (option ReconciledTransfer))
  : result (list ReconciledTransfer) :=
  match picked with
  | [] => Ok []
  | None :: _ => Throw undefinedIsValid
  | Some transfer :: more =>
      match filterValid more with
      | Throw e => Throw e
      | Ok kept => Ok (if isValid transfer then transfer :: kept else kept)
      end
  end.

(** [handleSave]: what [onSave] is handed. *)
Definition handleSave (selectedTransfers : list nat) (transfers : list ReconciledTransfer)
  : result (list ReconciledTransfer) :=
  filterValid (List.map (fun index => transfers !! index) selectedTransfers).

Definition validTransfersCount (transfers : list ReconciledTransfer) : nat :=
  List.length (List.filter isValid transfers).

(** [selectedTransfers.filter(index => transfers[index].isValid).length] *)
Definition selectedValidCount (selectedTransfers : list nat)
  (transfers : list ReconciledTransfer) : result nat :=
  match filterValid (List.map (fun index => transfers !! index) selectedTransfers) with
  | Throw e => Throw e
  | Ok kept => Ok (List.length kept)
  end.

Definition getConfidenceColor (confidence : float) : string :=
  if PrimFloat.leb 0.8%float confidence then "text-success"
  else if PrimFloat.leb 0.6%float confidence then "text-warning"
  else "text-error".

End TransferPreview.


(** ** AlertService and EmailService *)

Module AlertService.
Import JsString JsNumber.

(** *** Constants *)

Definition DEFAULT_ALERT_HOUR : Z := 18.
Definition ALERT_DAYS : list Z := [1; 2; 3; 4; 5; 6].
Definition ADMIN_EMAIL : string := "dylan01aponte@gmail.com".
Definition DAILY_PROCESSING : string := "daily_processing".
Definition ALERT_TYPES : list string :=
  [DAILY_PROCESSING; "change_detected"; "system_error"].

(** *** Documents *)

Record ProcessingRecord : Type := mkProcessingRecord {
  pr_date : string;
  pr_timestamp : Z;
  pr_transfersProcessed : Z;
  pr_filesProcessed : list string;
  pr_source : string;
  pr_hash : string
}.

Record AlertRecord : Type := mkAlertRecord {
  ar_date : string;
  ar_type : string;
  ar_sentAt : Z;
  ar_recipient : string
}.

Record EmailData : Type := mkEmailData {
  e_type : string;
  e_recipient : string;
  e_subject : string;
  e_date : string;
  e_currentDate : string
}.

(** *** The surroundings of the service

    The clock ([new Date()]), the offset of local time from UTC, the two
    Firestore collections (document id to document), the state of the
    persistence and notification collaborators, and what the notification
    collaborator has been handed so far.  A call reads one clock value; time
    passes between calls ([advance]). *)
Record World : Type := mkWorld {
  clock : Z;
  localTZA : Z -> Z;
  daily_processing : gmap string ProcessingRecord;
  sent_alerts : gmap string AlertRecord;
  persistenceUp : bool;
  emailConfigured : bool;
  emailJsUp : bool;
  dispatched : list EmailData;
  delivered : list EmailData;
  pending_emails : list EmailData
}.

Definition advance (d : Z) (w : World) : World :=
  mkWorld (clock w + d) (localTZA w) (daily_processing w) (sent_alerts w)
    (persistenceUp w) (emailConfigured w) (emailJsUp w)
    (dispatched w) (delivered w) (pending_emails w).

(** Two worlds with the same clock, time zone, ledger, alert records and
    persistence state. *)
Definition sameLedger (w w' : World) : Prop :=
  clock w' = clock w /\ localTZA w' = localTZA w /\
  daily_processing w' = daily_processing w /\ sent_alerts w' = sent_alerts w /\
  persistenceUp w' = persistenceUp w.

(** *** Computations over the world that may throw *)

Definition M (A : Type) : Type := World -> result A * World.

Definition ret {A : Type} (a : A) : M A := fun w => (Ok a, w).
Definition throw {A : Type} (msg : string) : M A := fun w => (Throw msg, w).

Definition bind {A B : Type} (c : M A) (k : A -> M B) : M B :=
  fun w =>
    match c w with
    | (Ok a, w') => k a w'
    | (Throw e, w') => (Throw e, w')
    end.

Definition tryCatch {A : Type} (body : M A) (handler : string -> M A) : M A :=
  fun w =>
    match body w with
    | (Ok a, w') => (Ok a, w')
    | (Throw e, w') => handler e w'
    end.

Notation "'let*' x ':=' c 'in' k" := (bind c (fun x => k))
  (at level 10, x pattern, c at level 100, k at level 200).

Definition get : M World := fun w => (Ok w, w).

(** *** Firestore *)

Definition unavailable : string := "FirebaseError: unavailable".

Definition matchesDate (dateStr : string) (r : ProcessingRecord) : bool :=
  String.eqb (pr_date r) dateStr.

(** Order of [orderBy('timestamp', 'desc')]: later timestamp first, then
    greater document id. *)
Definition newer (a b : string * ProcessingRecord) : bool :=
  (pr_timestamp (snd b) <? pr_timestamp (snd a)) ||
  ((pr_timestamp (snd b) =? pr_timestamp (snd a)) &&
   (compareUnits (fst b) (fst a) <? 0)).

Definition latest (docs : list (string * ProcessingRecord)) : option ProcessingRecord :=
  option_map snd
    (fold_right (fun d best =>
                   match best with
                   | Some b => if newer d b then Some d else Some b
                   | None => Some d
                   end) None docs).

(** The documents of [daily_processing] recorded for a date. *)
Definition recordsFor (dateStr : string) (w : World) : list (string * ProcessingRecord) :=
  List.filter (fun d => matchesDate dateStr (snd d)) (map_to_list (daily_processing w)).

(** [getDocs(query(daily_processing, where date == dateStr,
    orderBy timestamp desc, limit 1))]: the first document of the snapshot,
    [None] when the snapshot is empty. *)
Definition queryDailyProcessing (dateStr : string) : M (option ProcessingRecord) :=
  fun w =>
    if persistenceUp w
    then (Ok (latest (recordsFor dateStr w)), w)
    else (Throw unavailable, w).

Definition isAlertFor (dateStr type : string) (r : AlertRecord) : bool :=
  String.eqb (ar_date r) dateStr && String.eqb (ar_type r) type.

(** The documents of [sent_alerts] a query for [(dateStr, type)] returns. *)
Definition alertDocs (dateStr type : string) (w : World) : gmap string AlertRecord :=
  base.filter (fun d : string * AlertRecord => isAlertFor dateStr type (snd d) = true)
         (sent_alerts w).

(** [getDocs(query(sent_alerts, where date == dateStr, where type == type))]:
    the [empty] flag of the snapshot. *)
Definition querySentAlertsEmpty (dateStr type : string) : M bool :=
  fun w =>
    if persistenceUp w
    then (Ok (bool_decide (alertDocs dateStr type w = ∅)), w)
    else (Throw unavailable, w).

Definition setSentAlert (docId : string) (record : AlertRecord) : M unit :=
  fun w =>
    if persistenceUp w
    then (Ok tt,
          mkWorld (clock w) (localTZA w) (daily_processing w)
            (<[docId := record]> (sent_alerts w))
            (persistenceUp w) (emailConfigured w) (emailJsUp w)
            (dispatched w) (delivered w) (pending_emails w))
    else (Throw unavailable, w).

Definition setPendingEmail (emailData : EmailData) : M unit :=
  fun w =>
    if persistenceUp w
    then (Ok tt,
          mkWorld (clock w) (localTZA w) (daily_processing w) (sent_alerts w)
            (persistenceUp w) (emailConfigured w) (emailJsUp w)
            (dispatched w) (delivered w) (pending_emails w ++ [emailData])%list)
    else (Throw unavailable, w).

(** *** EmailService *)

(** [/^[^\s@]+@[^\s@]+\.[^\s@]+$/] *)
Definition emailRegex : Regex.regex :=
  let other := Regex.Plus (Regex.Class true ((64, 64) :: Regex.cls_s)) in
  Regex.Seqs [Regex.Bol; other; Regex.Lit "@"; other; Regex.Lit "."; other; Regex.Eol].

Definition _validateEmailData (emailData : EmailData) : M unit :=
  if (String.eqb (e_type emailData) EmptyString) then throw "Missing or invalid field: type"
  else if (String.eqb (e_recipient emailData) EmptyString)
  then throw "Missing or invalid field: recipient"
  else if (String.eqb (e_subject emailData) EmptyString)
  then throw "Missing or invalid field: subject"
  else match Regex.exec false emailRegex (e_recipient emailData) 0 with
       | None => throw "Invalid recipient email address"
       | Some _ =>
           if existsb (String.eqb (e_type emailData)) ALERT_TYPES then ret tt
           else throw "Invalid alert type"
       end.

(** [_saveForManualSending]: a failure to save is logged and goes no further. *)
Definition _saveForManualSending (emailData : EmailData) : M unit :=
  tryCatch (setPendingEmail emailData) (fun _ => ret tt).

(** [_sendViaEmailJS]: the request reaches the mail service or throws. *)
Definition _sendViaEmailJS (emailData : EmailData) : M unit :=
  fun w =>
    if emailJsUp w
    then (Ok tt,
          mkWorld (clock w) (localTZA w) (daily_processing w) (sent_alerts w)
            (persistenceUp w) (emailConfigured w) (emailJsUp w)
            (dispatched w) (delivered w ++ [emailData])%list (pending_emails w))
    else (Throw "EmailJS API error", w).

(** Entering [sendAlert]: the notification collaborator has been handed one
    more notification. *)
Definition noteDispatch (emailData : EmailData) : M unit :=
  fun w =>
    (Ok tt,
     mkWorld (clock w) (localTZA w) (daily_processing w) (sent_alerts w)
       (persistenceUp w) (emailConfigured w) (emailJsUp w)
       (dispatched w ++ [emailData])%list (delivered w) (pending_emails w)).

(** [sendAlert]: the [success] flag of its result; it never throws. *)
Definition sendAlert (emailData : EmailData) : M bool :=
  let* _ := noteDispatch emailData in
  tryCatch
    (let* _ := _validateEmailData emailData in
     let* w := get in
     if emailConfigured w
     then (let* _ := _sendViaEmailJS emailData in ret true)
     else (let* _ := _saveForManualSending emailData in ret false))
    (fun _ => let* _ := _saveForManualSending emailData in ret false).

(** *** AlertService *)

Record DailyProcessingCheck : Type := mkCheck {
  processed : bool;
  lastProcessing : option ProcessingRecord;
  shouldAlert : bool;
  error : option string
}.

Definition _validateDate (date : JsDate.Date) : M Z :=
  match date with
  | JsDate.Valid t => ret t
  | JsDate.Invalid => throw "Invalid date provided"
  end.

(** [date.toISOString().split('T')[0]] *)
Definition _formatDateString (t : Z) : string :=
  hd EmptyString (split "T" (JsDate.toISOString t)).

(** [date.getDay()]: the day of the week in local time. *)
Definition getDay (w : World) (t : Z) : Z := JsDate.WeekDay (t + localTZA w t).

(** [date.getHours()] *)
Definition getHours (w : World) (t : Z) : Z :=
  JsDate.TimeWithinDay (t + localTZA w t) / 3600000.

(** [Math.ceil(a / b)] for integers and positive [b].  The source divides
    doubles; the only use compares the result with 1, where the rounding of
    the quotient makes no difference. *)
Definition ceilDiv (a b : Z) : Z := - ((- a) / b).

Definition _shouldSendAlert (t : Z) : M bool :=
  let* w := get in
  let today := clock w in
  let diffTime := today - t in
  let diffDays := ceilDiv diffTime (1000 * 60 * 60 * 24) in
  let dayOfWeek := getDay w t in
  let isWorkDay := existsb (Z.eqb dayOfWeek) ALERT_DAYS in
  ret (isWorkDay && (1 <=? diffDays)).

Definition _shouldCheckToday (w : World) (today : Z) : bool :=
  let currentHour := getHours w today in
  let dayOfWeek := getDay w today in
  let isWorkDay := existsb (Z.eqb dayOfWeek) ALERT_DAYS in
  isWorkDay && (DEFAULT_ALERT_HOUR <=? currentHour).

Definition checkDailyProcessing (date : JsDate.Date) : M DailyProcessingCheck :=
  tryCatch
    (let* t := _validateDate date in
     let dateStr := _formatDateString t in
     let* snapshot := queryDailyProcessing dateStr in
     match snapshot with
     | None =>
         let* alert := _shouldSendAlert t in
         ret (mkCheck false None alert None)
     | Some last => ret (mkCheck true (Some last) false None)
     end)
    (fun e => ret (mkCheck false None true (Some e))).

Definition _checkAlertSent (dateStr : string) : M bool :=
  tryCatch
    (let* empty := querySentAlertsEmpty dateStr DAILY_PROCESSING in
     ret (negb empty))
    (fun _ => ret false).

Definition _recordAlertSent (dateStr : string) : M unit :=
  tryCatch
    (let* w := get in
     setSentAlert ("daily_" +:+ dateStr)
       (mkAlertRecord dateStr DAILY_PROCESSING (clock w) ADMIN_EMAIL))
    (fun _ => ret tt).

(** The subject starts with an emoji in the source, which lies outside the
    code units of the model and is left out. *)
Definition _buildAlertEmailData (t : Z) : M EmailData :=
  let* w := get in
  let dateStr := _formatDateString t in
  let today := _formatDateString (clock w) in
  ret (mkEmailData DAILY_PROCESSING ADMIN_EMAIL
         ("ALERTA: Procesamiento diario pendiente - " +:+ dateStr) dateStr today).

Definition sendDailyAlert (date : JsDate.Date) : M bool :=
  tryCatch
    (let* t := _validateDate date in
     let dateStr := _formatDateString t in
     let* alertSent := _checkAlertSent dateStr in
     if alertSent then ret false
     else
       let* emailData := _buildAlertEmailData t in
       let* _ := sendAlert emailData in
       let* _ := _recordAlertSent dateStr in
       ret true)
    (fun e => throw ("Error enviando alerta: " +:+ e)).

Definition _checkAndSendForDate (date : JsDate.Date) : M bool :=
  let* processing := checkDailyProcessing date in
  if negb (processed processing) && shouldAlert processing
  then sendDailyAlert date
  else ret false.

(** *** Messages *)

(** [MESSAGES.INFO.FIRST_PROCESSING], with i-acute (U+00ED). *)
Definition FIRST_PROCESSING : string :=
  "Primera vez procesando datos de este d" +:+ String "237" "a".
Definition NO_CHANGES_DETECTED : string := "No se detectaron cambios en los datos".
Definition CHANGES_DETECTED : string := "Se detectaron cambios en los datos".
Definition SAVING_DATA : string := "Error guardando datos".
(** ['Procesar - Error en comparacion'], with o-acute (U+00F3). *)
Definition COMPARISON_ERROR : string :=
  "Procesar - Error en comparaci" +:+ String "243" "n".

(** *** EmailJS configuration *)

Record EmailConfig : Type := mkEmailConfig {
  serviceId : option string;
  templateId : option string;
  userId : option string;
  adminEmail : string
}.

(** The configuration [emailConfig.js] ships. *)
Definition emailConfig : EmailConfig :=
  mkEmailConfig (Some "your_service_id") (Some "your_template_id") (Some "your_user_id")
    ADMIN_EMAIL.

(** [import.meta.env]: the three variables of the build, [None] when unset. *)
Record Env : Type := mkEnv {
  DEV : bool;
  VITE_EMAILJS_SERVICE_ID : option string;
  VITE_EMAILJS_TEMPLATE_ID : option string;
  VITE_EMAILJS_USER_ID : option string
}.

(** [a || b] for a variable that is unset or a string. *)
Definition orElse (a b : option string) : option string :=
  match a with
  | Some (String _ _) => a
  | _ => b
  end.

Definition getEmailConfig (env : Env) : EmailConfig :=
  if DEV env
  then mkEmailConfig
         (orElse (VITE_EMAILJS_SERVICE_ID env) (serviceId emailConfig))
         (orElse (VITE_EMAILJS_TEMPLATE_ID env) (templateId emailConfig))
         (orElse (VITE_EMAILJS_USER_ID env) (userId emailConfig))
         ADMIN_EMAIL
  else emailConfig.

(** The test of one field in [_validateConfiguration]; [None] is a value that
    is missing or not a string. *)
Definition fieldConfigured (value : option string) : bool :=
  match value with
  | Some v =>
      negb (String.eqb v EmptyString) && negb (String.eqb (trim v) EmptyString) &&
      negb (startsWith "your_" v)
  | None => false
  end.

Definition _validateConfiguration (config : EmailConfig) : bool :=
  List.forallb fieldConfigured [serviceId config; templateId config; userId config].

(** [isEmailConfigured] of [emailConfig.js]. *)
Definition isEmailConfigured : bool :=
  negb (bool_decide (serviceId emailConfig = Some "your_service_id")) &&
  negb (bool_decide (templateId emailConfig = Some "your_template_id")) &&
  negb (bool_decide (userId emailConfig = Some "your_user_id")).

(** *** Change detection and the record of a processing *)

Definition setDailyProcessing (docId : string) (record : ProcessingRecord) : M unit :=
  fun w =>
    if persistenceUp w
    then (Ok tt,
          mkWorld (clock w) (localTZA w) (<[docId := record]> (daily_processing w))
            (sent_alerts w)
            (persistenceUp w) (emailConfigured w) (emailJsUp w)
            (dispatched w) (delivered w) (pending_emails w))
    else (Throw unavailable, w).

(** One entry of the list of changes: its [type] is ['transfers_count'] or
    ['files_processed']. *)
Inductive Change : Type :=
| TransfersCount (old new : Z) (description : string)
| FilesProcessed (old new : list string) (description : string).

Record ChangeDetectionResult : Type := mkDetection {
  hasChanges : bool;
  isFirstProcessing : bool;
  changes : list Change;
  recommendation : string;
  oldProcessing : option ProcessingRecord;
  detectionError : option string
}.

(** [_validateProcessingData]: the count is a number of the model, so what is
    left to check is its sign. *)
Definition _validateProcessingData (data : DataHashService.ProcessingData) : M unit :=
  if DataHashService.transfersCount data <? 0 then throw "Invalid transfers count"
  else ret tt.

(** [files || []] *)
Definition filesOrEmpty (files : option (list string)) : list string :=
  match files with
  | Some l => l
  | None => []
  end.

(** [JSON.stringify] of an array of strings. *)
Definition stringifyFiles (files : list string) : string :=
  Json.stringify (Json.JArr (List.map Json.JStr files)).

(** The description of a change of count, with u-acute (U+00FA) and o-acute. *)
Definition countDescription (old new : Z) : string :=
  "N" +:+ String "250" "mero de transferencias cambi" +:+ String "243" " de " +:+
  toString10 old +:+ " a " +:+ toString10 new.

(** [_compareProcessingData].  The two calls of [sort] reorder the arrays in
    place: besides the changes, the result gives the old record and the new
    data as the call leaves them. *)
Definition _compareProcessingData (oldData : ProcessingRecord)
  (newData : DataHashService.ProcessingData)
  : list Change * ProcessingRecord * DataHashService.ProcessingData :=
  let countChange :=
    if pr_transfersProcessed oldData =? DataHashService.transfersCount newData then []
    else [TransfersCount (pr_transfersProcessed oldData)
            (DataHashService.transfersCount newData)
            (countDescription (pr_transfersProcessed oldData)
               (DataHashService.transfersCount newData))] in
  let oldFiles := Json.sortBy compareUnits (pr_filesProcessed oldData) in
  let newFiles := Json.sortBy compareUnits (filesOrEmpty (DataHashService.filesProcessed newData)) in
  let filesChange :=
    if String.eqb (stringifyFiles oldFiles) (stringifyFiles newFiles) then []
    else [FilesProcessed oldFiles newFiles "Archivos procesados son diferentes"] in
  ((countChange ++ filesChange)%list,
   mkProcessingRecord (pr_date oldData) (pr_timestamp oldData)
     (pr_transfersProcessed oldData) oldFiles (pr_source oldData) (pr_hash oldData),
   DataHashService.mkProcessingData
     (DataHashService.transfersCount newData) (DataHashService.transfers newData)
     (option_map (Json.sortBy compareUnits) (DataHashService.filesProcessed newData))
     (DataHashService.source newData) (DataHashService.department newData)).

Section WithHashService.

(** The collation of the host and the digits [Math.random()] gives, as the
    hash service reads them. *)
Variable localeCompare : string -> string -> Z.
Variable random : string.

(** [this.hashService.generateDataHash(data)] *)
Definition hashOf (data : DataHashService.ProcessingData) : M string :=
  fun w =>
    (DataHashService.generateDataHash localeCompare
       (DataHashService.mkHost (clock w) random) data, w).

(** [detectChanges]: its answer, and the data as the call leaves them. *)
Definition detectChanges (date : JsDate.Date) (newData : DataHashService.ProcessingData)
  : M (ChangeDetectionResult * DataHashService.ProcessingData) :=
  tryCatch
    (let* _ := _validateDate date in
     let* _ := _validateProcessingData newData in
     let* existingProcessing := checkDailyProcessing date in
     match processed existingProcessing, lastProcessing existingProcessing with
     | true, Some last =>
         let oldHash := pr_hash last in
         let* newHash := hashOf newData in
         if String.eqb oldHash newHash
         then ret (mkDetection false false [] NO_CHANGES_DETECTED None None, newData)
         else
           let '(changes, last', newData') := _compareProcessingData last newData in
           ret (mkDetection true false changes CHANGES_DETECTED (Some last') None, newData')
     | true, None => throw "TypeError: Cannot read properties of null (reading 'hash')"
     | false, _ => ret (mkDetection true true [] FIRST_PROCESSING None None, newData)
     end)
    (fun e => ret (mkDetection true true [] COMPARISON_ERROR None (Some e), newData)).

(** [processingData.source || 'manual'] *)
Definition sourceOrManual (source : option string) : string :=
  match source with
  | Some (String c r) => String c r
  | _ => "manual"
  end.

Definition recordDailyProcessing (date : JsDate.Date)
  (processingData : DataHashService.ProcessingData) : M ProcessingRecord :=
  tryCatch
    (let* t := _validateDate date in
     let* _ := _validateProcessingData processingData in
     let dateStr := _formatDateString t in
     let* w := get in
     let timestamp := clock w in
     let* hash := hashOf processingData in
     let processingRecord :=
       mkProcessingRecord dateStr timestamp
         (DataHashService.transfersCount processingData)
         (filesOrEmpty (DataHashService.filesProcessed processingData))
         (sourceOrManual (DataHashService.source processingData))
         hash in
     let docId := dateStr +:+ "_" +:+ toString10 timestamp in
     let* _ := setDailyProcessing docId processingRecord in
     ret processingRecord)
    (fun e => throw (SAVING_DATA +:+ ": " +:+ e)).

End WithHashService.

(** *** The periodic check *)

Record AlertResults : Type := mkResults {
  alertsChecked : Z;
  alertsSent : Z;
  errors : list (string * string)
}.

(** Time passes while a call is awaited: the clock moves on by [d]. *)
Definition elapse (d : Z) : M unit := fun w => (Ok tt, advance d w).

Section WithTimeZone.

(** [UTC(t)] of ECMA-262 on the host: the time value of a local time. *)
Variable UTC : Z -> Z.

(** The time the awaited queries take: from the read of [today] to the clock
    read of the check of yesterday, and from there to the clock read of the
    check of today. *)
Variables awaitYesterday awaitToday : Z.

(** [yesterday.setDate(yesterday.getDate() - 1)]: the local time one day
    back, read as a time value again. *)
Definition dayBefore (w : World) (t : Z) : Z :=
  UTC (t + localTZA w t - JsDate.msPerDay).

(** [today] is read once, at the start; each check reads the clock again
    ([_shouldSendAlert], the alert record), after its queries. *)
Definition checkAndSendDailyAlerts : M AlertResults :=
  let* w := get in
  let today := clock w in
  let yesterday := dayBefore w today in
  let* results :=
    tryCatch
      (let* _ := elapse awaitYesterday in
       let* yesterdayResult := _checkAndSendForDate (JsDate.Valid yesterday) in
       ret (mkResults 1 (if yesterdayResult : bool then 1 else 0) []))
      (fun e => ret (mkResults 0 0 [("yesterday", e)])) in
  if _shouldCheckToday w today
  then
    tryCatch
      (let* _ := elapse awaitToday in
       let* todayResult := _checkAndSendForDate (JsDate.Valid today) in
       ret (mkResults (alertsChecked results + 1)
              (alertsSent results + (if todayResult : bool then 1 else 0))
              (errors results)))
      (fun e => ret (mkResults (alertsChecked results) (alertsSent results)
                       (errors results ++ [("today", e)])%list))
  else ret results.

End WithTimeZone.

End AlertService.


(** ** The alert hook (useAlertSystem) and the configuration of the build *)

Module AlertSystem.
Import JsString JsNumber.

(** [ALERT_CONFIG.CHECK_INTERVAL_MS] and the three values of [DEV_CONFIG]. *)
Definition CHECK_INTERVAL_MS : Z := 60 * 60 * 1000.
Definition VERBOSE_LOGGING : bool := true.
Definition SHOW_ALERT_WIDGET : bool := true.
Definition TEST_CHECK_INTERVAL : Z := 5 * 60 * 1000.

Record EnvironmentConfig : Type := mkEnvironment {
  isDevelopment : bool;
  alertCheckInterval : Z;
  showAlertWidget : bool;
  verboseLogging : bool
}.

Definition getEnvironmentConfig (env : AlertService.Env) : EnvironmentConfig :=
  let isDevelopment := AlertService.DEV env in
  mkEnvironment isDevelopment
    (if isDevelopment then TEST_CHECK_INTERVAL else CHECK_INTERVAL_MS)
    (isDevelopment && SHOW_ALERT_WIDGET)
    (isDevelopment && VERBOSE_LOGGING).

(** The timers of the hook: the period of the interval that is running, if
    any, and the delays of the time-outs started so far. *)
Record Timers : Type := mkTimers {
  runningInterval : option Z;
  timeouts : list Z
}.

(** One run of [setupPeriodicCheck]. *)
Definition setupPeriodicCheck (config : EnvironmentConfig) (timers : Timers) : Timers :=
  let cleared := mkTimers None (timeouts timers) in
  if negb (showAlertWidget config) then cleared
  else mkTimers (Some (alertCheckInterval config)) (timeouts cleared ++ [30000])%list.

Record AlertSystemState : Type := mkAlertState {
  checking : bool;
  lastCheck : option Z;
  alertsSent : Z;
  error : option string;
  isConfigured : bool
}.

Definition initialState : AlertSystemState := mkAlertState false None 0 None true.

(** The message for [n] errors, with o-acute (U+00F3). *)
Definition errorsMessage (n : nat) : string :=
  "Errores en verificaci" +:+ String "243" "n: " +:+ toString10 (Z.of_nat n).

Section WithTimeZone.
Variable UTC : Z -> Z.
Variables awaitYesterday awaitToday : Z.

(** [performAlertCheck]: [state] is the state the callback closed over,
    [prevState] the state its updates are merged into, no other update
    coming in between; the result is the state after the last update. *)
Definition performAlertCheck (state prevState : AlertSystemState)
  : AlertService.M AlertSystemState :=
  if checking state then AlertService.ret prevState
  else
    let started :=
      mkAlertState true (lastCheck prevState) (alertsSent prevState) None
        (isConfigured prevState) in
    AlertService.tryCatch
      (AlertService.bind
         (AlertService.checkAndSendDailyAlerts UTC awaitYesterday awaitToday)
         (fun results =>
       AlertService.bind AlertService.get (fun w =>
       AlertService.ret
         (mkAlertState false (Some (AlertService.clock w))
            (alertsSent state + AlertService.alertsSent results)
            (match AlertService.errors results with
             | [] => None
             | errs => Some (errorsMessage (List.length errs))
             end)
            (isConfigured started)))))
      (fun e =>
       AlertService.bind AlertService.get (fun w =>
       AlertService.ret
         (mkAlertState false (Some (AlertService.clock w)) (alertsSent started) (Some e)
            (isConfigured started)))).

End WithTimeZone.

End AlertSystem.


(** ** The words of the specification, for comparison with the code *)

Module Spec.
Import JsString Regex.

(** The set the specification gives for a normalised plate: [A-Z0-9-]. *)
Definition plateChar (c : ascii) : bool :=
  isUpper c || isDigit c || (code c =? 45).

(** The units a cleaned vehicle identifier is made of: upper-case letters,
    digits, hyphens and spaces, besides the underscore that [\w] admits. *)
Definition cleanedChar (c : ascii) : bool :=
  isUpper c || isDigit c || (code c =? 45) || (code c =? 32) || (code c =? 95).

(** No unit of an upper-cased string is a lower-case ASCII letter, and after
    the white-space runs are collapsed the only white space is the space. *)
Definition notLower (c : ascii) : bool := negb (isLower c).
Definition collapsedUnit (c : ascii) : bool :=
  notLower c && (negb (isWhiteSpace c) || (code c =? 32)).

(** The cleaned plate in words: the words of the upper-cased input (its
    maximal runs of units that are not white space), each without the units
    that are neither word characters nor hyphens, joined by single spaces and
    trimmed. *)
Definition atWordEnd (r : string) : bool :=
  match r with
  | EmptyString => true
  | String c _ => isWhiteSpace c
  end.

Definition consUnit (c : ascii) (newWord : bool) (ws : list string) : list string :=
  match ws with
  | w :: more => if newWord then String c EmptyString :: ws else String c w :: more
  | [] => [String c EmptyString]
  end.

Fixpoint words (s : string) : list string :=
  match s with
  | EmptyString => []
  | String c r =>
      if isWhiteSpace c then words r else consUnit c (atWordEnd r) (words r)
  end.

Fixpoint unwords (ws : list string) : string :=
  match ws with
  | [] => EmptyString
  | [w] => w
  | w :: more => w +:+ String " " (unwords more)
  end.

Definition keptUnit (c : ascii) : bool := isWordChar c || (code c =? 45).

Definition normalizePlate (s : string) : string :=
  trim (unwords (List.map (filter keptUnit) (words (toUpperCase s)))).


(** Order-preserving, first-seen-wins deduplication under a key, in the words
    of the specification: an element stays, and every later element with its
    key goes. *)
Fixpoint keepFirst {A : Type} (key : A -> string) (l : list A) : list A :=
  match l with
  | [] => []
  | x :: r => x :: List.filter (fun y => negb (String.eqb (key y) (key x))) (keepFirst key r)
  end.

End Spec.

(** ** Sample inputs used in the statements below *)

Module Samples.
Import DataHashService.

(** A batch whose only transfer carries an invalid date. *)
Definition invalidDateBatch : ProcessingData :=
  mkProcessingData 1
    (Some [mkTransfer (Some "ABC-123") (Some "Juan Perez") None (Some JsDate.Invalid)])
    (Some ["chat.txt"]) (Some "whatsapp") None.

(** Transfers of one vehicle to one driver that differ in the time only. *)
Definition transferAt (t : Z) : Transfer :=
  mkTransfer (Some "ABC-123") (Some "Juan Perez") None (Some (JsDate.Valid t)).

Definition batchOf (ts : list Transfer) : ProcessingData :=
  mkProcessingData 2 (Some ts) (Some ["chat.txt"]) (Some "whatsapp") None.

(** Monday 8 January 2024, 10:00 UTC, on a host whose local time is UTC, with
    empty collections and every collaborator up. *)
Definition mondayMorning : AlertService.World :=
  AlertService.mkWorld 1704708000000 (fun _ => 0) ∅ ∅ true true true [] [] [].

(** The same moment with the persistence collaborator down. *)
Definition mondayMorningOffline : AlertService.World :=
  AlertService.mkWorld 1704708000000 (fun _ => 0) ∅ ∅ false true true [] [] [].

(** Midnight (UTC) of Monday 8 January 2024 and of Sunday 7 January 2024. *)
Definition mondayMidnight : Z := 1704672000000.
Definition sundayMidnight : Z := 1704585600000.

(** A registry and a parsed transfer for the reconciler. *)
Definition sampleVehicles : list Reconciler.Vehicle :=
  [Reconciler.mkVehicle "v1" "ABC-123"; Reconciler.mkVehicle "v2" "DEF-789"].
Definition sampleDrivers : list Reconciler.Driver :=
  [Reconciler.mkDriver "d1" "Juan Perez"; Reconciler.mkDriver "d2" "Pedro Gomez"].

Definition parsedAt (dateTime : option JsDate.Date) (lineNumber : nat)
  : WhatsAppParser.ParsedTransfer :=
  WhatsAppParser.mkParsed
    (WhatsAppParser.mkCandidate "ABC-123" None "Juan Perez" 0 0.95%float)
    dateTime "le paso el carro ABC-123 a Juan Perez" lineNumber.


(** Monday 8 January 2024, 19:00 UTC, on the same host: a working day after
    the alert hour, nothing processed, no alert sent. *)
Definition mondayEvening : AlertService.World :=
  AlertService.mkWorld 1704740400000 (fun _ => 0) ∅ ∅ true true true [] [] [].


End Samples.


(** ** Notions used in the statements below *)

Module Props.
Import JsString WhatsAppParser.

(** A candidate as the extractor hands it on: a vehicle and a to-driver, a
    from-driver only from the hand-over pattern, a vehicle identifier made of
    cleaned units, and a score between the lowest base score and 1. *)
Definition wellFormed (c : Candidate) : Prop :=
  vehicleId c <> EmptyString /\ toDriver c <> EmptyString /\
  fromDriver c <> Some EmptyString /\
  (patternUsed c < 6)%nat /\
  (fromDriver c <> None -> patternUsed c = 4%nat) /\
  forallb Spec.cleanedChar (vehicleId c) = true /\
  PrimFloat.leb 0.7%float (confidence c) = true /\
  PrimFloat.leb (confidence c) 1%float = true.

(** A date-time of a parsed transfer: [null] or a valid date. *)
Definition nullOrValid (dateTime : option JsDate.Date) : Prop :=
  dateTime = None \/ exists t, dateTime = Some (JsDate.Valid t).

(** A text written with Windows line ends (a carriage return before every
    line feed) and with the line ends of the classic Mac OS (a carriage
    return in place of every line feed). *)
Fixpoint withCrLf (text : string) : string :=
  match text with
  | EmptyString => EmptyString
  | String c r =>
      if code c =? 10 then String (chr 13) (String c (withCrLf r))
      else String c (withCrLf r)
  end.

Fixpoint withCr (text : string) : string :=
  match text with
  | EmptyString => EmptyString
  | String c r => String (if code c =? 10 then chr 13 else c) (withCr r)
  end.

Definition noCr (c : ascii) : bool := negb (code c =? 13).

(** A string that does not start with white space. *)
Definition startsClean (s : string) : Prop :=
  match s with
  | EmptyString => True
  | String c _ => isWhiteSpace c = false
  end.

(** The key under which [findVehicleByIdentifier] compares a plate and an
    identifier: lower case, without white space and hyphens. *)
Definition plateKey (s : string) : string :=
  Reconciler.removeDashesAndSpaces (toLowerCase s).

(** The matches of a reconciled transfer are entries of the registry. *)
Definition registered (vehicles : list Reconciler.Vehicle) (drivers : list Reconciler.Driver)
  (r : Reconciler.ReconciledTransfer) : Prop :=
  (forall v, Reconciler.vehicleMatch r = Some v -> In v vehicles) /\
  (forall d, Reconciler.fromDriverMatch r = Some d -> In d drivers) /\
  (forall d, Reconciler.toDriverMatch r = Some d -> In d drivers).

End Props.



(** * Properties *)

(** ** Strings and numerals *)

Section StringFacts.
Import JsString JsNumber.

Lemma length_app (a b : string) :
  String.length (a +:+ b) = (String.length a + String.length b)%nat.
Proof. induction a as [|c a IH]; simpl; [reflexivity | now rewrite IH]. Qed.

Lemma forallb_app (p : ascii -> bool) (a b : string) :
  forallb p (a +:+ b) = forallb p a && forallb p b.
Proof.
  induction a as [|c a IH]; simpl; [reflexivity|].
  now rewrite IH, andb_assoc.
Qed.

Lemma length_repeat (c : ascii) (n : nat) : String.length (repeat c n) = n.
Proof. induction n; simpl; congruence. Qed.

Lemma forallb_repeat (p : ascii -> bool) (c : ascii) (n : nat) :
  p c = true -> forallb p (repeat c n) = true.
Proof. intros Hc. induction n; simpl; [reflexivity | now rewrite Hc]. Qed.

Lemma length_padStart (n : nat) (c : ascii) (s : string) :
  (String.length s <= n)%nat -> String.length (padStart n c s) = n.
Proof. intros H. unfold padStart. rewrite length_app, length_repeat. lia. Qed.

Lemma forallb_padStart (p : ascii -> bool) (n : nat) (c : ascii) (s : string) :
  p c = true -> forallb p s = true -> forallb p (padStart n c s) = true.
Proof.
  intros Hc Hs. unfold padStart.
  now rewrite forallb_app, forallb_repeat, Hs.
Qed.

Lemma code_range (c : ascii) : 0 <= code c < 256.
Proof.
  unfold code. pose proof (N_ascii_bounded c) as H. lia.
Qed.

Lemma hexDigit_hex (d : Z) : 0 <= d < 16 -> isHexLower (hexDigit d) = true.
Proof.
  intros H.
  assert (Hd : d = 0 \/ d = 1 \/ d = 2 \/ d = 3 \/ d = 4 \/ d = 5 \/ d = 6 \/ d = 7 \/
               d = 8 \/ d = 9 \/ d = 10 \/ d = 11 \/ d = 12 \/ d = 13 \/ d = 14 \/ d = 15)
    by lia.
  repeat (destruct Hd as [-> | Hd]; [reflexivity|]). now subst.
Qed.

Lemma toHexAux_hex (fuel : nat) : forall n acc,
  forallb isHexLower acc = true ->
  forallb isHexLower (toHexAux fuel n acc) = true.
Proof.
  induction fuel as [|f IH]; intros n acc Hacc; simpl; [assumption|].
  assert (Hd : isHexLower (hexDigit (n mod 16)) = true)
    by (apply hexDigit_hex, Z.mod_pos_bound; lia).
  destruct (n / 16 =? 0).
  - simpl. now rewrite Hd.
  - apply IH. simpl. now rewrite Hd.
Qed.

Lemma toHexAux_length (fuel : nat) : forall (k : nat) n acc,
  (0 < k)%nat -> 0 <= n < 16 ^ Z.of_nat k ->
  (String.length (toHexAux fuel n acc) <= String.length acc + k)%nat.
Proof.
  induction fuel as [|f IH]; intros k n acc Hk Hn; simpl; [lia|].
  destruct (n / 16 =? 0) eqn:Hq.
  - simpl. lia.
  - apply Z.eqb_neq in Hq.
    destruct k as [|[|k]]; [lia | |].
    + exfalso. apply Hq. apply Z.div_small. simpl in Hn. lia.
    + specialize (IH (S k) (n / 16) (String (hexDigit (n mod 16)) acc)).
      change (String.length (String (hexDigit (n mod 16)) acc))
        with (S (String.length acc)) in IH.
      assert (0 <= n / 16 < 16 ^ Z.of_nat (S k)).
      { split; [apply Z.div_pos; lia|].
        apply Z.div_lt_upper_bound; [lia|].
        replace (Z.of_nat (S (S k))) with (Z.of_nat (S k) + 1) in Hn by lia.
        rewrite Z.pow_add_r in Hn by lia. lia. }
      specialize (IH ltac:(lia) H). lia.
Qed.

Lemma toString16_padded (k : nat) (n : Z) :
  (0 < k)%nat -> 0 <= n < 16 ^ Z.of_nat k ->
  String.length (padStart k "0" (toString16 n)) = k /\
  forallb isHexLower (padStart k "0" (toString16 n)) = true.
Proof.
  intros Hk Hn. split.
  - apply length_padStart. unfold toString16.
    pose proof (toHexAux_length (S (Z.to_nat (Z.log2 n))) k n EmptyString Hk Hn) as H.
    change (String.length EmptyString) with 0%nat in H. lia.
  - apply forallb_padStart; [reflexivity|].
    unfold toString16. now apply toHexAux_hex.
Qed.

Lemma toInt32_range (x : Z) : - 2 ^ 31 <= toInt32 x < 2 ^ 31.
Proof.
  unfold toInt32.
  pose proof (Z.mod_pos_bound x (2 ^ 32) ltac:(lia)) as H.
  destruct (x mod 2 ^ 32 <? 2 ^ 31) eqn:E;
    [apply Z.ltb_lt in E | apply Z.ltb_ge in E]; lia.
Qed.

End StringFacts.

(** ** Sorting with a comparator *)

Section SortFacts.
Import Json.
Context {A : Type} (cmp : A -> A -> Z).

Let le (x y : A) : Prop := cmp x y <= 0.

Hypothesis cmp_total : forall x y, cmp x y <= 0 \/ cmp y x <= 0.
Hypothesis cmp_trans : forall x y z, cmp x y <= 0 -> cmp y z <= 0 -> cmp x z <= 0.

Lemma insertSorted_perm (x : A) (l : list A) : Permutation (insertSorted cmp x l) (x :: l).
Proof.
  induction l as [|y r IH]; simpl; [reflexivity|].
  destruct (0 <? cmp x y); [|reflexivity].
  rewrite IH. apply perm_swap.
Qed.

Lemma sortBy_perm (l : list A) : Permutation (sortBy cmp l) l.
Proof.
  induction l as [|x r IH]; simpl; [reflexivity|].
  rewrite insertSorted_perm. now constructor.
Qed.

Lemma insertSorted_sorted (x : A) (l : list A) :
  StronglySorted le l -> StronglySorted le (insertSorted cmp x l).
Proof.
  induction l as [|y r IH]; intros Hs; simpl.
  - constructor; constructor.
  - apply StronglySorted_inv in Hs as [Hr Hy].
    destruct (0 <? cmp x y) eqn:E.
    + apply Z.ltb_lt in E. constructor; [auto|].
      rewrite insertSorted_perm. constructor; [|assumption].
      destruct (cmp_total x y); [lia | assumption].
    + apply Z.ltb_ge in E. constructor; [now constructor|].
      constructor; [assumption|].
      eapply Forall_impl; [exact Hy|]. intros z Hz. now apply cmp_trans with y.
Qed.

Lemma sortBy_sorted (l : list A) : StronglySorted le (sortBy cmp l).
Proof.
  induction l as [|x r IH]; simpl; [constructor | now apply insertSorted_sorted].
Qed.

(** Two sorted arrangements of the same elements are the same list, when the
    comparator tells the elements apart. *)
Lemma sorted_perm_unique (l1 : list A) : forall l2,
  StronglySorted le l1 -> StronglySorted le l2 -> Permutation l1 l2 ->
  (forall x y, In x l1 -> In y l1 -> cmp x y <= 0 -> cmp y x <= 0 -> x = y) ->
  l1 = l2.
Proof.
  induction l1 as [|x r1 IH]; intros l2 H1 H2 Hp Hanti.
  - now apply Permutation_nil in Hp.
  - destruct l2 as [|y r2]; [apply Permutation_sym, Permutation_nil in Hp; discriminate|].
    apply StronglySorted_inv in H1 as [Hr1 Hx].
    apply StronglySorted_inv in H2 as [Hr2 Hy].
    assert (Hyin : In y (x :: r1)).
    { apply Permutation_in with (y :: r2); [now symmetry | now left]. }
    assert (Hxin : In x (y :: r2)).
    { apply Permutation_in with (x :: r1); [assumption | now left]. }
    assert (Hxy : cmp x y <= 0).
    { destruct Hyin as [<- | Hin]; [destruct (cmp_total x x); assumption|].
      rewrite Forall_forall in Hx. apply Hx. now apply list_elem_of_In. }
    assert (Hyx : cmp y x <= 0).
    { destruct Hxin as [<- | Hin]; [destruct (cmp_total y y); assumption|].
      rewrite Forall_forall in Hy. apply Hy. now apply list_elem_of_In. }
    assert (E : x = y) by (apply Hanti; [now left | assumption | assumption | assumption]).
    subst y. f_equal.
    apply IH; try assumption.
    + now apply Permutation_cons_inv with x.
    + intros a b Ha Hb. apply Hanti; now right.
Qed.

Lemma sortBy_perm_invariant (l1 l2 : list A) :
  Permutation l1 l2 ->
  (forall x y, In x l1 -> In y l1 -> cmp x y <= 0 -> cmp y x <= 0 -> x = y) ->
  sortBy cmp l1 = sortBy cmp l2.
Proof.
  intros Hp Hanti. apply sorted_perm_unique.
  - apply sortBy_sorted.
  - apply sortBy_sorted.
  - rewrite !sortBy_perm. exact Hp.
  - intros x y Hx Hy. apply Hanti.
    + apply Permutation_in with (sortBy cmp l1); [apply sortBy_perm | assumption].
    + apply Permutation_in with (sortBy cmp l1); [apply sortBy_perm | assumption].
Qed.

End SortFacts.

(** Code-unit order is a total order on strings. *)

Section UnitOrder.
Import JsString.

Lemma code_inj (x y : ascii) : code x = code y -> x = y.
Proof.
  unfold code. intros H. apply N2Z.inj in H.
  rewrite <- (ascii_N_embedding x), <- (ascii_N_embedding y). now rewrite H.
Qed.

Lemma compareUnits_total (a : string) : forall b,
  compareUnits a b <= 0 \/ compareUnits b a <= 0.
Proof.
  induction a as [|x a IH]; intros [|y b]; simpl; try lia.
  destruct (code x <? code y) eqn:E1, (code y <? code x) eqn:E2; try lia.
  apply IH.
Qed.

Lemma compareUnits_antisym (a : string) : forall b,
  compareUnits a b <= 0 -> compareUnits b a <= 0 -> a = b.
Proof.
  induction a as [|x a IH]; intros [|y b]; simpl; try lia; [reflexivity|].
  destruct (code x <? code y) eqn:E1, (code y <? code x) eqn:E2; try lia.
  apply Z.ltb_ge in E1, E2. intros H1 H2.
  f_equal; [apply code_inj; lia | now apply IH].
Qed.

Lemma compareUnits_trans (a : string) : forall b c,
  compareUnits a b <= 0 -> compareUnits b c <= 0 -> compareUnits a c <= 0.
Proof.
  induction a as [|x a IH]; intros [|y b] [|z c]; simpl; try lia.
  destruct (code x <? code y) eqn:E1, (code y <? code x) eqn:E1',
           (code y <? code z) eqn:E2, (code z <? code y) eqn:E2',
           (code x <? code z) eqn:E3, (code z <? code x) eqn:E3';
    try lia;
    repeat match goal with
           | H : (_ <? _) = true |- _ => apply Z.ltb_lt in H
           | H : (_ <? _) = false |- _ => apply Z.ltb_ge in H
           end; try lia.
  apply IH.
Qed.

End UnitOrder.

(** ** Calendar arithmetic *)

(** The two directions of the calendar conversion agree on every day from
    March 2015 to January 2025 (leap days of 2016, 2020 and 2024 included). *)
Example civil_round_trip :
  List.forallb
    (fun n => let day := Z.of_nat n + 16500 in
              let '(y, m, d) := JsDate.civilFromDays day in
              (JsDate.daysFromCivil y m d =? day) &&
              (1 <=? m) && (m <=? 12) && (1 <=? d) && (d <=? JsDate.daysInMonth y m))
    (seq 0 (60 * 60)) = true.
Proof. vm_compute. reflexivity. Qed.

Example toISOString_samples :
  JsDate.toISOString 0 = "1970-01-01T00:00:00.000Z" /\
  JsDate.toISOString 1709251199999 = "2024-02-29T23:59:59.999Z" /\
  JsDate.toISOString (-1) = "1969-12-31T23:59:59.999Z" /\
  JsDate.toISOString 253402300800000 = "+010000-01-01T00:00:00.000Z" /\
  JsDate.WeekDay 1704672000000 = 1.
Proof. vm_compute. repeat split. Qed.

(** ** The fingerprint engine *)

Lemma sortBy_two {A : Type} (cmp : A -> A -> Z) (x y : A) :
  cmp x y = 0 -> Json.sortBy cmp [x; y] = [x; y].
Proof. intros H. simpl. now rewrite H. Qed.

Section HashFacts.
Import JsString JsNumber DataHashService Samples.

Lemma hashLoop_range (str : string) : forall hash,
  - 2 ^ 31 <= hash < 2 ^ 31 -> - 2 ^ 31 <= hashLoop hash str < 2 ^ 31.
Proof.
  induction str as [|c r IH]; intros hash H; simpl; [assumption|].
  apply IH. unfold hashStep, and32. apply toInt32_range.
Qed.

Lemma sumLoop_nonneg (str : string) : forall sum, 0 <= sum -> 0 <= sumLoop sum str.
Proof.
  induction str as [|c r IH]; intros sum H; simpl; [assumption|].
  apply IH. pose proof (code_range c). lia.
Qed.

(** *** The test of [isValidHash], read off the matcher *)

Lemma matches_times_class (ranges : list (Z * Z)) (n : nat) : forall st : Regex.mstate,
  let ok := (n <=? String.length (Regex.rest st))%nat &&
            forallb (Regex.inRanges false ranges) (take n (Regex.rest st)) in
  (ok = true ->
   exists st', Regex.matches false (Regex.Times n (Regex.Class false ranges)) st = [st'] /\
               Regex.rest st' = drop n (Regex.rest st) /\ Regex.caps st' = Regex.caps st) /\
  (ok = false ->
   Regex.matches false (Regex.Times n (Regex.Class false ranges)) st = []).
Proof.
  induction n as [|n IH]; intros st ok; subst ok.
  - split; [|discriminate]. intros _. exists st. now destruct (Regex.rest st).
  - cbn [Regex.Times Regex.matches]. unfold Regex.step.
    destruct (Regex.rest st) as [|c r] eqn:Hrest; [split; [discriminate | reflexivity]|].
    cbn [String.length take forallb xorb].
    destruct (Regex.inRanges false ranges c) eqn:Hc.
    + cbn [flat_map]. rewrite app_nil_r.
      specialize (IH (Regex.mkState (Some c) r (Regex.caps st))).
      cbn [Regex.rest Regex.caps] in IH. cbn [andb].
      change (S n <=? S (String.length r))%nat with (n <=? String.length r)%nat.
      exact IH.
    + rewrite andb_false_r. split; [discriminate | reflexivity].
Qed.

Lemma search_anchored_after_start (r : Regex.regex) (text : string) : forall c idx,
  Regex.search false (Regex.Seq Regex.Bol r) (Some c) text idx = None.
Proof.
  induction text as [|x t IH]; intros c idx; cbn; [reflexivity | apply IH].
Qed.

Lemma inRanges_hex (c : ascii) :
  Regex.inRanges false [(48, 57); (97, 102)] c = isHexLower c.
Proof.
  unfold Regex.inRanges, isHexLower, isDigit. cbn [existsb fst snd andb].
  now rewrite !orb_false_r.
Qed.

Lemma forallb_ext (p q : ascii -> bool) (s : string) :
  (forall c, p c = q c) -> forallb p s = forallb q s.
Proof. intros H. induction s as [|c r IH]; simpl; [reflexivity | now rewrite H, IH]. Qed.

Lemma take_all (s : string) : take (String.length s) s = s.
Proof. induction s as [|c r IH]; simpl; congruence. Qed.

Lemma drop_empty (n : nat) (s : string) :
  (n <= String.length s)%nat -> (drop n s = EmptyString <-> String.length s = n).
Proof.
  revert s. induction n as [|n IH]; intros s Hn.
  - destruct s; simpl; split; congruence.
  - destruct s as [|c r]; simpl in *; [lia|].
    rewrite IH by lia. lia.
Qed.

Lemma forallb_take (p : ascii -> bool) (n : nat) (s : string) :
  forallb p s = true -> forallb p (take n s) = true.
Proof.
  revert s. induction n as [|n IH]; intros s H; [now destruct s|].
  destruct s as [|c r]; simpl in *; [reflexivity|].
  apply andb_true_iff in H as [-> Hr]. simpl. auto.
Qed.

(** The regular expression accepts the strings of ten lower-case
    hexadecimal digits and no others. *)
Lemma isValidHash_spec (hash : string) :
  isValidHash hash = (String.length hash =? 10)%nat && forallb isHexLower hash.
Proof.
  unfold isValidHash, Regex.exec, hashPattern.
  change (String.length hash <? 0)%nat with false. cbn [take drop Regex.lastUnit Regex.Seqs].
  destruct (matches_times_class [(48, 57); (97, 102)] 10 (Regex.mkState None hash []))
    as [Hyes Hno].
  cbn [Regex.rest Regex.caps] in Hyes, Hno.
  rewrite (forallb_ext _ isHexLower) in Hyes, Hno by apply inRanges_hex.
  assert (Hstart :
    Regex.matches false
      (Regex.Seq Regex.Bol
         (Regex.Seq (Regex.Times 10 (Regex.Class false [(48, 57); (97, 102)])) Regex.Eol))
      (Regex.mkState None hash [])
    = flat_map (Regex.matches false Regex.Eol)
        (Regex.matches false (Regex.Times 10 (Regex.Class false [(48, 57); (97, 102)]))
           (Regex.mkState None hash []))).
  { cbn [Regex.matches Regex.before flat_map]. now rewrite app_nil_r. }
  assert (Hlater :
    match hash with
    | EmptyString => None
    | String c t =>
        Regex.search false
          (Regex.Seq Regex.Bol
             (Regex.Seq (Regex.Times 10 (Regex.Class false [(48, 57); (97, 102)])) Regex.Eol))
          (Some c) t 1
    end = None).
  { destruct hash; [reflexivity | apply search_anchored_after_start]. }
  destruct ((10 <=? String.length hash)%nat && forallb isHexLower (take 10 hash)) eqn:Hok.
  - destruct (Hyes eq_refl) as (st' & Hm & Hrest & _).
    apply andb_true_iff in Hok as [Hlen Hhex]. apply Nat.leb_le in Hlen.
    destruct hash as [|c0 t0]; [simpl in Hlen; lia|].
    unfold Regex.search; fold Regex.search.
    rewrite Hstart, Hm. cbn [flat_map Regex.matches]. rewrite Hrest.
    destruct (drop 10 (String c0 t0)) as [|x xs] eqn:Hdrop.
    + apply drop_empty in Hdrop; [|assumption].
      cbn [app]. rewrite Hdrop, Nat.eqb_refl.
      rewrite <- Hdrop in Hhex at 1. rewrite take_all in Hhex. now rewrite Hhex.
    + cbn [app]. rewrite Hlater.
      assert (String.length (String c0 t0) <> 10%nat).
      { intros E. apply (drop_empty 10) in E; [congruence | assumption]. }
      apply Nat.eqb_neq in H. now rewrite H.
  - rewrite (Hno eq_refl) in Hstart.
    destruct hash as [|c0 t0].
    + reflexivity.
    + unfold Regex.search; fold Regex.search.
      rewrite Hstart. cbn [flat_map]. rewrite Hlater.
      symmetry. apply andb_false_iff.
      apply andb_false_iff in Hok as [Hlen | Hhex].
      * left. apply Nat.leb_gt in Hlen. apply Nat.eqb_neq. lia.
      * right. destruct (forallb isHexLower (String c0 t0)) eqn:E; [|reflexivity].
        now rewrite (forallb_take _ _ _ E) in Hhex.
Qed.

Lemma _calculateHash_valid (str : string) : isValidHash (_calculateHash str) = true.
Proof.
  rewrite isValidHash_spec. unfold _calculateHash, _calculateChecksum.
  pose proof (hashLoop_range str 5381 ltac:(lia)) as Hh.
  destruct (toString16_padded 8 (Z.abs (hashLoop 5381 str)) ltac:(lia)) as [L1 F1].
  { change (16 ^ Z.of_nat 8) with 4294967296. lia. }
  destruct (toString16_padded 2 (sumLoop 0 str mod 256) ltac:(lia)) as [L2 F2].
  { change (16 ^ Z.of_nat 2) with 256. apply Z.mod_pos_bound. lia. }
  rewrite length_app, forallb_app, L1, L2, F1, F2. reflexivity.
Qed.

(** [toString16] writes every digit: reading the numeral back gives the number. *)
Lemma toHexAux_value (fuel : nat) : forall n acc,
  0 <= n < 16 ^ Z.of_nat fuel ->
  fromHexAux 0 (toHexAux fuel n acc) = fromHexAux n acc.
Proof.
  induction fuel as [|f IH]; intros n acc Hn.
  - simpl in *. now replace n with 0 by lia.
  - cbn [toHexAux].
    assert (Hd : hexValue (hexDigit (n mod 16)) = n mod 16).
    { pose proof (Z.mod_pos_bound n 16 ltac:(lia)) as Hm.
      assert (Hc : n mod 16 = 0 \/ n mod 16 = 1 \/ n mod 16 = 2 \/ n mod 16 = 3 \/
                   n mod 16 = 4 \/ n mod 16 = 5 \/ n mod 16 = 6 \/ n mod 16 = 7 \/
                   n mod 16 = 8 \/ n mod 16 = 9 \/ n mod 16 = 10 \/ n mod 16 = 11 \/
                   n mod 16 = 12 \/ n mod 16 = 13 \/ n mod 16 = 14 \/ n mod 16 = 15)
        by lia.
      repeat (destruct Hc as [-> | Hc]; [reflexivity|]). now rewrite Hc. }
    pose proof (Z.div_mod n 16 ltac:(lia)) as Hdm.
    destruct (n / 16 =? 0) eqn:Hq.
    + apply Z.eqb_eq in Hq. cbn [fromHexAux]. rewrite Hd. f_equal. lia.
    + rewrite IH.
      * cbn [fromHexAux]. rewrite Hd. f_equal. lia.
      * split; [apply Z.div_pos; lia|].
        apply Z.div_lt_upper_bound; [lia|].
        replace (Z.of_nat (S f)) with (Z.of_nat f + 1) in Hn by lia.
        rewrite Z.pow_add_r in Hn by lia. lia.
Qed.

Lemma fromHexAux_zeros (n : nat) (s : string) :
  fromHexAux 0 (repeat "0" n +:+ s) = fromHexAux 0 s.
Proof. induction n as [|n IH]; [reflexivity | exact IH]. Qed.

Lemma toString16_value (k : nat) (n : Z) :
  0 <= n -> fromHex (padStart k "0" (toString16 n)) = n.
Proof.
  intros Hn. unfold fromHex, padStart. rewrite fromHexAux_zeros.
  unfold toString16. rewrite toHexAux_value; [reflexivity|].
  split; [assumption|].
  destruct (Z.eq_dec n 0) as [-> | Hz]; [reflexivity|].
  pose proof (Z.log2_nonneg n) as Hl.
  destruct (Z.log2_spec n ltac:(lia)) as [_ Hu].
  rewrite Nat2Z.inj_succ, Z2Nat.id by assumption.
  eapply Z.lt_le_trans; [exact Hu|].
  replace 16 with (2 ^ 4) by reflexivity.
  rewrite <- Z.pow_mul_r by lia.
  apply Z.pow_le_mono_r; lia.
Qed.

(** The digest is the 8-digit numeral of the absolute djb2 value followed by
    the 2-digit numeral of the checksum. *)
Lemma _calculateHash_parts (str : string) :
  exists hashStr checksum,
    _calculateHash str = hashStr +:+ checksum /\
    String.length hashStr = 8%nat /\ String.length checksum = 2%nat /\
    fromHex hashStr = Z.abs (hashLoop 5381 str) /\
    fromHex checksum = sumLoop 0 str mod 256.
Proof.
  pose proof (hashLoop_range str 5381 ltac:(lia)) as Hh.
  destruct (toString16_padded 8 (Z.abs (hashLoop 5381 str)) ltac:(lia)) as [L1 _].
  { change (16 ^ Z.of_nat 8) with 4294967296. lia. }
  destruct (toString16_padded 2 (sumLoop 0 str mod 256) ltac:(lia)) as [L2 _].
  { change (16 ^ Z.of_nat 2) with 256. apply Z.mod_pos_bound. lia. }
  eexists _, _. split; [reflexivity|].
  repeat split; try assumption.
  - apply toString16_value. lia.
  - apply toString16_value. apply Z.mod_pos_bound. lia.
Qed.

(** C10: every string generateDataHash returns, on the normal path and on the
    fallback path alike, is made of exactly ten lower-case hexadecimal digits,
    eight for the djb2 value and two for the checksum, so isValidHash accepts
    every digest the service produces. *)
Theorem C10_generateDataHash_isValidHash
  (localeCompare : string -> string -> Z) (host : Host) (data : ProcessingData) :
  (exists hashStr checksum,
     generateDataHash localeCompare host data = Ok (hashStr +:+ checksum) /\
     String.length hashStr = 8%nat /\ String.length checksum = 2%nat /\
     isValidHash (hashStr +:+ checksum) = true) /\
  isValidHash (_generateFallbackHash host) = true.
Proof.
  split; [|apply _calculateHash_valid].
  unfold generateDataHash.
  destruct (_normalizeData localeCompare data) as [normalizedData | e].
  - destruct (_calculateHash_parts (_serializeData normalizedData))
      as (hashStr & checksum & E & L1 & L2 & _).
    exists hashStr, checksum. rewrite <- E.
    repeat split; try assumption. apply _calculateHash_valid.
  - destruct (_calculateHash_parts
                ("fallback_" +:+ toString10 (now host) +:+ "_" +:+ random host))
      as (hashStr & checksum & E & L1 & L2 & _).
    exists hashStr, checksum. unfold _generateFallbackHash. rewrite <- E.
    repeat split; try assumption. apply _calculateHash_valid.
Qed.

(** *** The fallback digest *)

(** C1 (counterexample): on a batch with an invalid date normalisation throws,
    yet generateDataHash returns normally, and what it returns is the digest
    of "fallback_<Date.now()>_<random>": it changes with the clock. *)
Lemma C1_fallback_reached :
  _normalizeData compareUnits invalidDateBatch = Throw "RangeError: Invalid time value" /\
  generateDataHash compareUnits (mkHost 1700000000000 "4fzyo82mvyr") invalidDateBatch
    = Ok (_calculateHash "fallback_1700000000000_4fzyo82mvyr") /\
  generateDataHash compareUnits (mkHost 1700000000000 "4fzyo82mvyr") invalidDateBatch
    <> generateDataHash compareUnits (mkHost 1700000000001 "4fzyo82mvyr") invalidDateBatch /\
  ~ (exists e, generateDataHash compareUnits (mkHost 1700000000000 "4fzyo82mvyr")
                 invalidDateBatch = Throw e).
Proof.
  repeat split.
  - vm_compute. discriminate.
  - intros [e He]. vm_compute in He. discriminate.
Qed.

(** Normalisation throws exactly on the batches that list a transfer with an
    invalid date. *)
Lemma mapResult_normalizeTransfer_throws (l : list Transfer) :
  (exists e, mapResult normalizeTransfer l = Throw e) <->
  (exists t, In t l /\ dateTime t = Some JsDate.Invalid).
Proof.
  induction l as [|x r IH]; simpl.
  - split; [intros [e He]; discriminate | intros (t & [] & _)].
  - unfold normalizeTransfer at 1.
    destruct (dateTime x) as [[tv|]|] eqn:Hx.
    + destruct (mapResult normalizeTransfer r) as [ys|e'].
      * split; [intros [e He]; discriminate|].
        intros (t & [<- | Hin] & Ht); [congruence|].
        destruct IH as [_ IH]. destruct IH as [e He]; [eauto | discriminate].
      * split; [|eauto]. intros _. destruct IH as [IH _].
        destruct IH as (t & Hin & Ht); eauto.
    + split; [|eauto]. intros _. eauto.
    + destruct (mapResult normalizeTransfer r) as [ys|e'].
      * split; [intros [e He]; discriminate|].
        intros (t & [<- | Hin] & Ht); [congruence|].
        destruct IH as [_ IH]. destruct IH as [e He]; [eauto | discriminate].
      * split; [|eauto]. intros _. destruct IH as [IH _].
        destruct IH as (t & Hin & Ht); eauto.
Qed.

Lemma _normalizeData_throws (localeCompare : string -> string -> Z) (data : ProcessingData) :
  (exists e, _normalizeData localeCompare data = Throw e) <->
  (exists ts t, transfers data = Some ts /\ In t ts /\ dateTime t = Some JsDate.Invalid).
Proof.
  unfold _normalizeData, _normalizeTransfers.
  destruct (transfers data) as [ts|].
  - pose proof (mapResult_normalizeTransfer_throws ts) as [Hthrow Hinv].
    destruct (mapResult normalizeTransfer ts) as [mapped|e'].
    + split.
      * intros [e He]. discriminate.
      * intros (ts' & t & E & Hin & Ht). injection E as <-.
        destruct Hinv as [e He]; [eauto | discriminate].
    + split; [|eauto]. intros _.
      destruct Hthrow as (t & Hin & Ht); eauto.
  - split; [intros [e He]; discriminate | intros (ts & t & E & _); discriminate].
Qed.

(** C1 (amended): on every batch that lists a transfer with an invalid date
    normalisation throws, and generateDataHash catches the error and returns
    the fallback digest computed from Date.now() and Math.random(); no error
    leaves the method. *)
Theorem C1_throw_yields_fallback
  (localeCompare : string -> string -> Z) (host : Host) (data : ProcessingData)
  (ts : list Transfer) (t : Transfer) :
  transfers data = Some ts -> In t ts -> dateTime t = Some JsDate.Invalid ->
  (exists e, _normalizeData localeCompare data = Throw e) /\
  generateDataHash localeCompare host data = Ok (_generateFallbackHash host).
Proof.
  intros Hts Hin Ht.
  assert (H : exists e, _normalizeData localeCompare data = Throw e)
    by (apply _normalizeData_throws; eauto).
  split; [exact H|].
  destruct H as [e He]. unfold generateDataHash. now rewrite He.
Qed.

(** The statement above at the sample batch. *)
Lemma C1_throw_yields_fallback_witness :
  (exists e, _normalizeData compareUnits invalidDateBatch = Throw e) /\
  generateDataHash compareUnits (mkHost 0 "x") invalidDateBatch
    = Ok (_generateFallbackHash (mkHost 0 "x")).
Proof.
  apply (C1_throw_yields_fallback compareUnits (mkHost 0 "x") invalidDateBatch
           [mkTransfer (Some "ABC-123") (Some "Juan Perez") None (Some JsDate.Invalid)]
           (mkTransfer (Some "ABC-123") (Some "Juan Perez") None (Some JsDate.Invalid))).
  - reflexivity.
  - left. reflexivity.
  - reflexivity.
Defined.


(** *** Order of transfers that share a sort key *)

(** C2 (evaluation at the failing input): two batches with the same two
    transfers, which share vehicle, to-driver and from-driver and differ in
    dateTime, listed in opposite orders.  The comparator sees equal keys, the
    stable sort keeps the input order, and the two digests differ. *)
Theorem C2_equal_keys_keep_input_order (localeCompare : string -> string -> Z) (host : Host) :
  localeCompare "abc-123-juan perez-" "abc-123-juan perez-" = 0 ->
  Permutation [transferAt 1704450600000; transferAt 1704537000000]
              [transferAt 1704537000000; transferAt 1704450600000] /\
  generateDataHash localeCompare host
    (batchOf [transferAt 1704450600000; transferAt 1704537000000]) = Ok "1981a0e774" /\
  generateDataHash localeCompare host
    (batchOf [transferAt 1704537000000; transferAt 1704450600000]) = Ok "448e2fd974".
Proof.
  intros H. split; [apply perm_swap|].
  unfold generateDataHash, _normalizeData, _normalizeTransfers, batchOf.
  cbn [transfers].
  split.
  - destruct (mapResult normalizeTransfer _) as [mapped | e] eqn:E;
      vm_compute in E; [|discriminate].
    injection E as <-.
    rewrite sortBy_two by (vm_compute; exact H).
    vm_compute. reflexivity.
  - destruct (mapResult normalizeTransfer _) as [mapped | e] eqn:E;
      vm_compute in E; [|discriminate].
    injection E as <-.
    rewrite sortBy_two by (vm_compute; exact H).
    vm_compute. reflexivity.
Qed.

(** The statement above for the code-unit order: the two digests differ. *)
Lemma C2_equal_keys_keep_input_order_witness :
  compareUnits "abc-123-juan perez-" "abc-123-juan perez-" = 0 /\
  generateDataHash compareUnits (mkHost 0 "x")
    (batchOf [transferAt 1704450600000; transferAt 1704537000000])
  <> generateDataHash compareUnits (mkHost 0 "x")
    (batchOf [transferAt 1704537000000; transferAt 1704450600000]).
Proof.
  split; [reflexivity|].
  destruct (C2_equal_keys_keep_input_order compareUnits (mkHost 0 "x") eq_refl)
    as (_ & -> & ->).
  discriminate.
Defined.

(** *** Where the digest does not depend on the order *)

Section OrderIndependence.

(** A collation that orders the keys totally. *)
Variable localeCompare : string -> string -> Z.
Hypothesis localeCompare_total :
  forall a b, localeCompare a b <= 0 \/ localeCompare b a <= 0.
Hypothesis localeCompare_trans :
  forall a b c, localeCompare a b <= 0 -> localeCompare b c <= 0 -> localeCompare a c <= 0.

Lemma mapResult_perm {A B : Type} (f : A -> result B) (l1 l2 : list A) :
  Permutation l1 l2 ->
  match mapResult f l1, mapResult f l2 with
  | Ok a, Ok b => Permutation a b
  | Throw _, Throw _ => True
  | _, _ => False
  end.
Proof.
  induction 1 as [| x l l' _ IH | x y l | l l' l'' _ IH1 _ IH2]; simpl.
  - constructor.
  - destruct (f x); [|exact I].
    destruct (mapResult f l), (mapResult f l'); try exact IH. now constructor.
  - destruct (f x), (f y); try exact I.
    destruct (mapResult f l); [apply perm_swap | exact I].
  - destruct (mapResult f l) as [a|], (mapResult f l') as [b|], (mapResult f l'') as [c|];
      try exact I; try contradiction.
    now transitivity b.
Qed.

Lemma filter_perm {A : Type} (p : A -> bool) (l1 l2 : list A) :
  Permutation l1 l2 -> Permutation (List.filter p l1) (List.filter p l2).
Proof.
  induction 1 as [| x l l' _ IH | x y l | l l' l'' _ IH1 _ IH2]; simpl.
  - constructor.
  - destruct (p x); [now constructor | assumption].
  - destruct (p x), (p y); try reflexivity. apply perm_swap.
  - now transitivity (List.filter p l').
Qed.

(** The file list is normalised to the same list whatever its order. *)
Lemma _normalizeFilesList_perm (files1 files2 : list string) :
  Permutation files1 files2 ->
  _normalizeFilesList (Some files1) = _normalizeFilesList (Some files2).
Proof.
  intros Hp. unfold _normalizeFilesList.
  apply sortBy_perm_invariant.
  - apply compareUnits_total.
  - apply compareUnits_trans.
  - apply filter_perm, Permutation_map, Hp.
  - intros x y _ _. apply compareUnits_antisym.
Qed.

(** Transfers with pairwise different sort keys: the digest is the same for
    every order of the transfers and of the files.  The hypothesis on the keys
    is what the comparator of [_normalizeTransfers] needs; [dateTime] is not
    part of the key. *)
Theorem generateDataHash_perm_distinct_keys (host : Host) (count : Z)
  (transfers1 transfers2 : list Transfer) (files1 files2 : list string)
  (source department : option string) :
  Permutation transfers1 transfers2 ->
  Permutation files1 files2 ->
  (forall mapped x y,
     mapResult normalizeTransfer transfers1 = Ok mapped ->
     In x mapped -> In y mapped ->
     localeCompare (sortKey x) (sortKey y) <= 0 ->
     localeCompare (sortKey y) (sortKey x) <= 0 -> x = y) ->
  generateDataHash localeCompare host
    (mkProcessingData count (Some transfers1) (Some files1) source department)
  = generateDataHash localeCompare host
    (mkProcessingData count (Some transfers2) (Some files2) source department).
Proof.
  intros Hts Hfs Hkeys.
  unfold generateDataHash, _normalizeData, _normalizeTransfers.
  cbn [transfers filesProcessed transfersCount DataHashService.source
       DataHashService.department].
  rewrite (_normalizeFilesList_perm files1 files2 Hfs).
  pose proof (mapResult_perm normalizeTransfer _ _ Hts) as Hm.
  destruct (mapResult normalizeTransfer transfers1) as [m1|e1],
           (mapResult normalizeTransfer transfers2) as [m2|e2];
    try contradiction; [|reflexivity].
  rewrite (sortBy_perm_invariant _ (fun a b => localeCompare_total _ _)
             (fun a b c => localeCompare_trans _ _ _) m1 m2 Hm).
  - reflexivity.
  - intros x y. now apply Hkeys.
Qed.

End OrderIndependence.

End HashFacts.

(** ** Reconciliation and manual override *)

Section ReconcilerFacts.
Import Reconciler.
Variable vehicles : list Vehicle.
Variable drivers : list Driver.

Lemma validityDerived_iff (t : ReconciledTransfer) :
  validityDerived t ->
  (isValid t = true <-> vehicleMatch t <> None /\ toDriverMatch t <> None).
Proof.
  unfold validityDerived. intros ->.
  destruct (vehicleMatch t), (toDriverMatch t); simpl; intuition congruence.
Qed.

Lemma enrichTransfers_derived (transfers : list WhatsAppParser.ParsedTransfer) :
  Forall validityDerived (enrichTransfers vehicles drivers transfers).
Proof.
  unfold enrichTransfers.
  induction transfers as [|p ps IH]; simpl; constructor; [reflexivity | exact IH].
Qed.

Lemma overrideMatch_derived (type : MatchType) (selectedId : string) (t : ReconciledTransfer) :
  validityDerived (overrideMatch vehicles drivers type selectedId t).
Proof. reflexivity. Qed.

Lemma handleManualMatch_derived ts (i : nat) (type : MatchType) (selectedId : string) :
  Forall validityDerived ts ->
  Forall validityDerived (handleManualMatch vehicles drivers ts i type selectedId).
Proof.
  intros H. unfold handleManualMatch.
  destruct (ts !! i) as [t|]; [|assumption].
  apply Forall_insert; [assumption | apply overrideMatch_derived].
Qed.

Lemma applyOverrides_derived (ops : list (nat * MatchType * string)) : forall ts,
  Forall validityDerived ts ->
  Forall validityDerived (applyOverrides vehicles drivers ops ts).
Proof.
  unfold applyOverrides.
  induction ops as [|[[i type] selectedId] ops IH]; intros ts H; simpl; [assumption|].
  apply IH. now apply handleManualMatch_derived.
Qed.

Lemma fromDriver_override_keeps_validity ts (i j : nat) (selectedId : string) :
  Forall validityDerived ts ->
  isValid <$> (handleManualMatch vehicles drivers ts i OfFromDriver selectedId !! j)
  = isValid <$> (ts !! j).
Proof.
  intros H. unfold handleManualMatch.
  destruct (ts !! i) as [t|] eqn:Hi; [|reflexivity].
  destruct (decide (i = j)) as [<- | Hne].
  - rewrite list_lookup_insert_eq by (eapply lookup_lt_Some; eassumption).
    rewrite Hi. simpl. f_equal.
    symmetry. exact (Forall_lookup_1 _ _ _ _ H Hi).
  - now rewrite list_lookup_insert_ne.
Qed.

End ReconcilerFacts.

(** The sample transfer against the sample registry: resolved at
    construction, invalid after a vehicle override with an unknown id,
    unchanged by a from-driver override. *)
Example reconcile_sample :
  let ts := Reconciler.enrichTransfers Samples.sampleVehicles Samples.sampleDrivers
              [Samples.parsedAt None 1] in
  List.map Reconciler.isValid ts = [true] /\
  List.map Reconciler.isValid
    (Reconciler.handleManualMatch Samples.sampleVehicles Samples.sampleDrivers
       ts 0 Reconciler.OfVehicle "v9") = [false] /\
  List.map Reconciler.isValid
    (Reconciler.handleManualMatch Samples.sampleVehicles Samples.sampleDrivers
       ts 0 Reconciler.OfFromDriver "d9") = [true].
Proof. vm_compute. repeat split. Qed.

(** C7: at construction by enrichTransfers and after any sequence of manual
    overrides (on vehicle, fromDriver or toDriver), isValid holds exactly when
    vehicleMatch and toDriverMatch are both resolved; an override of
    fromDriver changes the validity of no transfer. *)
Theorem C7_isValid_iff_vehicle_and_toDriver
  (vehicles : list Reconciler.Vehicle) (drivers : list Reconciler.Driver)
  (transfers : list WhatsAppParser.ParsedTransfer)
  (ops : list (nat * Reconciler.MatchType * string)) :
  let ts := Reconciler.applyOverrides vehicles drivers ops
              (Reconciler.enrichTransfers vehicles drivers transfers) in
  Forall (fun t => Reconciler.isValid t = true <->
                   Reconciler.vehicleMatch t <> None /\ Reconciler.toDriverMatch t <> None) ts /\
  forall (i j : nat) (selectedId : string),
    Reconciler.isValid <$>
      (Reconciler.handleManualMatch vehicles drivers ts i Reconciler.OfFromDriver selectedId !! j)
    = Reconciler.isValid <$> (ts !! j).
Proof.
  intros ts.
  assert (H : Forall Reconciler.validityDerived ts).
  { apply applyOverrides_derived, enrichTransfers_derived. }
  split.
  - eapply Forall_impl; [exact H|]. intros t. apply validityDerived_iff.
  - intros i j selectedId. now apply fromDriver_override_keeps_validity.
Qed.

(** ** The daily-processing ledger and the alert scheduler *)

Section AlertFacts.
Import AlertService Samples.

Lemma ceilDiv_ge_1 (a b : Z) : 0 < b -> (1 <=? ceilDiv a b) = (0 <? a).
Proof.
  intros Hb. unfold ceilDiv.
  destruct (0 <? a) eqn:Ha.
  - apply Z.ltb_lt in Ha. apply Z.leb_le.
    assert (- a / b < 0) by (apply Z.div_lt_upper_bound; lia). lia.
  - apply Z.ltb_ge in Ha. apply Z.leb_gt.
    assert (0 <= - a / b) by (apply Z.div_pos; lia). lia.
Qed.

Lemma existsb_eqb_In (x : Z) (l : list Z) : existsb (Z.eqb x) l = true <-> In x l.
Proof.
  rewrite existsb_exists. split.
  - intros (y & Hy & E). apply Z.eqb_eq in E. now subst.
  - intros H. exists x. split; [assumption | apply Z.eqb_refl].
Qed.

(** The condition [_shouldSendAlert] computes. *)
Lemma _shouldSendAlert_run (t : Z) (w : World) :
  _shouldSendAlert t w =
  (Ok (existsb (Z.eqb (getDay w t)) ALERT_DAYS && (0 <? clock w - t)), w).
Proof.
  unfold _shouldSendAlert, bind, get, ret.
  now rewrite ceilDiv_ge_1 by lia.
Qed.

Lemma latest_None (docs : list (string * ProcessingRecord)) :
  latest docs = None <-> docs = [].
Proof.
  unfold latest. destruct docs as [|d r]; [now split|].
  split; [|discriminate]. cbn [fold_right].
  destruct (fold_right _ None r) as [b|]; [destruct (newer d b)|]; discriminate.
Qed.

(** [checkDailyProcessing] with the ledger reachable. *)
Lemma checkDailyProcessing_run (t : Z) (w : World) :
  persistenceUp w = true ->
  checkDailyProcessing (JsDate.Valid t) w =
  (Ok match latest (recordsFor (_formatDateString t) w) with
      | None =>
          mkCheck false None
            (existsb (Z.eqb (getDay w t)) ALERT_DAYS && (0 <? clock w - t)) None
      | Some last => mkCheck true (Some last) false None
      end, w).
Proof.
  intros Hup.
  unfold checkDailyProcessing, tryCatch, bind, _validateDate, ret, queryDailyProcessing.
  rewrite Hup.
  destruct (latest _) as [last|]; [reflexivity|].
  now rewrite _shouldSendAlert_run.
Qed.

(** [checkDailyProcessing] on the error path. *)
Lemma checkDailyProcessing_error (date : JsDate.Date) (w : World) :
  date = JsDate.Invalid \/ persistenceUp w = false ->
  exists e, checkDailyProcessing date w = (Ok (mkCheck false None true (Some e)), w).
Proof.
  intros H.
  unfold checkDailyProcessing, tryCatch, bind, _validateDate, ret, throw,
    queryDailyProcessing.
  destruct date as [t|]; [|eexists; reflexivity].
  destruct H as [H | H]; [discriminate|].
  rewrite H. eexists; reflexivity.
Qed.

(** C5 (counterexample): (1) on Monday 8 January 2024 at 10:00 the unprocessed
    date of that same Monday, 00:00, is flagged although it lies on the current
    calendar day, ten hours back; (2) with the ledger unreachable a Sunday is
    flagged, although Sunday is not in ALERT_DAYS. *)
Lemma C5_same_day_and_error_path_flagged :
  (fst (checkDailyProcessing (JsDate.Valid mondayMidnight) mondayMorning)
     = Ok (mkCheck false None true None) /\
   _formatDateString mondayMidnight = _formatDateString (clock mondayMorning) /\
   clock mondayMorning - mondayMidnight < JsDate.msPerDay) /\
  (fst (checkDailyProcessing (JsDate.Valid sundayMidnight) mondayMorningOffline)
     = Ok (mkCheck false None true (Some unavailable)) /\
   getDay mondayMorningOffline sundayMidnight = 0 /\
   ~ In 0 ALERT_DAYS).
Proof.
  repeat split; try (vm_compute; reflexivity).
  vm_compute. intuition discriminate.
Qed.

(** C5 (amended): checkDailyProcessing always answers.  On its normal path
    the date counts as processed when the ledger holds a record for it, and
    shouldAlert is true exactly when the date is unprocessed, its local day of
    the week is in ALERT_DAYS and the date is earlier than now, by any amount
    (so an earlier moment of the current day is flagged); on its error path
    (invalid date, ledger unreachable) shouldAlert is true whatever the day. *)
Theorem C5_shouldAlert_characterised (w : World) (date : JsDate.Date) :
  exists check,
    checkDailyProcessing date w = (Ok check, w) /\
    (error check <> None <-> (date = JsDate.Invalid \/ persistenceUp w = false)) /\
    (processed check = true <->
       exists t, date = JsDate.Valid t /\ persistenceUp w = true /\
                 recordsFor (_formatDateString t) w <> []) /\
    (shouldAlert check = true <->
       (date = JsDate.Invalid \/ persistenceUp w = false) \/
       (exists t, date = JsDate.Valid t /\ processed check = false /\
                  In (getDay w t) ALERT_DAYS /\ t < clock w)).
Proof.
  destruct date as [t|].
  - destruct (persistenceUp w) eqn:Hup.
    + rewrite checkDailyProcessing_run by assumption.
      eexists. split; [reflexivity|].
      pose proof (latest_None (recordsFor (_formatDateString t) w)) as Hnone.
      destruct (latest _) as [last|]; cbn [error shouldAlert processed].
      * split; [intuition congruence|].
        split.
        { split; [|reflexivity]. intros _. exists t. repeat split.
          intros E. apply Hnone in E. discriminate. }
        split; [discriminate|].
        intros [[H | H] | (t' & _ & H & _)]; discriminate.
      * split; [intuition congruence|].
        split.
        { split; [discriminate|]. intros (t' & E & _ & Hrec). injection E as <-.
          exfalso. apply Hrec. now apply Hnone. }
        rewrite andb_true_iff, existsb_eqb_In, Z.ltb_lt.
        split.
        -- intros [Hd Hlt]. right. exists t. repeat split; [assumption | lia].
        -- intros [[H | H] | (t' & E & _ & Hd & Hlt)]; try discriminate.
           injection E as <-. split; [assumption | lia].
    + destruct (checkDailyProcessing_error (JsDate.Valid t) w) as [e He]; [now right|].
      rewrite He. eexists. split; [reflexivity|]. cbn [error shouldAlert processed].
      split; [split; auto; discriminate|].
      split; [|split; auto; discriminate].
      split; [discriminate|]. intros (t' & _ & H & _). discriminate.
  - destruct (checkDailyProcessing_error JsDate.Invalid w) as [e He]; [now left|].
    rewrite He. eexists. split; [reflexivity|]. cbn [error shouldAlert processed].
    split; [split; auto; discriminate|].
    split; [|split; auto; discriminate].
    split; [discriminate|]. intros (t' & H & _). discriminate.
Qed.

(** *** One alert per date *)

Lemma sameLedger_trans (a b c : World) : sameLedger a b -> sameLedger b c -> sameLedger a c.
Proof.
  unfold sameLedger. intros (? & ? & ? & ? & ?) (? & ? & ? & ? & ?).
  repeat split; congruence.
Qed.

Lemma _validateEmailData_world (emailData : EmailData) (w : World) :
  snd (_validateEmailData emailData w) = w.
Proof.
  unfold _validateEmailData, throw, ret.
  repeat (destruct (String.eqb _ _); [reflexivity|]).
  destruct (Regex.exec _ _ _ _); [|reflexivity].
  destruct (existsb _ _); reflexivity.
Qed.

(** What the notification collaborator leaves untouched. *)
Lemma _saveForManualSending_run (emailData : EmailData) (w : World) :
  exists w', _saveForManualSending emailData w = (Ok tt, w') /\ sameLedger w w' /\
             dispatched w' = dispatched w.
Proof.
  unfold _saveForManualSending, tryCatch, setPendingEmail, ret.
  destruct (persistenceUp w) eqn:Hup; eexists; (split; [reflexivity|]);
    repeat split; cbn; congruence.
Qed.

(** [sendAlert] never throws, notes one dispatch and leaves the ledger alone. *)
Lemma sendAlert_run (emailData : EmailData) (w : World) :
  exists success w', sendAlert emailData w = (Ok success, w') /\ sameLedger w w' /\
                     dispatched w' = (dispatched w ++ [emailData])%list.
Proof.
  unfold sendAlert, bind, noteDispatch, tryCatch.
  set (w0 := mkWorld _ _ _ _ _ _ _ _ _ _).
  assert (F0 : sameLedger w w0 /\ dispatched w0 = (dispatched w ++ [emailData])%list)
    by now repeat split.
  destruct F0 as [F0 D0].
  pose proof (_validateEmailData_world emailData w0) as Hv.
  destruct (_validateEmailData emailData w0) as [[[]|e] wv]; simpl in Hv; subst wv.
  - unfold get. destruct (emailConfigured w0) eqn:Hc.
    + unfold _sendViaEmailJS. destruct (emailJsUp w0) eqn:Hj.
      * eexists _, _. split; [reflexivity|]. split; [|exact D0].
        destruct F0 as (? & ? & ? & ? & ?). now repeat split.
      * destruct (_saveForManualSending_run emailData w0) as (w' & -> & F & D).
        eexists _, _. split; [reflexivity|]. split; [|congruence].
        exact (sameLedger_trans _ _ _ F0 F).
    + destruct (_saveForManualSending_run emailData w0) as (w' & -> & F & D).
      eexists _, _. split; [reflexivity|]. split; [|congruence].
      exact (sameLedger_trans _ _ _ F0 F).
  - destruct (_saveForManualSending_run emailData w0) as (w' & -> & F & D).
    eexists _, _. split; [reflexivity|]. split; [|congruence].
    exact (sameLedger_trans _ _ _ F0 F).
Qed.

(** The first alert for a date: one dispatch, then the record. *)
Lemma sendDailyAlert_fresh (t : Z) (w : World) :
  persistenceUp w = true ->
  alertDocs (_formatDateString t) DAILY_PROCESSING w = ∅ ->
  exists w' emailData,
    sendDailyAlert (JsDate.Valid t) w = (Ok true, w') /\
    clock w' = clock w /\ localTZA w' = localTZA w /\
    daily_processing w' = daily_processing w /\ persistenceUp w' = true /\
    sent_alerts w' =
      <["daily_" +:+ _formatDateString t :=
          mkAlertRecord (_formatDateString t) DAILY_PROCESSING (clock w) ADMIN_EMAIL]>
        (sent_alerts w) /\
    dispatched w' = (dispatched w ++ [emailData])%list.
Proof.
  intros Hup Hnone.
  unfold sendDailyAlert, tryCatch, bind, _validateDate, ret, _checkAlertSent,
    tryCatch, bind, querySentAlertsEmpty, ret.
  rewrite Hup, bool_decide_eq_true_2 by assumption. cbn [negb].
  unfold _buildAlertEmailData, bind, get, ret.
  match goal with |- context [sendAlert ?e w] =>
    destruct (sendAlert_run e w) as (success & w1 & -> & (Hc & Hz & Hd & Hs & Hp) & Hdisp)
  end.
  unfold _recordAlertSent, tryCatch, bind, get, setSentAlert.
  rewrite Hp, Hup.
  eexists _, _. split; [reflexivity|]. cbn.
  rewrite Hc, Hs. repeat split; try assumption. exact Hdisp.
Qed.

(** A later alert for the same date: the record is found, nothing is sent. *)
Lemma sendDailyAlert_already (t : Z) (w : World) :
  persistenceUp w = true ->
  alertDocs (_formatDateString t) DAILY_PROCESSING w <> ∅ ->
  sendDailyAlert (JsDate.Valid t) w = (Ok false, w).
Proof.
  intros Hup Hsome.
  unfold sendDailyAlert, tryCatch, bind, _validateDate, ret, _checkAlertSent,
    tryCatch, bind, querySentAlertsEmpty, ret.
  now rewrite Hup, bool_decide_eq_false_2 by assumption.
Qed.

Lemma isAlertFor_own (dateStr type : string) (sentAt : Z) (recipient : string) :
  isAlertFor dateStr type (mkAlertRecord dateStr type sentAt recipient) = true.
Proof. unfold isAlertFor. cbn. now rewrite !String.eqb_refl. Qed.

(** C3: for a date that is unprocessed and alertable, with the persistence
    collaborator up and no SentAlertRecord for the date yet, two alert checks
    in a row (any time apart) dispatch exactly one notification and leave
    exactly one SentAlertRecord for (date, daily_processing): the first check
    sends and records, the second finds the record and returns false.  The
    same holds for two calls of sendDailyAlert itself. *)
Theorem C3_two_checks_one_alert (w : World) (t d : Z) :
  persistenceUp w = true ->
  0 <= d ->
  (exists check, fst (checkDailyProcessing (JsDate.Valid t) w) = Ok check /\
                 processed check = false /\ shouldAlert check = true) ->
  alertDocs (_formatDateString t) DAILY_PROCESSING w = ∅ ->
  exists w1 emailData,
    _checkAndSendForDate (JsDate.Valid t) w = (Ok true, w1) /\
    sendDailyAlert (JsDate.Valid t) w = (Ok true, w1) /\
    _checkAndSendForDate (JsDate.Valid t) (advance d w1) = (Ok false, advance d w1) /\
    sendDailyAlert (JsDate.Valid t) (advance d w1) = (Ok false, advance d w1) /\
    dispatched (advance d w1) = (dispatched w ++ [emailData])%list /\
    size (alertDocs (_formatDateString t) DAILY_PROCESSING (advance d w1)) = 1%nat.
Proof.
  intros Hup Hd (check & Hcheck & Hproc & Halert) Hnone.
  rewrite checkDailyProcessing_run in Hcheck by assumption.
  cbn [fst] in Hcheck. injection Hcheck as <-.
  destruct (latest _) as [last|] eqn:Hlatest; [discriminate|].
  cbn [shouldAlert] in Halert.
  apply andb_true_iff in Halert as [Hday Hpast]. apply Z.ltb_lt in Hpast.
  change (existsb (Z.eqb (getDay w t)) ALERT_DAYS = true) in Hday.
  destruct (sendDailyAlert_fresh t w Hup Hnone)
    as (w1 & emailData & Hsend & Hc & Hz & Hdp & Hp & Hsa & Hdisp).
  assert (Hsome : alertDocs (_formatDateString t) DAILY_PROCESSING (advance d w1)
                  = {[ "daily_" +:+ _formatDateString t :=
                         mkAlertRecord (_formatDateString t) DAILY_PROCESSING
                           (clock w) ADMIN_EMAIL ]}).
  { unfold alertDocs. cbn [advance sent_alerts]. rewrite Hsa.
    rewrite map_filter_insert_True by apply isAlertFor_own.
    fold (alertDocs (_formatDateString t) DAILY_PROCESSING w).
    now rewrite Hnone, insert_empty. }
  assert (Hagain : sendDailyAlert (JsDate.Valid t) (advance d w1)
                   = (Ok false, advance d w1)).
  { apply sendDailyAlert_already; [cbn; assumption|].
    rewrite Hsome. apply map_non_empty_singleton. }
  exists w1, emailData. repeat split.
  - unfold _checkAndSendForDate, bind.
    rewrite checkDailyProcessing_run, Hlatest, Hday by assumption.
    replace (0 <? clock w - t) with true by (symmetry; apply Z.ltb_lt; lia).
    exact Hsend.
  - exact Hsend.
  - unfold _checkAndSendForDate, bind.
    rewrite checkDailyProcessing_run by (cbn; assumption).
    assert (Hg : getDay (advance d w1) t = getDay w t)
      by (unfold getDay; cbn [advance localTZA]; now rewrite Hz).
    assert (Hl : recordsFor (_formatDateString t) (advance d w1)
                 = recordsFor (_formatDateString t) w)
      by (unfold recordsFor; cbn [advance daily_processing]; now rewrite Hdp).
    rewrite Hg, Hl, Hlatest, Hday.
    replace (0 <? clock (advance d w1) - t) with true
      by (symmetry; apply Z.ltb_lt; cbn [advance clock]; lia).
    cbn [processed shouldAlert negb andb].
    exact Hagain.
  - exact Hagain.
  - exact Hdisp.
  - rewrite Hsome. apply map_size_singleton.
Qed.

(** The statement above on Monday 8 January 2024, the second check an hour
    after the first. *)
Lemma C3_two_checks_one_alert_witness :
  exists w1 emailData,
    _checkAndSendForDate (JsDate.Valid mondayMidnight) mondayMorning = (Ok true, w1) /\
    sendDailyAlert (JsDate.Valid mondayMidnight) mondayMorning = (Ok true, w1) /\
    _checkAndSendForDate (JsDate.Valid mondayMidnight) (advance 3600000 w1)
      = (Ok false, advance 3600000 w1) /\
    sendDailyAlert (JsDate.Valid mondayMidnight) (advance 3600000 w1)
      = (Ok false, advance 3600000 w1) /\
    dispatched (advance 3600000 w1) = (dispatched mondayMorning ++ [emailData])%list /\
    size (alertDocs (_formatDateString mondayMidnight) DAILY_PROCESSING
            (advance 3600000 w1)) = 1%nat.
Proof.
  apply (C3_two_checks_one_alert mondayMorning mondayMidnight 3600000).
  - reflexivity.
  - lia.
  - eexists. vm_compute. repeat split.
  - apply map_filter_empty.
Defined.

(** With the ledger unreachable the record cannot be written nor read, and a
    second check sends again: the guarantee above rests on the persistence
    collaborator. *)
Lemma two_checks_two_alerts_when_offline :
  let first := sendDailyAlert (JsDate.Valid mondayMidnight) mondayMorningOffline in
  let second := sendDailyAlert (JsDate.Valid mondayMidnight) (advance 3600000 (snd first)) in
  fst first = Ok true /\ fst second = Ok true /\
  List.length (dispatched (snd second)) = 2%nat.
Proof. vm_compute. repeat split. Qed.

End AlertFacts.

(** ** The matcher: matches never grow the remaining text *)

Section MatcherFacts.
Import JsString Regex.

Lemma step_rest (p : ascii -> bool) (st st' : mstate) :
  In st' (step p st) -> String.length (rest st) = S (String.length (rest st')).
Proof.
  unfold step. destruct (rest st) as [|x r]; [intros []|].
  destruct (p x); [|intros []]. intros [<- | []]. reflexivity.
Qed.

Lemma starLoop_rest_le (body : mstate -> list mstate) (greedy : bool) :
  (forall st st', In st' (body st) ->
                  (String.length (rest st') <= String.length (rest st))%nat) ->
  forall n st st', In st' (starLoop body greedy n st) ->
                   (String.length (rest st') <= String.length (rest st))%nat.
Proof.
  intros Hbody. induction n as [|n IHn]; intros st st' H; cbn [starLoop] in H.
  - destruct H as [<- | []]. lia.
  - assert (Hmore :
      In st' (flat_map (fun s1 => if progressed st s1
                                  then starLoop body greedy n s1 else [])
                       (body st)) ->
      (String.length (rest st') <= String.length (rest st))%nat).
    { intros Hs. apply in_flat_map in Hs as (s1 & H1 & H2).
      destruct (progressed st s1); [|destruct H2].
      specialize (Hbody _ _ H1). specialize (IHn _ _ H2). lia. }
    destruct greedy.
    + apply in_app_or in H as [H | [<- | []]]; [now apply Hmore | lia].
    + destruct H as [<- | H]; [lia | now apply Hmore].
Qed.

Lemma matches_rest_le (ic : bool) (r : regex) : forall st st',
  In st' (matches ic r st) ->
  (String.length (rest st') <= String.length (rest st))%nat.
Proof.
  induction r as [| c | negated ranges | | r1 IH1 r2 IH2 | r1 IH1 r2 IH2
                  | greedy r' IH | greedy r' IH | i r' IH | | |];
    intros st st' H; cbn [matches] in H.
  - destruct H as [<- | []]. lia.
  - apply step_rest in H. lia.
  - apply step_rest in H. lia.
  - apply step_rest in H. lia.
  - apply in_flat_map in H as (s1 & H1 & H2).
    specialize (IH1 _ _ H1). specialize (IH2 _ _ H2). lia.
  - apply in_app_or in H as [H | H]; eauto.
  - eapply starLoop_rest_le; [|exact H]. exact IH.
  - destruct greedy.
    + apply in_app_or in H as [H | [<- | []]]; [|lia].
      apply filter_In in H as [H _]. eauto.
    + destruct H as [<- | H]; [lia|].
      apply filter_In in H as [H _]. eauto.
  - apply in_map_iff in H as (s1 & <- & H1). cbn [rest]. eauto.
  - destruct (before st); [destruct H | destruct H as [<- | []]; lia].
  - destruct (rest st) eqn:E; [destruct H as [<- | []]; rewrite E; simpl; lia | destruct H].
  - destruct (xorb _ _); [destruct H as [<- | []]; lia | destruct H].
Qed.

Lemma matches_rest_lt (ic : bool) (r : regex) : forall st st',
  consumes r = true -> In st' (matches ic r st) ->
  (String.length (rest st') < String.length (rest st))%nat.
Proof.
  induction r as [| c | negated ranges | | r1 IH1 r2 IH2 | r1 IH1 r2 IH2
                  | greedy r' IH | greedy r' IH | i r' IH | | |];
    intros st st' Hc H; cbn [consumes] in Hc; try discriminate; cbn [matches] in H.
  - apply step_rest in H. lia.
  - apply step_rest in H. lia.
  - apply step_rest in H. lia.
  - apply in_flat_map in H as (s1 & H1 & H2).
    pose proof (matches_rest_le _ _ _ _ H1). pose proof (matches_rest_le _ _ _ _ H2).
    apply orb_true_iff in Hc as [Hc | Hc].
    + specialize (IH1 _ _ Hc H1). lia.
    + specialize (IH2 _ _ Hc H2). lia.
  - apply andb_true_iff in Hc as [Hc1 Hc2].
    apply in_app_or in H as [H | H]; eauto.
  - apply in_map_iff in H as (s1 & <- & H1). cbn [rest]. eauto.
Qed.

Lemma length_drop (n : nat) (s : string) :
  String.length (drop n s) = (String.length s - n)%nat.
Proof.
  revert s. induction n as [|n IH]; intros s; [simpl; lia|].
  destruct s as [|c r]; simpl; [reflexivity | apply IH].
Qed.

(** A match found by [search] lies inside the text, and is not empty when
    the pattern consumes. *)
Lemma search_bounds (ic : bool) (r : regex) (text : string) : forall prev idx m,
  search ic r prev text idx = Some m ->
  (idx <= index m /\ index m <= endIndex m /\
   endIndex m <= idx + String.length text /\
   (consumes r = true -> index m < endIndex m))%nat.
Proof.
  induction text as [|c t IH]; intros prev idx m H; cbn [search] in H.
  - destruct (matches ic r (mkState prev EmptyString [])) as [|st' l] eqn:E; [discriminate|].
    injection H as <-. cbn [index endIndex String.length].
    assert (Hin : In st' (matches ic r (mkState prev EmptyString []))) by (rewrite E; now left).
    pose proof (matches_rest_le _ _ _ _ Hin) as Hle. cbn [rest String.length] in Hle.
    repeat split; try lia.
    intros Hc. pose proof (matches_rest_lt _ _ _ _ Hc Hin) as Hlt.
    cbn [rest String.length] in Hlt. lia.
  - destruct (matches ic r (mkState prev (String c t) [])) as [|st' l] eqn:E.
    + apply IH in H as (? & ? & ? & ?). cbn [String.length].
      repeat split; try lia. assumption.
    + injection H as <-. cbn [index endIndex].
      assert (Hin : In st' (matches ic r (mkState prev (String c t) [])))
        by (rewrite E; now left).
      pose proof (matches_rest_le _ _ _ _ Hin) as Hle.
      cbn [rest String.length] in Hle. cbn [String.length].
      repeat split; try lia.
      intros Hc. pose proof (matches_rest_lt _ _ _ _ Hc Hin) as Hlt.
      cbn [rest String.length] in Hlt. lia.
Qed.

Lemma exec_bounds (ic : bool) (r : regex) (text : string) (lastIndex : nat) (m : MatchResult) :
  exec ic r text lastIndex = Some m ->
  (lastIndex <= index m /\ index m <= endIndex m /\
   endIndex m <= String.length text /\
   (consumes r = true -> lastIndex < endIndex m))%nat.
Proof.
  unfold exec. destruct (String.length text <? lastIndex)%nat eqn:E; [discriminate|].
  apply Nat.ltb_ge in E. intros H. apply search_bounds in H.
  rewrite length_drop in H. repeat split; try lia.
  intros Hc. destruct H as (? & ? & ? & H). specialize (H Hc). lia.
Qed.

End MatcherFacts.

(** ** The loops of the pattern extractor end *)

Section ExtractorTermination.
Import JsString Regex WhatsAppParser.

Lemma execAll_total (r : regex) (text : string) :
  consumes r = true ->
  forall fuel lastIndex,
    (lastIndex <= String.length text < fuel + lastIndex)%nat ->
    exists ms, execAll fuel r text lastIndex = Some ms.
Proof.
  intros Hc. induction fuel as [|fuel IH]; intros lastIndex Hf; cbn [execAll]; [lia|].
  destruct (exec true r text lastIndex) as [m|] eqn:E; [|eauto].
  apply exec_bounds in E as (_ & _ & Hend & Hlt). specialize (Hlt Hc).
  destruct (IH (endIndex m)) as [ms ->]; [lia|]. cbn. eauto.
Qed.

Lemma transferPatterns_consume : List.forallb consumes transferPatterns = true.
Proof. vm_compute. reflexivity. Qed.

Lemma forEachPattern_total (text : string) (patterns : list regex) :
  List.forallb consumes patterns = true ->
  forall patternIndex, exists cs, forEachPattern patterns patternIndex text = Some cs.
Proof.
  induction patterns as [|p ps IH]; intros Hc patternIndex; cbn [forEachPattern]; [eauto|].
  cbn [List.forallb] in Hc. apply andb_true_iff in Hc as [Hp Hps].
  destruct (execAll_total p text Hp (S (String.length text)) 0) as [ms ->]; [lia|].
  destruct (IH Hps (S patternIndex)) as [later ->]. eauto.
Qed.

(** [findTransferPatterns] returns on every line: none of the six patterns
    matches the empty string, so every [while] loop ends. *)
Lemma findTransferPatterns_total (text : string) :
  exists candidates, findTransferPatterns text = Some candidates.
Proof. apply forEachPattern_total, transferPatterns_consume. Qed.

Lemma parseLines_total (newDate : string -> JsDate.Date) (lines : list string) :
  forall i, exists transfers, parseLines newDate lines i = Some transfers.
Proof.
  induction lines as [|raw more IH]; intros i; cbn [parseLines]; [eauto|].
  destruct (trim raw) as [|c r] eqn:E; [apply IH|].
  destruct (findTransferPatterns_total (String c r)) as [found ->].
  destruct (IH (S i)) as [later ->]. eauto.
Qed.

(** [parseChat] returns on every content. *)
Lemma parseChat_total (newDate : string -> JsDate.Date) (content : string) :
  exists transfers, parseChat newDate content = Some transfers.
Proof.
  unfold parseChat. destruct content as [|c r]; [eauto|].
  destruct (parseLines_total newDate (split "010" (String c r)) 0) as [ts ->].
  cbn. eauto.
Qed.

End ExtractorTermination.

(** ** The parser *)

Section ParserFacts.
Import JsString WhatsAppParser Spec Samples.

(** *** cleanVehicleId *)

Lemma forallb_trimStart (p : ascii -> bool) (s : string) :
  forallb p s = true -> forallb p (trimStart s) = true.
Proof.
  induction s as [|c r IH]; simpl; [trivial|].
  intros H. apply andb_true_iff in H as [Hc Hr].
  destruct (isWhiteSpace c); [auto | simpl; now rewrite Hc, Hr].
Qed.

Lemma forallb_trimEnd (p : ascii -> bool) (s : string) :
  forallb p s = true -> forallb p (trimEnd s) = true.
Proof.
  induction s as [|c r IH]; simpl; [trivial|].
  intros H. apply andb_true_iff in H as [Hc Hr].
  specialize (IH Hr).
  destruct (trimEnd r) as [|c' r'].
  - destruct (isWhiteSpace c); simpl; [reflexivity | now rewrite Hc].
  - change (p c && forallb p (String c' r') = true). now rewrite Hc, IH.
Qed.

Lemma forallb_trim (p : ascii -> bool) (s : string) :
  forallb p s = true -> forallb p (trim s) = true.
Proof. intros H. unfold trim. now apply forallb_trimEnd, forallb_trimStart. Qed.

Lemma forallb_filter_imp (p q k : ascii -> bool) (s : string) :
  (forall c, q c = true -> k c = true -> p c = true) ->
  forallb q s = true -> forallb p (filter k s) = true.
Proof.
  intros Himp. induction s as [|c r IH]; simpl; [trivial|].
  intros H. apply andb_true_iff in H as [Hc Hr].
  destruct (k c) eqn:Hk; [simpl; rewrite (Himp c Hc Hk) |]; auto.
Qed.

Lemma upperChar_notLower (c : ascii) : notLower (upperChar c) = true.
Proof. destruct c as [[] [] [] [] [] [] [] []]; vm_compute; reflexivity. Qed.

Lemma toUpperCase_notLower (s : string) : forallb notLower (toUpperCase s) = true.
Proof.
  induction s as [|c r IH]; simpl; [reflexivity|].
  destruct (code c =? 223); simpl; [exact IH|].
  now rewrite upperChar_notLower.
Qed.

Lemma collapseSpaces_units (s : string) : forall inRun,
  forallb notLower s = true -> forallb collapsedUnit (collapseSpaces inRun s) = true.
Proof.
  induction s as [|c r IH]; intros inRun H; simpl; [reflexivity|].
  simpl in H. apply andb_true_iff in H as [Hc Hr].
  destruct (isWhiteSpace c) eqn:Hw.
  - destruct inRun; simpl; auto.
  - simpl. unfold collapsedUnit at 1. rewrite Hc, Hw. simpl. auto.
Qed.

Lemma collapsed_kept_is_cleaned (c : ascii) :
  collapsedUnit c = true -> plateUnit c = true -> Spec.cleanedChar c = true.
Proof. destruct c as [[] [] [] [] [] [] [] []]; vm_compute; auto. Qed.

(** *** cleanVehicleId and the cleaned plate in words *)

Section PlateFacts.
Import JsString WhatsAppParser Spec.

Lemma trimEnd_empty (s : string) :
  trimEnd s = EmptyString <-> forallb isWhiteSpace s = true.
Proof.
  induction s as [|c r IH]; cbn [trimEnd forallb]; [tauto|].
  destruct (trimEnd r) as [|c' r'] eqn:E.
  - destruct (isWhiteSpace c); cbn [andb].
    + split; [intros _; now apply IH | reflexivity].
    + split; discriminate.
  - split; [discriminate|]. intros H. apply andb_true_iff in H as [_ H].
    apply IH in H. discriminate.
Qed.

Lemma trimEnd_String (c : ascii) (r : string) :
  trimEnd (String c r)
  = if forallb isWhiteSpace r
    then (if isWhiteSpace c then EmptyString else String c EmptyString)
    else String c (trimEnd r).
Proof.
  cbn [trimEnd]. destruct (forallb isWhiteSpace r) eqn:E.
  - apply trimEnd_empty in E. now rewrite E.
  - destruct (trimEnd r) eqn:Et; [|reflexivity].
    apply trimEnd_empty in Et. congruence.
Qed.

Lemma trimEnd_append (a b : string) :
  trimEnd (a +:+ b) = if forallb isWhiteSpace b then trimEnd a else a +:+ trimEnd b.
Proof.
  induction a as [|c a IH].
  - change (EmptyString +:+ b) with b. change (EmptyString +:+ trimEnd b) with (trimEnd b).
    destruct (forallb isWhiteSpace b) eqn:E; [|reflexivity].
    now apply trimEnd_empty in E.
  - change (String c a +:+ b) with (String c (a +:+ b)).
    rewrite !trimEnd_String, forallb_app, IH.
    destruct (forallb isWhiteSpace b); [|now rewrite andb_false_r].
    now rewrite andb_true_r.
Qed.

Lemma trimEnd_prefix (p x y : string) :
  trimEnd x = trimEnd y -> trimEnd (p +:+ x) = trimEnd (p +:+ y).
Proof.
  intros H. rewrite !trimEnd_append, H.
  destruct (forallb isWhiteSpace x) eqn:Ex, (forallb isWhiteSpace y) eqn:Ey; try reflexivity.
  - apply trimEnd_empty in Ex. rewrite H in Ex. apply trimEnd_empty in Ex. congruence.
  - apply trimEnd_empty in Ey. rewrite <- H in Ey. apply trimEnd_empty in Ey. congruence.
Qed.

Lemma trimStart_blank (s : string) :
  forallb isWhiteSpace s = true -> trimStart s = EmptyString.
Proof.
  induction s as [|c r IH]; cbn [forallb trimStart]; [reflexivity|].
  intros H. apply andb_true_iff in H as [-> H]. auto.
Qed.

Lemma trimEnd_trimStart (s : string) : trimEnd (trimStart s) = trimStart (trimEnd s).
Proof.
  induction s as [|c r IH]; [reflexivity|].
  rewrite trimEnd_String. cbn [trimStart].
  destruct (isWhiteSpace c) eqn:Ec.
  - destruct (forallb isWhiteSpace r) eqn:Er.
    + rewrite (trimStart_blank _ Er). reflexivity.
    + cbn [trimStart]. now rewrite Ec.
  - rewrite trimEnd_String.
    destruct (forallb isWhiteSpace r); cbn [trimStart]; now rewrite Ec.
Qed.

Lemma append_append (a b c : string) : (a +:+ b) +:+ c = a +:+ (b +:+ c).
Proof.
  induction a as [|x a IH]; [reflexivity|].
  change ((String x a +:+ b) +:+ c) with (String x ((a +:+ b) +:+ c)).
  now rewrite IH.
Qed.

Lemma unwords_prefix (k w : string) (l : list string) :
  unwords ((k +:+ w) :: l) = k +:+ unwords (w :: l).
Proof.
  destruct l as [|w' l]; [reflexivity|].
  change (unwords ((k +:+ w) :: w' :: l))
    with ((k +:+ w) +:+ String " " (unwords (w' :: l))).
  change (unwords (w :: w' :: l)) with (w +:+ String " " (unwords (w' :: l))).
  apply append_append.
Qed.

Lemma append_empty (s : string) : s +:+ EmptyString = s.
Proof.
  induction s as [|c s IH]; [reflexivity|].
  change (String c s +:+ EmptyString) with (String c (s +:+ EmptyString)). now rewrite IH.
Qed.

Lemma plateUnit_keptUnit (c : ascii) :
  isWhiteSpace c = false -> plateUnit c = keptUnit c.
Proof. unfold plateUnit, keptUnit. intros ->. now rewrite orb_false_r. Qed.

Lemma plateUnit_blank (c : ascii) : isWhiteSpace c = true -> plateUnit c = true.
Proof. unfold plateUnit. intros ->. now rewrite orb_true_r. Qed.

(** The collapsed and filtered text is the stripped words joined by single
    spaces, up to one space in front and white space at the end. *)
Lemma collapse_filter_words (s : string) : forall inRun : bool,
  trimEnd (filter plateUnit (collapseSpaces inRun s))
  = trimEnd ((if inRun then EmptyString
              else if atWordEnd s then
                     match s with EmptyString => EmptyString | _ => " " end
                   else EmptyString)
             +:+ unwords (List.map (filter keptUnit) (words s))).
Proof.
  induction s as [|c r IH]; intros inRun.
  - destruct inRun; reflexivity.
  - cbn [collapseSpaces words atWordEnd].
    destruct (isWhiteSpace c) eqn:Ec.
    + destruct inRun.
      * rewrite IH. reflexivity.
      * cbn [filter]. rewrite (plateUnit_blank _ (eq_refl : isWhiteSpace " " = true)).
        change (String " " ?x) with (String " " EmptyString +:+ x).
        apply (trimEnd_prefix (String " " EmptyString)).
        rewrite IH. reflexivity.
    + assert (Hl : (if inRun then EmptyString else EmptyString) = EmptyString)
        by (destruct inRun; reflexivity).
      rewrite Hl. clear Hl.
      change (EmptyString +:+ ?x) with x.
      cbn [filter]. rewrite (plateUnit_keptUnit _ Ec).
      set (k := filter keptUnit (String c EmptyString)).
      assert (Hk : (if keptUnit c then String c (filter plateUnit (collapseSpaces false r))
                    else filter plateUnit (collapseSpaces false r))
                   = k +:+ filter plateUnit (collapseSpaces false r)).
      { unfold k. cbn [filter]. destruct (keptUnit c); reflexivity. }
      rewrite Hk. clear Hk.
      rewrite (trimEnd_prefix k _ _ (IH false)).
      assert (Hc : forall w, filter keptUnit (String c w) = k +:+ filter keptUnit w).
      { intros w. unfold k. cbn [filter]. destruct (keptUnit c); reflexivity. }
      destruct r as [|c' r'].
      * cbn [words List.map unwords atWordEnd consUnit].
        change (EmptyString +:+ EmptyString) with EmptyString.
        rewrite (Hc EmptyString). reflexivity.
      * cbn [atWordEnd]. destruct (isWhiteSpace c') eqn:Ec'.
        -- destruct (words (String c' r')) as [|w more] eqn:Ew; cbn [consUnit List.map unwords].
           ++ rewrite (Hc EmptyString). cbn [filter]. rewrite !append_empty.
              rewrite trimEnd_append. reflexivity.
           ++ rewrite (Hc EmptyString). cbn [filter]. rewrite append_empty.
              destruct (List.map (filter keptUnit) more); reflexivity.
        -- change (EmptyString +:+ ?x) with x.
           destruct (words (String c' r')) as [|w more] eqn:Ew; cbn [consUnit List.map].
           ++ rewrite (Hc EmptyString). cbn [filter unwords]. reflexivity.
           ++ rewrite Hc, unwords_prefix. reflexivity.
Qed.

Lemma trim_collapse_filter (s : string) :
  trim (filter plateUnit (collapseSpaces false s))
  = trim (unwords (List.map (filter keptUnit) (words s))).
Proof.
  unfold trim. rewrite !trimEnd_trimStart, collapse_filter_words.
  rewrite <- !trimEnd_trimStart. f_equal.
  destruct s as [|c r]; [reflexivity|].
  cbn [atWordEnd]. destruct (isWhiteSpace c); reflexivity.
Qed.

Lemma words_blank (s : string) : forallb isWhiteSpace s = true -> words s = [].
Proof.
  induction s as [|c r IH]; cbn [forallb words]; [reflexivity|].
  intros H. apply andb_true_iff in H as [-> H]. auto.
Qed.

Lemma words_trimStart (s : string) : words (trimStart s) = words s.
Proof.
  induction s as [|c r IH]; [reflexivity|].
  cbn [trimStart]. destruct (isWhiteSpace c) eqn:Ec; [|reflexivity].
  cbn [words]. now rewrite Ec.
Qed.

Lemma atWordEnd_trimEnd (r : string) :
  forallb isWhiteSpace r = false -> atWordEnd (trimEnd r) = atWordEnd r.
Proof.
  destruct r as [|c r]; [reflexivity|]. intros H.
  rewrite trimEnd_String. cbn [forallb] in H.
  destruct (forallb isWhiteSpace r); [|reflexivity].
  rewrite andb_true_r in H. now rewrite H.
Qed.

Lemma words_trimEnd (s : string) : words (trimEnd s) = words s.
Proof.
  induction s as [|c r IH]; [reflexivity|].
  rewrite trimEnd_String. destruct (forallb isWhiteSpace r) eqn:Er.
  - cbn [words]. rewrite (words_blank _ Er).
    destruct (isWhiteSpace c) eqn:Ec; [reflexivity|].
    cbn [words]. rewrite Ec. cbn [consUnit atWordEnd]. reflexivity.
  - cbn [words]. now rewrite IH, (atWordEnd_trimEnd _ Er).
Qed.

Lemma words_trim (s : string) : words (trim s) = words s.
Proof. unfold trim. now rewrite words_trimEnd, words_trimStart. Qed.

Lemma upperChar_blank (c : ascii) :
  isWhiteSpace c = true -> (code c =? 223) = false /\ upperChar c = c.
Proof. destruct c as [[] [] [] [] [] [] [] []]; vm_compute; intros H; now try discriminate H. Qed.

Lemma upperChar_solid (c : ascii) :
  isWhiteSpace c = false -> isWhiteSpace (upperChar c) = false.
Proof. destruct c as [[] [] [] [] [] [] [] []]; vm_compute; auto. Qed.

Lemma atWordEnd_toUpperCase (r : string) : atWordEnd (toUpperCase r) = atWordEnd r.
Proof.
  destruct r as [|c r]; [reflexivity|]. cbn [toUpperCase atWordEnd].
  destruct (isWhiteSpace c) eqn:Ec.
  - destruct (upperChar_blank _ Ec) as [-> ->]. exact Ec.
  - destruct (code c =? 223); [reflexivity|]. now apply upperChar_solid.
Qed.

(** Upper-casing works word by word. *)
Lemma words_toUpperCase (s : string) :
  words (toUpperCase s) = List.map toUpperCase (words s).
Proof.
  induction s as [|c r IH]; [reflexivity|].
  cbn [toUpperCase words]. destruct (isWhiteSpace c) eqn:Ec.
  - destruct (upperChar_blank _ Ec) as [-> ->]. cbn [words]. now rewrite Ec.
  - destruct (code c =? 223) eqn:E9.
    + cbn [words]. change (isWhiteSpace "S") with false. cbv iota.
      change (atWordEnd (String "S" (toUpperCase r))) with false.
      rewrite atWordEnd_toUpperCase, IH.
      destruct (words r) as [|w more]; cbn [consUnit List.map toUpperCase].
      * rewrite E9. reflexivity.
      * destruct (atWordEnd r); cbn [consUnit List.map toUpperCase]; now rewrite E9.
    + cbn [words]. rewrite (upperChar_solid _ Ec), atWordEnd_toUpperCase, IH.
      destruct (words r) as [|w more]; cbn [consUnit List.map toUpperCase].
      * rewrite E9. reflexivity.
      * destruct (atWordEnd r); cbn [consUnit List.map toUpperCase]; now rewrite E9.
Qed.

Lemma cleanVehicleId_normalizePlate (vehicleId : string) :
  cleanVehicleId vehicleId = normalizePlate vehicleId.
Proof.
  unfold cleanVehicleId, normalizePlate.
  destruct vehicleId as [|c r]; [reflexivity|].
  now rewrite trim_collapse_filter, !words_toUpperCase, words_trim.
Qed.

(** *** The units that are kept *)

Lemma filter_blanks_trimStart (q : ascii -> bool) (s : string) :
  (forall c, isWhiteSpace c = true -> q c = false) ->
  filter q (trimStart s) = filter q s.
Proof.
  intros Hq. induction s as [|c r IH]; [reflexivity|].
  cbn [trimStart]. destruct (isWhiteSpace c) eqn:Ec; [|reflexivity].
  cbn [filter]. now rewrite (Hq _ Ec).
Qed.

Lemma filter_blank (q : ascii -> bool) (s : string) :
  (forall c, isWhiteSpace c = true -> q c = false) ->
  forallb isWhiteSpace s = true -> filter q s = EmptyString.
Proof.
  intros Hq. induction s as [|c r IH]; cbn [forallb filter]; [reflexivity|].
  intros H. apply andb_true_iff in H as [Hc Hr]. rewrite (Hq _ Hc). auto.
Qed.

Lemma filter_blanks_trimEnd (q : ascii -> bool) (s : string) :
  (forall c, isWhiteSpace c = true -> q c = false) ->
  filter q (trimEnd s) = filter q s.
Proof.
  intros Hq. induction s as [|c r IH]; [reflexivity|].
  rewrite trimEnd_String. destruct (forallb isWhiteSpace r) eqn:Er.
  - cbn [filter]. rewrite (filter_blank q r Hq Er).
    destruct (isWhiteSpace c) eqn:Ec; [now rewrite (Hq _ Ec) | reflexivity].
  - cbn [filter]. now rewrite IH.
Qed.

Lemma filter_blanks_trim (q : ascii -> bool) (s : string) :
  (forall c, isWhiteSpace c = true -> q c = false) ->
  filter q (trim s) = filter q s.
Proof.
  intros Hq. unfold trim.
  now rewrite filter_blanks_trimEnd, filter_blanks_trimStart.
Qed.

Lemma keptUnit_blank (c : ascii) : isWhiteSpace c = true -> keptUnit c = false.
Proof. destruct c as [[] [] [] [] [] [] [] []]; vm_compute; intros H; now try discriminate H. Qed.

Lemma filter_plateUnit_solid (s : string) :
  filter (fun c => negb (isWhiteSpace c)) (filter plateUnit s) = filter keptUnit s.
Proof.
  induction s as [|c r IH]; [reflexivity|].
  cbn [filter]. destruct (isWhiteSpace c) eqn:Ec.
  - rewrite (plateUnit_blank _ Ec), (keptUnit_blank _ Ec). cbn [filter]. now rewrite Ec.
  - rewrite (plateUnit_keptUnit _ Ec). destruct (keptUnit c); [|exact IH].
    cbn [filter]. rewrite Ec. cbn [negb]. now rewrite IH.
Qed.

Lemma filter_keptUnit_collapseSpaces (s : string) : forall inRun,
  filter keptUnit (collapseSpaces inRun s) = filter keptUnit s.
Proof.
  induction s as [|c r IH]; intros inRun; [reflexivity|].
  cbn [collapseSpaces]. destruct (isWhiteSpace c) eqn:Ec.
  - cbn [filter]. rewrite (keptUnit_blank _ Ec).
    destruct inRun; [apply IH|]. cbn [filter].
    change (keptUnit " ") with false. cbv iota. apply IH.
  - cbn [filter]. now rewrite IH.
Qed.

Lemma filter_keptUnit_toUpperCase_trimStart (s : string) :
  filter keptUnit (toUpperCase (trimStart s)) = filter keptUnit (toUpperCase s).
Proof.
  induction s as [|c r IH]; [reflexivity|].
  cbn [trimStart]. destruct (isWhiteSpace c) eqn:Ec; [|reflexivity].
  cbn [toUpperCase]. destruct (upperChar_blank _ Ec) as [-> ->].
  cbn [filter]. now rewrite (keptUnit_blank _ Ec).
Qed.

Lemma toUpperCase_blank (s : string) :
  forallb isWhiteSpace s = true -> toUpperCase s = s.
Proof.
  induction s as [|c r IH]; cbn [forallb toUpperCase]; [reflexivity|].
  intros H. apply andb_true_iff in H as [Hc Hr].
  destruct (upperChar_blank _ Hc) as [-> ->]. now rewrite IH.
Qed.

Lemma filter_keptUnit_toUpperCase_trimEnd (s : string) :
  filter keptUnit (toUpperCase (trimEnd s)) = filter keptUnit (toUpperCase s).
Proof.
  induction s as [|c r IH]; [reflexivity|].
  rewrite trimEnd_String. destruct (forallb isWhiteSpace r) eqn:Er.
  - assert (Hr : filter keptUnit (toUpperCase r) = EmptyString).
    { rewrite (toUpperCase_blank _ Er). apply filter_blank; [apply keptUnit_blank | exact Er]. }
    destruct (isWhiteSpace c) eqn:Ec.
    + cbn [toUpperCase]. destruct (upperChar_blank _ Ec) as [-> ->].
      cbn [filter]. now rewrite (keptUnit_blank _ Ec), Hr.
    + cbn [toUpperCase]. destruct (code c =? 223); cbn [filter]; now rewrite Hr.
  - cbn [toUpperCase]. destruct (code c =? 223); cbn [filter]; now rewrite IH.
Qed.

Lemma cleanVehicleId_kept (vehicleId : string) :
  filter (fun c => negb (isWhiteSpace c)) (cleanVehicleId vehicleId)
  = filter keptUnit (toUpperCase vehicleId).
Proof.
  unfold cleanVehicleId. destruct vehicleId as [|c r]; [reflexivity|].
  rewrite filter_blanks_trim by (intros x ->; reflexivity).
  rewrite filter_plateUnit_solid, filter_keptUnit_collapseSpaces.
  unfold trim. now rewrite filter_keptUnit_toUpperCase_trimEnd,
    filter_keptUnit_toUpperCase_trimStart.
Qed.

End PlateFacts.

(** C9 (counterexample): the space inside "abc 123" survives, and a space is
    not in [A-Z0-9-]. *)
Lemma C9_space_survives :
  cleanVehicleId "abc 123" = "ABC 123" /\
  forallb Spec.plateChar (cleanVehicleId "abc 123") = false.
Proof. split; vm_compute; reflexivity. Qed.

(** C9 (amended): cleanVehicleId is total; it upper-cases the input, turns
    every run of white space into one space and strips every character that
    is not a word character, white space or a hyphen: its output is the words
    of the upper-cased input, each without the units that are neither word
    characters nor hyphens, joined by single spaces and trimmed.  The units
    of the output that are not white space are the word characters and
    hyphens of the upper-cased input, in their order, so the output contains
    only upper-case letters, digits, hyphens and spaces (besides underscores,
    which the word class admits); the empty input gives the empty string. *)
Theorem C9_cleanVehicleId_output (vehicleId : string) :
  cleanVehicleId vehicleId = Spec.normalizePlate vehicleId /\
  filter (fun c => negb (isWhiteSpace c)) (cleanVehicleId vehicleId)
  = filter Spec.keptUnit (toUpperCase vehicleId) /\
  forallb Spec.cleanedChar (cleanVehicleId vehicleId) = true /\
  cleanVehicleId EmptyString = EmptyString.
Proof.
  split; [apply cleanVehicleId_normalizePlate|].
  split; [apply cleanVehicleId_kept|].
  split; [|reflexivity].
  unfold cleanVehicleId. destruct vehicleId as [|c r]; [reflexivity|].
  apply forallb_trim.
  apply forallb_filter_imp with (q := collapsedUnit).
  - apply collapsed_kept_is_cleaned.
  - apply collapseSpaces_units, toUpperCase_notLower.
Qed.

(** *** findTransferPatterns *)

(** C8: the line "le paso el carro ABC-123 a Juan Perez" yields exactly one
    candidate over all six pattern rules, with vehicle ABC-123 (already in
    normal form), to-driver Juan Perez and a confidence of at least 0.9. *)
Theorem C8_le_paso_line :
  exists c,
    findTransferPatterns "le paso el carro ABC-123 a Juan Perez" = Some [c] /\
    vehicleId c = "ABC-123" /\ cleanVehicleId (vehicleId c) = "ABC-123" /\
    toDriver c = "Juan Perez" /\
    PrimFloat.leb 0.9%float (confidence c) = true.
Proof. eexists. vm_compute. repeat split. Qed.

(** *** extractDateTime *)

Section AnyHostDate.
Variable newDate : string -> JsDate.Date.


Lemma extractFrom_no_match (text : string) (patterns : list Regex.regex) :
  Forall (fun q => Regex.exec false q text 0 = None) patterns ->
  extractFrom newDate patterns text = None.
Proof. intros H. induction H as [|q qs Hq _ IH]; simpl; [reflexivity | now rewrite Hq]. Qed.

End AnyHostDate.




(** *** deduplicateTransfers *)

Lemma filter_filter {A : Type} (p q : A -> bool) (l : list A) :
  List.filter p (List.filter q l) = List.filter (fun x => q x && p x) l.
Proof.
  induction l as [|x r IH]; simpl; [reflexivity|].
  destruct (q x); simpl; [destruct (p x)|]; now rewrite IH.
Qed.

(** The filter with the set [seen] keeps the first occurrence of every key
    that is not in [seen]. *)
Lemma filterSeen_keepFirst (transfers : list ParsedTransfer) : forall seen : gset string,
  filterSeen seen transfers =
  List.filter (fun t => negb (bool_decide (dedupKey t ∈ seen)))
              (Spec.keepFirst dedupKey transfers).
Proof.
  induction transfers as [|t r IH]; intros seen; simpl; [reflexivity|].
  rewrite filter_filter.
  destruct (decide (dedupKey t ∈ seen)) as [Hin | Hout].
  - rewrite bool_decide_eq_true_2 by assumption. simpl.
    rewrite IH. apply filter_ext. intros u.
    destruct (String.eqb_spec (dedupKey u) (dedupKey t)) as [E | _]; [|reflexivity].
    rewrite E, bool_decide_eq_true_2 by assumption. reflexivity.
  - rewrite bool_decide_eq_false_2 by assumption. simpl. f_equal.
    rewrite IH. apply filter_ext. intros u.
    destruct (String.eqb_spec (dedupKey u) (dedupKey t)) as [E | Hne]; simpl.
    + rewrite bool_decide_eq_true_2; [reflexivity|].
      rewrite E, elem_of_union, elem_of_singleton. now left.
    + f_equal. apply bool_decide_ext.
      rewrite elem_of_union, elem_of_singleton. tauto.
Qed.

(** With respect to its own key string, [deduplicateTransfers] is
    order-preserving and first-seen-wins. *)
Lemma deduplicateTransfers_keepFirst (transfers : list ParsedTransfer) :
  deduplicateTransfers transfers = Spec.keepFirst dedupKey transfers.
Proof.
  unfold deduplicateTransfers. rewrite filterSeen_keepFirst.
  rewrite <- (filter_ext (fun _ => true)).
  - induction (Spec.keepFirst dedupKey transfers) as [|x r IH]; simpl; congruence.
  - intros t. rewrite bool_decide_eq_false_2 by set_solver. reflexivity.
Qed.

(** C6 (evaluation at the failing input): a transfer stamped with the epoch
    (time value 0) and the same transfer without a date have different
    timestamps, yet share the key "...-no-date", so the second is dropped. *)
Theorem C6_epoch_collides_with_no_date :
  dateTime (parsedAt (Some (JsDate.Valid 0)) 1) <> dateTime (parsedAt None 2) /\
  dedupKey (parsedAt (Some (JsDate.Valid 0)) 1) = "ABC-123-Juan Perez-no-date" /\
  dedupKey (parsedAt None 2) = "ABC-123-Juan Perez-no-date" /\
  deduplicateTransfers [parsedAt (Some (JsDate.Valid 0)) 1; parsedAt None 2]
    = [parsedAt (Some (JsDate.Valid 0)) 1].
Proof. repeat split; try discriminate; vm_compute; reflexivity. Qed.

(** The separator of the key can also be part of a token: two transfers that
    differ in vehicle and in to-driver share a key. *)
Example dedupKey_separator_collision :
  let a := mkParsed (mkCandidate "A-B" None "C" 0 0.9%float) None "a" 1 in
  let b := mkParsed (mkCandidate "A" None "B-C" 0 0.9%float) None "b" 2 in
  dedupKey a = dedupKey b /\ deduplicateTransfers [a; b] = [a].
Proof. vm_compute. split; reflexivity. Qed.

End ParserFacts.

(** ** The matcher and the direct definitions agree on sample inputs *)

Section Agreement.
Import JsString Regex WhatsAppParser.

(** [/\s+/g] and [collapseSpaces]. *)
Example collapseSpaces_agrees :
  replaceAll false ws1 space (" ab   c" +:+ String "009" (String "010" "d  "))
  = collapseSpaces false (" ab   c" +:+ String "009" (String "010" "d  ")).
Proof. vm_compute. reflexivity. Qed.

(** [/[^\w\s\-]/g] and the filter on [plateUnit]. *)
Example plateUnit_agrees :
  replaceAll false (Class true ((45, 45) :: cls_w ++ cls_s)%list) (fun _ => EmptyString)
    "AB_c-12 3!?/(x)."
  = filter plateUnit "AB_c-12 3!?/(x).".
Proof. vm_compute. reflexivity. Qed.

(** The cleaned plate in words on a sample: the word of the full stop is
    stripped to nothing and leaves its two spaces. *)
Example normalizePlate_sample :
  Spec.normalizePlate ("  abc-12 . x_9!" +:+ String "009" " ")
  = "ABC-12  X_9" /\
  cleanVehicleId ("  abc-12 . x_9!" +:+ String "009" " ")
  = Spec.normalizePlate ("  abc-12 . x_9!" +:+ String "009" " ").
Proof. split; vm_compute; reflexivity. Qed.

(** Role mapping differs between rules: here the first group is the
    recipient and the second the vehicle. *)
Example recibe_line :
  option_map (List.map (fun c => (vehicleId c, toDriver c, patternUsed c)))
    (findTransferPatterns "Pedro recibe el carro DEF-789")
  = Some [("DEF-789", "Pedro", 2%nat)].
Proof. vm_compute. reflexivity. Qed.

(** A chat of two lines, the first dated at the epoch (local time UTC), the
    second undated: the parse keeps one transfer. *)
Example parseChat_epoch_line :
  option_map (List.map lineNumber)
    (parseChat (JsDate.parseIsoLocal 0)
       ("01/01/1970, 00:00 - le paso el carro ABC-123 a Juan Perez" +:+
        String "010" "le paso el carro ABC-123 a Juan Perez"))
  = Some [1%nat].
Proof. vm_compute. reflexivity. Qed.

End Agreement.

(** ** What the extractor hands on *)

Section CandidateFacts.
Import JsString Regex WhatsAppParser Props.

Lemma cleanVehicleId_units (vehicleId : string) :
  forallb Spec.cleanedChar (cleanVehicleId vehicleId) = true.
Proof.
  unfold cleanVehicleId. destruct vehicleId as [|c r]; [reflexivity|].
  apply forallb_trim.
  apply forallb_filter_imp with (q := Spec.collapsedUnit).
  - apply collapsed_kept_is_cleaned.
  - apply collapseSpaces_units, toUpperCase_notLower.
Qed.

Lemma cleaned_cleanVehicleId_units (i : nat) (m : MatchResult) :
  forallb Spec.cleanedChar (cleaned cleanVehicleId i m) = true.
Proof.
  unfold cleaned. destruct (group i (groups m)); [apply cleanVehicleId_units | reflexivity].
Qed.

(** The score lies between the lowest base score and 1, whatever the text
    and the index. *)
Lemma calculateConfidence_range (matchText : string) (patternIndex : nat) :
  PrimFloat.leb 0.7%float (calculateConfidence matchText patternIndex) = true /\
  PrimFloat.leb (calculateConfidence matchText patternIndex) 1%float = true.
Proof.
  unfold calculateConfidence, keyWords. cbn [List.filter].
  destruct (includes "transferir" _), (includes "entrego" _),
           (includes "paso" _), (includes "recibe" _);
    destruct patternIndex as [|[|[|[|[|[|[|k]]]]]]]; vm_compute; split; reflexivity.
Qed.

Lemma interpret_wellFormed (patternIndex : nat) (m : MatchResult) (c : Candidate) :
  interpret patternIndex m = Some c -> wellFormed c.
Proof.
  unfold interpret, wellFormed.
  destruct patternIndex as [|[|[|[|[|[|k]]]]]]; try discriminate.
  all: cbv zeta beta iota.
  all: match goal with
       | |- context [match cleaned cleanVehicleId ?i ?x with _ => _ end] =>
           pose proof (cleaned_cleanVehicleId_units i x) as Hv;
           destruct (cleaned cleanVehicleId i x) as [|v0 v] eqn:Ev; [discriminate|]
       end.
  all: match goal with
       | |- context [match cleaned cleanDriverName ?i ?x with
                     | EmptyString => None | String _ _ => Some _ end] =>
           destruct (cleaned cleanDriverName i x) as [|t0 t] eqn:Et; [discriminate|]
       end.
  all: intros [= <-]; cbn [vehicleId toDriver fromDriver patternUsed confidence].
  all: pose proof (calculateConfidence_range (matched m)) as Hc.
  all: repeat split; try discriminate; try lia; try congruence; try apply Hc;
       try (destruct (cleaned cleanDriverName 1 m); discriminate);
       try (destruct (cleaned cleanDriverName 1 m); congruence).
Qed.


Lemma forEachPattern_wellFormed (text : string) (patterns : list regex) :
  forall patternIndex cs,
    forEachPattern patterns patternIndex text = Some cs -> Forall wellFormed cs.
Proof.
  induction patterns as [|p ps IH]; intros k cs H; cbn [forEachPattern] in H.
  - injection H as <-. constructor.
  - destruct (execAll _ p text 0) as [ms|]; [|discriminate].
    destruct (forEachPattern ps (S k) text) as [later|] eqn:E; [|discriminate].
    injection H as <-. apply Forall_app. split; [|eauto].
    apply Forall_forall. intros c Hc.
    apply list_elem_of_omap in Hc as (m & _ & Hm).
    eapply interpret_wellFormed, Hm.
Qed.

(** findTransferPatterns returns on every text, and every candidate it
    returns has a non-empty vehicle identifier made of upper-case letters,
    digits, hyphens, spaces and underscores, a non-empty to-driver, a pattern
    index below 6, a from-driver only when the hand-over pattern (index 4)
    matched, and a confidence between 0.7 and 1. *)
Theorem findTransferPatterns_candidates (text : string) :
  exists candidates,
    findTransferPatterns text = Some candidates /\ Forall wellFormed candidates.
Proof.
  destruct (findTransferPatterns_total text) as [cs E].
  exists cs. split; [exact E|].
  exact (forEachPattern_wellFormed text transferPatterns 0 cs E).
Qed.

End CandidateFacts.

(** ** Dates the extractor hands on *)

Section DateFacts.
Import JsString Regex WhatsAppParser Props.
Variable newDate : string -> JsDate.Date.

Lemma convertMatch_nullOrValid (m : MatchResult) (value : option JsDate.Date) :
  convertMatch newDate m = Ok value -> nullOrValid value.
Proof.
  unfold convertMatch.
  destruct (group 1 (groups m)) as [dateStr|]; [|discriminate].
  destruct (group 2 (groups m)) as [timeStr|]; [|discriminate].
  match goal with |- match ?d with _ => _ end = _ -> _ => destruct d as [ds|e] end;
    [|discriminate].
  match goal with |- context [newDate ?x] => destruct (newDate x) as [t|] eqn:E end;
    cbn [JsDate.getTime]; intros [= <-]; [right; eauto | now left].
Qed.

(** extractDateTime never hands on an invalid date: it answers null or a
    valid date, whatever the host makes of the text. *)
Lemma extractFrom_nullOrValid (text : string) (patterns : list regex) :
  nullOrValid (extractFrom newDate patterns text).
Proof.
  induction patterns as [|p ps IH]; cbn [extractFrom]; [now left|].
  destruct (exec false p text 0) as [m|]; [|exact IH].
  destruct (convertMatch newDate m) as [value|e] eqn:E; [|exact IH].
  eapply convertMatch_nullOrValid, E.
Qed.

Lemma parseCSVDateTime_nullOrValid (date time : string) :
  nullOrValid (parseCSVDateTime newDate date time).
Proof.
  unfold parseCSVDateTime.
  destruct (newDate _) as [t|]; cbn [JsDate.getTime]; [right; eauto | now left].
Qed.

End DateFacts.

(** ** The deduplicator *)

Section DedupFacts.
Import JsString WhatsAppParser.

Lemma filterSeen_sublist (transfers : list ParsedTransfer) : forall seen : gset string,
  sublist (filterSeen seen transfers) transfers.
Proof.
  induction transfers as [|t more IH]; intros seen; cbn [filterSeen]; [constructor|].
  destruct (decide (dedupKey t ∈ seen)); [apply sublist_cons | apply sublist_skip]; apply IH.
Qed.

Lemma filterSeen_fresh (transfers : list ParsedTransfer) : forall (seen : gset string) t,
  In t (filterSeen seen transfers) -> dedupKey t ∉ seen.
Proof.
  induction transfers as [|x more IH]; intros seen t H; cbn [filterSeen] in H; [destruct H|].
  destruct (decide (dedupKey x ∈ seen)) as [Hin|Hout]; [eauto|].
  destruct H as [<- | H]; [assumption|].
  apply IH in H. rewrite elem_of_union in H. tauto.
Qed.

Lemma filterSeen_NoDup (transfers : list ParsedTransfer) : forall seen : gset string,
  NoDup (List.map dedupKey (filterSeen seen transfers)).
Proof.
  induction transfers as [|x more IH]; intros seen; cbn [filterSeen]; [constructor|].
  destruct (decide (dedupKey x ∈ seen)) as [Hin|Hout]; [apply IH|].
  cbn [List.map]. constructor; [|apply IH].
  intros H. apply list_elem_of_In, in_map_iff in H as (t & E & Ht).
  apply filterSeen_fresh in Ht. apply Ht.
  rewrite elem_of_union, elem_of_singleton. now left.
Qed.

Lemma filterSeen_covers (transfers : list ParsedTransfer) : forall (seen : gset string) t,
  In t transfers ->
  dedupKey t ∈ seen \/
  exists t', In t' (filterSeen seen transfers) /\ dedupKey t' = dedupKey t.
Proof.
  induction transfers as [|x more IH]; intros seen t H; [destruct H|].
  cbn [filterSeen].
  destruct (decide (dedupKey x ∈ seen)) as [Hin|Hout].
  - destruct H as [<- | H]; [now left | now apply IH].
  - destruct H as [<- | H]; [right; exists x; split; [now left | reflexivity]|].
    destruct (IH ({[dedupKey x]} ∪ seen) t H) as [Hs | (t' & Ht' & E)].
    + rewrite elem_of_union, elem_of_singleton in Hs.
      destruct Hs as [E | Hs]; [|now left].
      right. exists x. split; [now left | now symmetry].
    + right. exists t'. split; [now right | assumption].
Qed.

Lemma filterSeen_fixed (transfers : list ParsedTransfer) : forall seen : gset string,
  NoDup (List.map dedupKey transfers) ->
  (forall t, In t transfers -> dedupKey t ∉ seen) ->
  filterSeen seen transfers = transfers.
Proof.
  induction transfers as [|x more IH]; intros seen Hnd Hfresh; cbn [filterSeen]; [reflexivity|].
  cbn [List.map] in Hnd. apply NoDup_cons in Hnd as [Hx Hnd].
  destruct (decide (dedupKey x ∈ seen)) as [Hin|Hout].
  - exfalso. apply (Hfresh x); [now left | assumption].
  - f_equal. apply IH; [assumption|].
    intros t Ht. rewrite elem_of_union, elem_of_singleton.
    intros [E | Hs].
    + apply Hx. rewrite <- E. apply list_elem_of_In, in_map, Ht.
    + apply (Hfresh t); [now right | assumption].
Qed.

(** deduplicateTransfers keeps a subsequence of its input in which no two
    transfers share a key (vehicle, to-driver, time), every key of the input
    is still present, and a second pass changes nothing. *)
Theorem deduplicateTransfers_distinct_keys (transfers : list ParsedTransfer) :
  NoDup (List.map dedupKey (deduplicateTransfers transfers)) /\
  sublist (deduplicateTransfers transfers) transfers /\
  (forall t, In t transfers ->
     exists t', In t' (deduplicateTransfers transfers) /\ dedupKey t' = dedupKey t) /\
  deduplicateTransfers (deduplicateTransfers transfers) = deduplicateTransfers transfers.
Proof.
  unfold deduplicateTransfers. repeat split.
  - apply filterSeen_NoDup.
  - apply filterSeen_sublist.
  - intros t Ht. destruct (filterSeen_covers transfers ∅ t Ht) as [H | H]; [|exact H].
    now apply not_elem_of_empty in H.
  - apply filterSeen_fixed; [apply filterSeen_NoDup|].
    intros t _. apply not_elem_of_empty.
Qed.

Lemma filterSeenCsv_transfer (rows : list CsvTransfer) : forall seen : gset string,
  List.map transfer (filterSeenCsv seen rows) = filterSeen seen (List.map transfer rows).
Proof.
  induction rows as [|r more IH]; intros seen; cbn [filterSeenCsv filterSeen List.map];
    [reflexivity|].
  destruct (decide (dedupKey (transfer r) ∈ seen)); cbn [List.map]; now rewrite IH.
Qed.

Lemma filterSeenCsv_sublist (rows : list CsvTransfer) : forall seen : gset string,
  sublist (filterSeenCsv seen rows) rows.
Proof.
  induction rows as [|r more IH]; intros seen; cbn [filterSeenCsv]; [constructor|].
  destruct (decide (dedupKey (transfer r) ∈ seen));
    [apply sublist_cons | apply sublist_skip]; apply IH.
Qed.

End DedupFacts.

(** ** The two parsers *)

Section FileFacts.
Import JsString Regex WhatsAppParser Props.
Variable newDate : string -> JsDate.Date.

Lemma parseLines_lines (lines : list string) : forall i transfers,
  parseLines newDate lines i = Some transfers ->
  Forall (fun t =>
            (i < lineNumber t <= i + List.length lines)%nat /\
            originalText t = trim (nth (lineNumber t - 1 - i) lines EmptyString) /\
            originalText t <> EmptyString /\
            dateTime t = extractDateTime newDate (originalText t) /\
            exists candidates,
              findTransferPatterns (originalText t) = Some candidates /\
              In (candidate t) candidates)
         transfers.
Proof.
  induction lines as [|raw more IH]; intros i ts H; cbn [parseLines] in H.
  - injection H as <-. constructor.
  - assert (Hlater : forall later, parseLines newDate more (S i) = Some later ->
      Forall (fun t =>
            (i < lineNumber t <= i + List.length (raw :: more))%nat /\
            originalText t = trim (nth (lineNumber t - 1 - i) (raw :: more) EmptyString) /\
            originalText t <> EmptyString /\
            dateTime t = extractDateTime newDate (originalText t) /\
            exists candidates,
              findTransferPatterns (originalText t) = Some candidates /\
              In (candidate t) candidates) later).
    { intros later E. apply IH in E. eapply Forall_impl; [exact E|].
      intros t ((Hlo & Hhi) & Ho & Hrest). cbn [List.length].
      split; [lia|]. split; [|exact Hrest].
      rewrite Ho. replace (lineNumber t - 1 - i)%nat with (S (lineNumber t - 1 - S i)) by lia.
      reflexivity. }
    destruct (trim raw) as [|c r] eqn:Eline; [now apply Hlater|].
    destruct (findTransferPatterns (String c r)) as [found|] eqn:Ef; [|discriminate].
    destruct (parseLines newDate more (S i)) as [later|] eqn:El; [|discriminate].
    injection H as <-. apply Forall_app. split; [|now apply Hlater].
    apply Forall_forall. intros t Ht.
    apply list_elem_of_In, in_map_iff in Ht as (cand & <- & Hc).
    cbn [lineNumber originalText dateTime candidate List.length].
    split; [lia|].
    replace (S i - 1 - i)%nat with 0%nat by lia. cbn [nth].
    rewrite Eline. split; [reflexivity|]. split; [discriminate|]. split; [reflexivity|].
    exists found. split; assumption.
Qed.

Lemma sublist_Forall {A : Type} (P : A -> Prop) (l1 l2 : list A) :
  sublist l1 l2 -> Forall P l2 -> Forall P l1.
Proof.
  induction 1 as [| x l1 l2 _ IH | x l1 l2 _ IH]; intros H.
  - constructor.
  - apply Forall_cons in H as [Hx H]. constructor; auto.
  - apply Forall_cons in H as [_ H]. auto.
Qed.

(** parseChat returns on every content.  Every transfer it returns points at
    its line: lineNumber is the 1-based index of a line of the content,
    originalText is that line trimmed and is not empty, dateTime is what
    extractDateTime makes of that text (null or a valid date, never an
    invalid one), and the candidate is one findTransferPatterns finds in that
    text.  No two returned transfers share a deduplication key. *)
Theorem parseChat_transfers (content : string) :
  exists transfers,
    parseChat newDate content = Some transfers /\
    Forall (fun t =>
              (1 <= lineNumber t <= List.length (split "010" content))%nat /\
              originalText t
                = trim (nth (lineNumber t - 1) (split "010" content) EmptyString) /\
              originalText t <> EmptyString /\
              dateTime t = extractDateTime newDate (originalText t) /\
              nullOrValid (dateTime t) /\
              exists candidates,
                findTransferPatterns (originalText t) = Some candidates /\
                In (candidate t) candidates /\ wellFormed (candidate t))
           transfers /\
    NoDup (List.map dedupKey transfers).
Proof.
  unfold parseChat. destruct content as [|c r].
  - exists []. repeat split; constructor.
  - destruct (parseLines_total newDate (split "010" (String c r)) 0) as [ts E].
    rewrite E. cbn [option_map]. eexists. split; [reflexivity|].
    split; [|apply filterSeen_NoDup].
    eapply sublist_Forall; [apply filterSeen_sublist|].
    apply parseLines_lines in E. eapply Forall_impl; [exact E|].
    intros t ((Hlo & Hhi) & Ho & Hne & Hd & cs & Hcs & Hin).
    split; [lia|]. split; [now rewrite Nat.sub_0_r in Ho|].
    split; [assumption|]. split; [assumption|].
    split; [rewrite Hd; apply extractFrom_nullOrValid|].
    exists cs. split; [assumption|]. split; [assumption|].
    pose proof (forEachPattern_wellFormed _ _ _ _ Hcs) as Hwf.
    rewrite List.Forall_forall in Hwf. now apply Hwf.
Qed.

End FileFacts.

(** ** CSV exports *)

Section CsvFacts.
Import JsString Regex WhatsAppParser Props.
Variable newDate : string -> JsDate.Date.

Lemma parseCSVLines_total (lines : list string) :
  forall i, exists rows, parseCSVLines newDate lines i = Some rows.
Proof.
  induction lines as [|raw more IH]; intros i; cbn [parseCSVLines]; [eauto|].
  destruct (trim raw) as [|c r] eqn:E; [apply IH|].
  destruct (List.map _ (split "," (String c r))) as [|date [|time [|sender [|message rest]]]];
    try apply IH.
  destruct (findTransferPatterns_total message) as [found ->].
  destruct (IH (S i)) as [later ->]. eauto.
Qed.

Lemma parseCSVLines_rows (lines : list string) : forall i rows,
  parseCSVLines newDate lines i = Some rows ->
  Forall (fun r =>
            (i < lineNumber (transfer r) <= i + List.length lines)%nat /\
            exists date time message rest,
              List.map (fun col => trim (removeQuotes col))
                (split "," (trim (nth (lineNumber (transfer r) - 1 - i) lines EmptyString)))
                = date :: time :: sender r :: message :: rest /\
              originalText (transfer r)
                = date +:+ " " +:+ time +:+ " " +:+ sender r +:+ ": " +:+ message /\
              dateTime (transfer r) = parseCSVDateTime newDate date time /\
              exists candidates,
                findTransferPatterns message = Some candidates /\
                In (candidate (transfer r)) candidates)
         rows.
Proof.
  induction lines as [|raw more IH]; intros i rows H; cbn [parseCSVLines] in H.
  - injection H as <-. constructor.
  - assert (Hlater : forall later, parseCSVLines newDate more (S i) = Some later ->
      Forall (fun r =>
            (i < lineNumber (transfer r) <= i + List.length (raw :: more))%nat /\
            exists date time message rest,
              List.map (fun col => trim (removeQuotes col))
                (split "," (trim (nth (lineNumber (transfer r) - 1 - i) (raw :: more)
                                      EmptyString)))
                = date :: time :: sender r :: message :: rest /\
              originalText (transfer r)
                = date +:+ " " +:+ time +:+ " " +:+ sender r +:+ ": " +:+ message /\
              dateTime (transfer r) = parseCSVDateTime newDate date time /\
              exists candidates,
                findTransferPatterns message = Some candidates /\
                In (candidate (transfer r)) candidates) later).
    { intros later E. apply IH in E. eapply Forall_impl; [exact E|].
      intros r ((Hlo & Hhi) & date & time & message & rest & Hcols & Hrest).
      cbn [List.length]. split; [lia|].
      exists date, time, message, rest. split; [|exact Hrest].
      replace (lineNumber (transfer r) - 1 - i)%nat
        with (S (lineNumber (transfer r) - 1 - S i)) by lia.
      exact Hcols. }
    destruct (trim raw) as [|c r] eqn:Eline; [now apply Hlater|].
    destruct (List.map _ (split "," (String c r)))
      as [|date [|time [|sender' [|message rest]]]] eqn:Ecols;
      try now apply Hlater.
    destruct (findTransferPatterns message) as [found|] eqn:Ef; [|discriminate].
    destruct (parseCSVLines newDate more (S i)) as [later|] eqn:El; [|discriminate].
    injection H as <-. apply Forall_app. split; [|now apply Hlater].
    apply Forall_forall. intros row Hrow.
    apply list_elem_of_In, in_map_iff in Hrow as (cand & <- & Hc).
    cbn [lineNumber originalText dateTime candidate transfer sender List.length].
    split; [lia|].
    replace (S i - 1 - i)%nat with 0%nat by lia. cbn [nth]. rewrite Eline.
    exists date, time, message, rest. split; [exact Ecols|].
    split; [reflexivity|]. split; [reflexivity|].
    exists found. split; assumption.
Qed.

Lemma nth_tl {A : Type} (l : list A) (n : nat) (d : A) : nth n (tl l) d = nth (S n) l d.
Proof. destruct l as [|x r]; [now destruct n | reflexivity]. Qed.

Lemma split_nonempty (sep : ascii) (s : string) : split sep s <> [].
Proof.
  destruct s as [|c r]; cbn [split]; [discriminate|].
  destruct (Ascii.eqb c sep); [discriminate|]. destruct (split sep r); discriminate.
Qed.

(** parseCSV returns on every content.  Every transfer it returns comes from
    a line after the header (lineNumber is at least 2) that has at least four
    columns once split at the commas; the columns are stripped of double
    quotes and trimmed; the third is the sender, the fourth alone is searched
    for transfers, and the first two give dateTime (null or a valid date) and,
    with the other two, originalText.  No two returned transfers share a
    deduplication key. *)
Theorem parseCSV_rows (csvContent : string) :
  exists rows,
    parseCSV newDate csvContent = Some rows /\
    Forall (fun r =>
              (2 <= lineNumber (transfer r) <= List.length (split "010" csvContent))%nat /\
              nullOrValid (dateTime (transfer r)) /\
              exists date time message rest,
                List.map (fun col => trim (removeQuotes col))
                  (split ","
                     (trim (nth (lineNumber (transfer r) - 1) (split "010" csvContent)
                                EmptyString)))
                  = date :: time :: sender r :: message :: rest /\
                originalText (transfer r)
                  = date +:+ " " +:+ time +:+ " " +:+ sender r +:+ ": " +:+ message /\
                dateTime (transfer r) = parseCSVDateTime newDate date time /\
                exists candidates,
                  findTransferPatterns message = Some candidates /\
                  In (candidate (transfer r)) candidates /\
                  wellFormed (candidate (transfer r)))
           rows /\
    NoDup (List.map (fun r => dedupKey (transfer r)) rows).
Proof.
  unfold parseCSV.
  destruct (parseCSVLines_total (tl (split "010" csvContent)) 1) as [rows E].
  rewrite E. cbn [option_map]. eexists. split; [reflexivity|].
  unfold deduplicateCsvTransfers. split.
  - eapply sublist_Forall; [apply filterSeenCsv_sublist|].
    apply parseCSVLines_rows in E. eapply Forall_impl; [exact E|].
    intros r ((Hlo & Hhi) & date & time & message & rest & Hcols & Ho & Hd & cs & Hcs & Hin).
    assert (Hlen : S (List.length (tl (split "010" csvContent)))
                   = List.length (split "010" csvContent)).
    { pose proof (split_nonempty "010" csvContent).
      destruct (split "010" csvContent); [contradiction | reflexivity]. }
    split; [lia|].
    split; [rewrite Hd; apply parseCSVDateTime_nullOrValid|].
    exists date, time, message, rest.
    split.
    { rewrite nth_tl in Hcols.
      replace (S (lineNumber (transfer r) - 1 - 1)) with (lineNumber (transfer r) - 1)%nat
        in Hcols by lia.
      exact Hcols. }
    split; [assumption|]. split; [assumption|].
    exists cs. split; [assumption|]. split; [assumption|].
    pose proof (forEachPattern_wellFormed _ _ _ _ Hcs) as Hwf.
    rewrite List.Forall_forall in Hwf. now apply Hwf.
  - rewrite <- (map_map transfer dedupKey), filterSeenCsv_transfer.
    apply filterSeen_NoDup.
Qed.

Lemma split_first_line (sep : ascii) (header body : string) :
  forallb (fun c => negb (Ascii.eqb c sep)) header = true ->
  split sep (header +:+ String sep body) = header :: split sep body.
Proof.
  induction header as [|c h IH]; intros H.
  - change (EmptyString +:+ String sep body) with (String sep body).
    cbn [split]. now rewrite Ascii.eqb_refl.
  - cbn [forallb] in H. apply andb_true_iff in H as [Hc Hh].
    change (String c h +:+ String sep body) with (String c (h +:+ String sep body)).
    cbn [split]. apply negb_true_iff in Hc. rewrite Hc, (IH Hh). reflexivity.
Qed.

(** parseCSV does not read its first line: two contents that differ in the
    header line only give the same transfers. *)
Theorem parseCSV_header_skipped (header1 header2 body : string) :
  forallb (fun c => negb (Ascii.eqb c "010")) header1 = true ->
  forallb (fun c => negb (Ascii.eqb c "010")) header2 = true ->
  parseCSV newDate (header1 +:+ String "010" body)
  = parseCSV newDate (header2 +:+ String "010" body).
Proof.
  intros H1 H2. unfold parseCSV.
  now rewrite (split_first_line _ _ _ H1), (split_first_line _ _ _ H2).
Qed.

End CsvFacts.

(** The header may even read like a transfer. *)
Lemma parseCSV_header_skipped_witness :
  JsString.forallb (fun c => negb (Ascii.eqb c "010"))
    "a,b,c,le paso el carro ABC-123 a Juan" = true /\
  JsString.forallb (fun c => negb (Ascii.eqb c "010")) "fecha,hora,remitente,mensaje" = true /\
  WhatsAppParser.parseCSV (JsDate.parseIsoLocal 0)
    ("a,b,c,le paso el carro ABC-123 a Juan" +:+ String "010" "x,y,z,carro DEF-789 para Ana")
  = WhatsAppParser.parseCSV (JsDate.parseIsoLocal 0)
    ("fecha,hora,remitente,mensaje" +:+ String "010" "x,y,z,carro DEF-789 para Ana").
Proof.
  split; [reflexivity|]. split; [reflexivity|].
  apply (parseCSV_header_skipped (JsDate.parseIsoLocal 0)); reflexivity.
Defined.

(** ** The preview: confidence colours and the selection *)

Section PreviewFacts.
Import JsString WhatsAppParser Reconciler TransferPreview.

(** A score of the extractor is never shown in the error colour: it is at
    least 0.7, and the error colour starts below 0.6.  The first four
    patterns are always shown in the success colour. *)
Theorem getConfidenceColor_of_extractor (matchText : string) (patternIndex : nat) :
  getConfidenceColor (calculateConfidence matchText patternIndex) <> "text-error" /\
  Forall (fun k => getConfidenceColor (calculateConfidence matchText k) = "text-success")
         [0; 1; 2; 3]%nat.
Proof.
  unfold getConfidenceColor, calculateConfidence, keyWords. cbn [List.filter].
  destruct (includes "transferir" _), (includes "entrego" _),
           (includes "paso" _), (includes "recibe" _).
  all: split;
    [ destruct patternIndex as [|[|[|[|[|[|[|k]]]]]]]; vm_compute; discriminate
    | repeat constructor ].
Qed.

Lemma filterValid_Some (rows : list ReconciledTransfer) :
  filterValid (List.map Some rows) = Ok (List.filter isValid rows).
Proof.
  induction rows as [|t more IH]; cbn [List.map filterValid List.filter]; [reflexivity|].
  rewrite IH. reflexivity.
Qed.

Lemma lookup_seq_take {A : Type} (l : list A) : forall k,
  (k <= List.length l)%nat ->
  List.map (fun index => l !! index) (seq 0 k) = List.map Some (firstn k l).
Proof.
  induction l as [|x r IH]; intros k Hk.
  - cbn [List.length] in Hk. assert (k = 0)%nat as -> by lia. reflexivity.
  - destruct k as [|k]; [reflexivity|].
    cbn [seq List.map firstn]. f_equal.
    rewrite <- seq_shift, map_map. cbn [List.length] in Hk.
    rewrite <- IH by lia. reflexivity.
Qed.

Lemma filter_idem {A : Type} (p : A -> bool) (l : list A) :
  List.filter p (List.filter p l) = List.filter p l.
Proof.
  induction l as [|x r IH]; cbn [List.filter]; [reflexivity|].
  destruct (p x) eqn:E; [cbn [List.filter]; rewrite E; f_equal|]; exact IH.
Qed.

Lemma filter_length_le {A : Type} (p : A -> bool) (l : list A) :
  (List.length (List.filter p l) <= List.length l)%nat.
Proof.
  induction l as [|x r IH]; cbn [List.filter List.length]; [lia|].
  destruct (p x); cbn [List.length]; lia.
Qed.

(** The initial selection is made of the first k row indices, k being the
    number of valid transfers (the indices are taken after the filter), so a
    save right after the preview opens hands over the valid rows among the
    first k rows. *)
Theorem initialSelection_first_rows (transfers : list ReconciledTransfer) :
  initialSelection transfers = seq 0 (validTransfersCount transfers) /\
  handleSave (initialSelection transfers) transfers
  = Ok (List.filter isValid (firstn (validTransfersCount transfers) transfers)).
Proof.
  assert (E : initialSelection transfers = seq 0 (validTransfersCount transfers)).
  { unfold initialSelection, validTransfersCount.
    rewrite (imap_seq_0 _ (fun j => j)). apply map_id. }
  split; [exact E|].
  unfold handleSave. rewrite E, lookup_seq_take by apply filter_length_le.
  apply filterValid_Some.
Qed.

Lemma imap_pairs_lookup (rows : list ReconciledTransfer) : forall before : list ReconciledTransfer,
  List.map (fun index => (before ++ rows)%list !! index)
    (List.map snd
       (List.filter (fun p : ReconciledTransfer * nat => isValid (fst p))
          (imap (fun index transfer => (transfer, (List.length before + index)%nat)) rows)))
  = List.map Some (List.filter isValid rows).
Proof.
  induction rows as [|t more IH]; intros before; [reflexivity|].
  rewrite imap_cons. cbn [List.filter fst].
  assert (Hrest :
    List.map (fun index => (before ++ t :: more)%list !! index)
      (List.map snd
         (List.filter (fun p : ReconciledTransfer * nat => isValid (fst p))
            (imap ((fun index transfer => (transfer, (List.length before + index)%nat)) ∘ S)
               more)))
    = List.map Some (List.filter isValid more)).
  { specialize (IH (before ++ [t])%list).
    rewrite <- app_assoc in IH. cbn [app] in IH.
    rewrite <- IH. f_equal. f_equal. f_equal.
    apply imap_ext. intros i x _. cbn. rewrite List.length_app. cbn [List.length].
    f_equal. lia. }
  destruct (isValid t) eqn:Ev; [|exact Hrest].
  cbn [List.map snd]. rewrite Hrest. f_equal.
  rewrite Nat.add_0_r. apply list_lookup_middle. reflexivity.
Qed.

Lemma handleSelectAll_indices (rows : list ReconciledTransfer) : forall base i,
  In i (List.map snd
          (List.filter (fun p : ReconciledTransfer * nat => isValid (fst p))
             (imap (fun index transfer => (transfer, (base + index)%nat)) rows)))
  <-> exists t, rows !! (i - base)%nat = Some t /\ (base <= i)%nat /\ isValid t = true.
Proof.
  induction rows as [|t more IH]; intros base i.
  - cbn. split; [intros [] | intros (t & H & _); discriminate].
  - rewrite imap_cons. cbn [List.filter fst].
    assert (Hmore :
      In i (List.map snd
              (List.filter (fun p : ReconciledTransfer * nat => isValid (fst p))
                 (imap ((fun index transfer => (transfer, (base + index)%nat)) ∘ S) more)))
      <-> exists t', more !! (i - S base)%nat = Some t' /\ (S base <= i)%nat /\
                     isValid t' = true).
    { rewrite <- (IH (S base) i).
      replace (imap ((fun index transfer => (transfer, (base + index)%nat)) ∘ S) more)
        with (imap (fun index transfer => (transfer, (S base + index)%nat)) more);
        [reflexivity|].
      apply imap_ext. intros j x _. cbn. f_equal. lia. }
    destruct (isValid t) eqn:Ev.
    + cbn [List.map snd In]. rewrite Hmore, Nat.add_0_r. split.
      * intros [<- | (t' & Hl & Hb & Hv)].
        -- exists t. rewrite Nat.sub_diag. repeat split; [lia | assumption].
        -- exists t'. replace (i - base)%nat with (S (i - S base)) by lia.
           repeat split; [assumption | lia | assumption].
      * intros (t' & Hl & Hb & Hv).
        destruct (Nat.eq_dec base i) as [E | Hne]; [now left | right].
        exists t'. replace (i - base)%nat with (S (i - S base)) in Hl by lia.
        repeat split; [assumption | lia | assumption].
    + rewrite Hmore. split.
      * intros (t' & Hl & Hb & Hv). exists t'.
        replace (i - base)%nat with (S (i - S base)) by lia.
        repeat split; [assumption | lia | assumption].
      * intros (t' & Hl & Hb & Hv).
        destruct (Nat.eq_dec base i) as [E | Hne].
        -- subst i. rewrite Nat.sub_diag in Hl. cbn in Hl. congruence.
        -- exists t'. replace (i - base)%nat with (S (i - S base)) in Hl by lia.
           repeat split; [assumption | lia | assumption].
Qed.

(** "Select valid" selects exactly the indices of the valid rows, and a save
    after it hands over every valid transfer, in the order of the rows. *)
Theorem handleSelectAll_saves_valid (transfers : list ReconciledTransfer) :
  (forall i, In i (handleSelectAll transfers) <->
             exists t, transfers !! i = Some t /\ isValid t = true) /\
  handleSave (handleSelectAll transfers) transfers = Ok (List.filter isValid transfers).
Proof.
  split.
  - intros i. unfold handleSelectAll.
    rewrite (handleSelectAll_indices transfers 0 i), Nat.sub_0_r.
    split; intros (t & Hl & H); exists t; [tauto | repeat split; [assumption | lia | assumption]].
  - unfold handleSave, handleSelectAll.
    pose proof (imap_pairs_lookup transfers []) as H.
    cbn [app List.length Nat.add] in H. rewrite H, filterValid_Some.
    f_equal. apply filter_idem.
Qed.

Lemma handleSave_outcome (selectedTransfers : list nat)
  (transfers : list ReconciledTransfer) :
  match handleSave selectedTransfers transfers with
  | Ok saved =>
      Forall (fun index => (index < List.length transfers)%nat) selectedTransfers /\
      saved = List.filter isValid (omap (fun index => transfers !! index) selectedTransfers) /\
      Forall (fun t => isValid t = true /\ In t transfers) saved
  | Throw _ =>
      Exists (fun index => (List.length transfers <= index)%nat) selectedTransfers
  end.
Proof.
  unfold handleSave.
  induction selectedTransfers as [|i more IH]; cbn [List.map filterValid].
  - repeat split; constructor.
  - assert (Ho : omap (fun index => transfers !! index) (i :: more)
                 = match transfers !! i with
                   | Some t => t :: omap (fun index => transfers !! index) more
                   | None => omap (fun index => transfers !! index) more
                   end) by reflexivity.
    rewrite Ho. clear Ho.
    destruct (transfers !! i) as [t|] eqn:El.
    + destruct (filterValid _) as [kept|e].
      * destruct IH as (Hr & -> & Hv). split.
        { constructor; [|assumption]. now apply lookup_lt_Some in El. }
        cbn [List.filter]. destruct (isValid t) eqn:Ev; split; try reflexivity; try assumption.
        constructor; [|assumption]. split; [assumption|].
        apply list_elem_of_In. now apply list_elem_of_lookup_2 in El.
      * now apply Exists_cons_tl.
    + apply Exists_cons_hd. now apply lookup_ge_None in El.
Qed.

(** A save throws exactly when the selection holds an index outside the
    rows; otherwise it hands over the valid transfers among the selected
    rows, in the order of the selection, and nothing else. *)
Theorem handleSave_valid_only (selectedTransfers : list nat)
  (transfers : list ReconciledTransfer) :
  match handleSave selectedTransfers transfers with
  | Ok saved =>
      Forall (fun index => (index < List.length transfers)%nat) selectedTransfers /\
      saved = List.filter isValid (omap (fun index => transfers !! index) selectedTransfers) /\
      Forall (fun t => isValid t = true /\ In t transfers) saved
  | Throw _ =>
      Exists (fun index => (List.length transfers <= index)%nat) selectedTransfers
  end.
Proof. exact (handleSave_outcome selectedTransfers transfers). Qed.

Lemma existsb_eqb_nat (x : nat) (l : list nat) : existsb (Nat.eqb x) l = true <-> In x l.
Proof.
  rewrite existsb_exists. split.
  - intros (y & Hy & E). apply Nat.eqb_eq in E. now subst.
  - intros H. exists x. split; [assumption | apply Nat.eqb_refl].
Qed.

(** A toggle flips the membership of its index and of no other, and a
    selection without repetitions stays without repetitions. *)
Theorem handleTransferToggle_flips (index : nat) (prev : list nat) :
  (In index (handleTransferToggle index prev) <-> ~ In index prev) /\
  (forall j, j <> index -> (In j (handleTransferToggle index prev) <-> In j prev)) /\
  (NoDup prev -> NoDup (handleTransferToggle index prev)).
Proof.
  unfold handleTransferToggle.
  destruct (existsb (Nat.eqb index) prev) eqn:E.
  - apply existsb_eqb_nat in E. split; [|split].
    + split; [|intros H; contradiction].
      intros H. apply filter_In in H as [_ H].
      rewrite Nat.eqb_refl in H. discriminate.
    + intros j Hj. split.
      * intros H. now apply filter_In in H.
      * intros H. apply filter_In. split; [assumption|].
        apply negb_true_iff, Nat.eqb_neq. assumption.
    + intros Hnd. apply NoDup_ListNoDup. apply List.NoDup_filter.
      now apply NoDup_ListNoDup.
  - assert (Hout : ~ In index prev).
    { intros H. apply existsb_eqb_nat in H. congruence. }
    split; [|split].
    + split; [intros _; exact Hout|].
      intros _. apply in_or_app. right. now left.
    + intros j Hj. split.
      * intros H. apply in_app_or in H as [H | [H | []]]; [assumption | congruence].
      * intros H. apply in_or_app. now left.
    + intros Hnd. apply NoDup_app. repeat split; [assumption | | apply NoDup_singleton].
      intros x Hx Hx'. apply list_elem_of_singleton in Hx'. subst x.
      apply Hout. now apply list_elem_of_In.
Qed.

End PreviewFacts.

(** ** File digests and the parts of a digest *)

Section FileHashFacts.
Import JsString JsNumber DataHashService Props.

Lemma crlfToLf_cons (c : ascii) (r : string) :
  code c <> 13 -> crlfToLf (String c r) = String c (crlfToLf r).
Proof.
  intros Hc. cbn [crlfToLf]. destruct r as [|c' r']; [reflexivity|].
  apply Z.eqb_neq in Hc. now rewrite Hc.
Qed.

Lemma crlfToLf_withCrLf (text : string) :
  forallb noCr text = true -> crlfToLf (withCrLf text) = text.
Proof.
  induction text as [|c r IH]; intros H; [reflexivity|].
  cbn [forallb] in H. apply andb_true_iff in H as [Hc Hr].
  unfold noCr in Hc. apply negb_true_iff, Z.eqb_neq in Hc.
  cbn [withCrLf]. destruct (code c =? 10) eqn:E10.
  - cbn [crlfToLf]. change (code (chr 13) =? 13) with true. rewrite E10. cbn [andb].
    now rewrite IH.
  - rewrite crlfToLf_cons by assumption. now rewrite IH.
Qed.

Lemma crToLf_noCr (text : string) : forallb noCr text = true -> crToLf text = text.
Proof.
  induction text as [|c r IH]; intros H; [reflexivity|].
  cbn [forallb] in H. apply andb_true_iff in H as [Hc Hr].
  unfold noCr in Hc. apply negb_true_iff in Hc.
  cbn [crToLf]. now rewrite Hc, IH.
Qed.

Lemma crlfToLf_noCr (text : string) : forallb noCr text = true -> crlfToLf text = text.
Proof.
  induction text as [|c r IH]; intros H; [reflexivity|].
  cbn [forallb] in H. apply andb_true_iff in H as [Hc Hr].
  unfold noCr in Hc. apply negb_true_iff, Z.eqb_neq in Hc.
  rewrite crlfToLf_cons by assumption. now rewrite IH.
Qed.

Lemma crlfToLf_withCr (text : string) : crlfToLf (withCr text) = withCr text.
Proof.
  induction text as [|c r IH]; [reflexivity|].
  cbn [withCr]. cbn [crlfToLf]. fold crlfToLf.
  destruct (withCr r) as [|c' r'] eqn:Er; [reflexivity|].
  assert (Hc' : (code c' =? 10) = false).
  { destruct r as [|x r0]; [discriminate|]. cbn [withCr] in Er. injection Er as <- _.
    destruct (code x =? 10) eqn:Ex; [reflexivity | exact Ex]. }
  rewrite Hc', andb_false_r. now rewrite IH.
Qed.

Lemma crToLf_withCr (text : string) : forallb noCr text = true -> crToLf (withCr text) = text.
Proof.
  induction text as [|c r IH]; intros H; [reflexivity|].
  cbn [forallb] in H. apply andb_true_iff in H as [Hc Hr].
  unfold noCr in Hc. apply negb_true_iff in Hc.
  cbn [withCr crToLf]. rewrite (IH Hr). f_equal.
  destruct (code c =? 10) eqn:E10.
  - change (code (chr 13) =? 13) with true. cbn. apply Z.eqb_eq in E10.
    apply code_inj. exact (eq_sym E10).
  - now rewrite Hc.
Qed.

(** The digest of a file does not depend on its line ends: a text without
    carriage returns, the same text with a carriage return before every line
    feed and the same text with carriage returns for line feeds have one
    digest under one name. *)
Theorem generateFileHash_line_ends (text fileName : string) :
  forallb noCr text = true ->
  generateFileHash (Some (withCrLf text)) fileName = generateFileHash (Some text) fileName /\
  generateFileHash (Some (withCr text)) fileName = generateFileHash (Some text) fileName.
Proof.
  intros H. unfold generateFileHash, _normalizeFileContent.
  rewrite (crlfToLf_withCrLf _ H), crlfToLf_withCr, (crToLf_withCr _ H),
    (crlfToLf_noCr _ H), (crToLf_noCr _ H).
  split; reflexivity.
Qed.

(** *** The normal form of a content *)

Lemma isWhiteSpace_lowerChar (c : ascii) : isWhiteSpace (lowerChar c) = isWhiteSpace c.
Proof. destruct c as [[] [] [] [] [] [] [] []]; vm_compute; reflexivity. Qed.

Lemma lowerChar_idem (c : ascii) : lowerChar (lowerChar c) = lowerChar c.
Proof. destruct c as [[] [] [] [] [] [] [] []]; vm_compute; reflexivity. Qed.

Lemma lowerChar_units (c : ascii) :
  noCr c = true -> noCr (lowerChar c) && negb (isUpper (lowerChar c)) = true.
Proof. destruct c as [[] [] [] [] [] [] [] []]; vm_compute; auto. Qed.

Lemma toLowerCase_idem (s : string) : toLowerCase (toLowerCase s) = toLowerCase s.
Proof.
  induction s as [|c r IH]; cbn [toLowerCase]; [reflexivity|].
  now rewrite lowerChar_idem, IH.
Qed.

Lemma trimStart_toLowerCase (s : string) :
  trimStart (toLowerCase s) = toLowerCase (trimStart s).
Proof.
  induction s as [|c r IH]; cbn [toLowerCase trimStart]; [reflexivity|].
  rewrite isWhiteSpace_lowerChar. destruct (isWhiteSpace c); [exact IH | reflexivity].
Qed.

Lemma trimEnd_toLowerCase (s : string) :
  trimEnd (toLowerCase s) = toLowerCase (trimEnd s).
Proof.
  induction s as [|c r IH]; cbn [toLowerCase trimEnd]; [reflexivity|].
  rewrite IH, isWhiteSpace_lowerChar.
  destruct (trimEnd r) as [|c' r']; cbn [toLowerCase];
    [destruct (isWhiteSpace c) |]; reflexivity.
Qed.

Lemma trim_toLowerCase (s : string) : trim (toLowerCase s) = toLowerCase (trim s).
Proof. unfold trim. now rewrite trimStart_toLowerCase, trimEnd_toLowerCase. Qed.

Lemma trimStart_startsClean (s : string) : startsClean (trimStart s).
Proof.
  induction s as [|c r IH]; cbn [trimStart]; [exact I|].
  destruct (isWhiteSpace c) eqn:E; [exact IH | exact E].
Qed.

Lemma startsClean_trimStart (s : string) : startsClean s -> trimStart s = s.
Proof. destruct s as [|c r]; [reflexivity|]. cbn. now intros ->. Qed.

Lemma trimEnd_startsClean (s : string) : startsClean s -> startsClean (trimEnd s).
Proof.
  destruct s as [|c r]; [trivial|]. cbn [startsClean trimEnd]. intros H.
  destruct (trimEnd r); [rewrite H|]; exact H.
Qed.

Lemma trimEnd_cons (c : ascii) (r : string) :
  trimEnd (String c r)
  = match trimEnd r with
    | EmptyString => if isWhiteSpace c then EmptyString else String c EmptyString
    | String c' r' => String c (String c' r')
    end.
Proof. reflexivity. Qed.

Lemma trimEnd_idem (s : string) : trimEnd (trimEnd s) = trimEnd s.
Proof.
  induction s as [|c r IH]; [reflexivity|].
  rewrite trimEnd_cons.
  destruct (trimEnd r) as [|c' r'] eqn:E.
  - destruct (isWhiteSpace c) eqn:Ew; [reflexivity|]. cbn [trimEnd]. now rewrite Ew.
  - rewrite trimEnd_cons, IH. reflexivity.
Qed.

Lemma trim_idem (s : string) : trim (trim s) = trim s.
Proof.
  unfold trim.
  rewrite (startsClean_trimStart (trimEnd (trimStart s)))
    by apply trimEnd_startsClean, trimStart_startsClean.
  apply trimEnd_idem.
Qed.

Lemma crToLf_noCr_units (content : string) : forallb noCr (crToLf content) = true.
Proof.
  induction content as [|c r IH]; cbn [crToLf forallb]; [reflexivity|].
  rewrite IH, andb_true_r. destruct (code c =? 13) eqn:E; [reflexivity|].
  unfold noCr. now rewrite E.
Qed.

Lemma toLowerCase_units (s : string) :
  forallb noCr s = true ->
  forallb (fun c => noCr c && negb (isUpper c)) (toLowerCase s) = true.
Proof.
  induction s as [|c r IH]; cbn [toLowerCase forallb]; [reflexivity|].
  intros H. apply andb_true_iff in H as [Hc Hr].
  now rewrite (lowerChar_units c Hc), IH.
Qed.

Lemma forallb_weaken (p q : ascii -> bool) (s : string) :
  (forall c, p c = true -> q c = true) -> forallb p s = true -> forallb q s = true.
Proof.
  intros Himp. induction s as [|c r IH]; cbn [forallb]; [reflexivity|].
  intros H. apply andb_true_iff in H as [Hc Hr]. now rewrite (Himp c Hc), IH.
Qed.

(** A normalised content holds no carriage return and no upper-case ASCII
    letter, has no white space at either end, and is left as it is by a
    second normalisation; a content that is not a string normalises to the
    empty string. *)
Theorem _normalizeFileContent_normal (content : option string) :
  forallb (fun c => noCr c && negb (isUpper c)) (_normalizeFileContent content) = true /\
  trim (_normalizeFileContent content) = _normalizeFileContent content /\
  _normalizeFileContent (Some (_normalizeFileContent content))
  = _normalizeFileContent content /\
  _normalizeFileContent None = EmptyString.
Proof.
  destruct content as [content|]; [|repeat split].
  assert (Hunits : forallb (fun c => noCr c && negb (isUpper c))
                     (_normalizeFileContent (Some content)) = true).
  { unfold _normalizeFileContent. apply toLowerCase_units, forallb_trim, crToLf_noCr_units. }
  split; [exact Hunits|].
  split.
  - unfold _normalizeFileContent. now rewrite trim_toLowerCase, trim_idem.
  - split; [|reflexivity].
    assert (Hcr : forallb noCr (_normalizeFileContent (Some content)) = true).
    { eapply forallb_weaken; [|exact Hunits].
      intros c H. now apply andb_true_iff in H as [H _]. }
    unfold _normalizeFileContent at 1.
    rewrite (crlfToLf_noCr _ Hcr), (crToLf_noCr _ Hcr).
    unfold _normalizeFileContent.
    now rewrite trim_toLowerCase, trim_idem, toLowerCase_idem.
Qed.

(** *** The parts of a digest *)

Lemma take_app_length (a b : string) : take (String.length a) (a +:+ b) = a.
Proof.
  induction a as [|c r IH]; [now destruct b|].
  change (String c r +:+ b) with (String c (r +:+ b)).
  cbn [String.length take]. now rewrite IH.
Qed.

Lemma drop_app_length (a b : string) : drop (String.length a) (a +:+ b) = b.
Proof.
  induction a as [|c r IH]; [reflexivity|].
  change (String c r +:+ b) with (String c (r +:+ b)).
  cbn [String.length drop]. exact IH.
Qed.

(** getHashInfo accepts every digest the service computes, reports ten
    characters, and cuts the digest back into its two numerals: read as
    hexadecimal, the hash part is the absolute djb2 value of the text and the
    checksum part is the sum of its code units modulo 256. *)
Theorem getHashInfo_reads_back (str : string) :
  exists hashPart checksumPart,
    getHashInfo (_calculateHash str) = ValidHash "djb2" 10 hashPart checksumPart /\
    hashPart +:+ checksumPart = _calculateHash str /\
    fromHex hashPart = Z.abs (hashLoop 5381 str) /\
    fromHex checksumPart = sumLoop 0 str mod 256.
Proof.
  destruct (_calculateHash_parts str) as (hashStr & checksum & E & L1 & L2 & V1 & V2).
  exists hashStr, checksum. split; [|now repeat split].
  unfold getHashInfo. rewrite _calculateHash_valid. cbn [negb].
  assert (T1 : take 8 (hashStr +:+ checksum) = hashStr)
    by (rewrite <- L1; apply take_app_length).
  assert (T2 : drop 8 (hashStr +:+ checksum) = checksum)
    by (rewrite <- L1; apply drop_app_length).
  assert (T3 : take 2 checksum = checksum) by (rewrite <- L2; apply take_all).
  rewrite E, length_app, L1, L2, T1, T2, T3. reflexivity.
Qed.

(** What getHashInfo answers on any string: a string of ten lower-case
    hexadecimal digits is cut after the eighth, anything else is refused. *)
Theorem getHashInfo_cases (hash : string) :
  match getHashInfo hash with
  | ValidHash algorithm length hashPart checksumPart =>
      algorithm = "djb2" /\ length = 10%nat /\
      hashPart +:+ checksumPart = hash /\
      String.length hashPart = 8%nat /\ String.length checksumPart = 2%nat /\
      forallb isHexLower hash = true
  | InvalidHash error =>
      error = "Invalid hash format" /\
      (String.length hash <> 10%nat \/ forallb isHexLower hash = false)
  end.
Proof.
  unfold getHashInfo. rewrite isValidHash_spec.
  destruct (String.length hash =? 10)%nat eqn:El; cbn [andb negb].
  - apply Nat.eqb_eq in El.
    destruct (forallb isHexLower hash) eqn:Eh; cbn [negb]; [|split; [reflexivity | now right]].
    do 10 (destruct hash as [|? hash]; [discriminate|]).
    destruct hash; [|discriminate]. repeat split.
  - split; [reflexivity|]. left. now apply Nat.eqb_neq.
Qed.

End FileHashFacts.

(** Three lines under the three conventions. *)
Lemma generateFileHash_line_ends_witness :
  JsString.forallb Props.noCr ("le paso el carro" +:+ String "010" "ABC-123 a Juan") = true /\
  DataHashService.generateFileHash
    (Some (Props.withCrLf ("le paso el carro" +:+ String "010" "ABC-123 a Juan"))) "chat.txt"
  = DataHashService.generateFileHash
      (Some ("le paso el carro" +:+ String "010" "ABC-123 a Juan")) "chat.txt" /\
  DataHashService.generateFileHash
    (Some (Props.withCr ("le paso el carro" +:+ String "010" "ABC-123 a Juan"))) "chat.txt"
  = DataHashService.generateFileHash
      (Some ("le paso el carro" +:+ String "010" "ABC-123 a Juan")) "chat.txt".
Proof.
  split; [reflexivity|].
  apply (generateFileHash_line_ends
           ("le paso el carro" +:+ String "010" "ABC-123 a Juan") "chat.txt").
  reflexivity.
Defined.

(** ** The alert of a date, the periodic check and the configuration *)

Section SchedulerFacts.
Import JsString AlertService.

Lemma _checkAlertSent_run (dateStr : string) (w : World) :
  _checkAlertSent dateStr w
  = (Ok (persistenceUp w &&
         negb (bool_decide (alertDocs dateStr DAILY_PROCESSING w = ∅))), w).
Proof.
  unfold _checkAlertSent, tryCatch, bind, querySentAlertsEmpty, ret.
  destruct (persistenceUp w); reflexivity.
Qed.

Lemma _recordAlertSent_run (dateStr : string) (w : World) :
  exists w', _recordAlertSent dateStr w = (Ok tt, w') /\
             delivered w' = delivered w /\ dispatched w' = dispatched w /\
             pending_emails w' = pending_emails w /\
             daily_processing w' = daily_processing w.
Proof.
  unfold _recordAlertSent, tryCatch, bind, get, setSentAlert, ret.
  destruct (persistenceUp w); eexists; (split; [reflexivity|]); repeat split.
Qed.

Lemma _saveForManualSending_delivered (emailData : EmailData) (w : World) :
  exists w', _saveForManualSending emailData w = (Ok tt, w') /\
             delivered w' = delivered w /\ daily_processing w' = daily_processing w.
Proof.
  unfold _saveForManualSending, tryCatch, setPendingEmail, ret.
  destruct (persistenceUp w); eexists; (split; [reflexivity|]); split; reflexivity.
Qed.

(** What [sendAlert] delivers: one notification when the data are valid, the
    service is configured and EmailJS answers; nothing otherwise. *)
Lemma sendAlert_delivery (emailData : EmailData) (w : World) :
  exists success w',
    sendAlert emailData w = (Ok success, w') /\
    daily_processing w' = daily_processing w /\
    (emailConfigured w = false \/ emailJsUp w = false ->
     success = false /\ delivered w' = delivered w) /\
    (fst (_validateEmailData emailData w) = Ok tt ->
     emailConfigured w = true -> emailJsUp w = true ->
     success = true /\ delivered w' = (delivered w ++ [emailData])%list).
Proof.
  unfold sendAlert, bind, noteDispatch, tryCatch.
  set (w0 := mkWorld _ _ _ _ _ _ _ _ _ _).
  assert (Hv0 : fst (_validateEmailData emailData w0) = fst (_validateEmailData emailData w)).
  { unfold _validateEmailData, throw, ret.
    repeat (destruct (String.eqb _ _); [reflexivity|]).
    destruct (Regex.exec _ _ _ _); [|reflexivity].
    destruct (existsb _ _); reflexivity. }
  pose proof (_validateEmailData_world emailData w0) as Hw.
  destruct (_validateEmailData emailData w0) as [[[]|e] wv]; cbn [fst snd] in Hv0, Hw; subst wv.
  - unfold get. change (emailConfigured w0) with (emailConfigured w).
    destruct (emailConfigured w) eqn:Hc.
    + unfold _sendViaEmailJS. change (emailJsUp w0) with (emailJsUp w).
      destruct (emailJsUp w) eqn:Hj.
      * eexists _, _. split; [reflexivity|]. split; [reflexivity|].
        split; [intros [H | H]; discriminate|]. intros _ _ _. split; reflexivity.
      * destruct (_saveForManualSending_delivered emailData w0) as (w' & -> & Hd & Hl).
        eexists _, _. split; [reflexivity|]. split; [exact Hl|].
        split; [intros _; split; [reflexivity | exact Hd]|]. intros _ _ H. discriminate.
    + destruct (_saveForManualSending_delivered emailData w0) as (w' & -> & Hd & Hl).
      eexists _, _. split; [reflexivity|]. split; [exact Hl|].
      split; [intros _; split; [reflexivity | exact Hd]|]. intros _ H. discriminate.
  - destruct (_saveForManualSending_delivered emailData w0) as (w' & -> & Hd & Hl).
    eexists _, _. split; [reflexivity|]. split; [exact Hl|].
    split; [intros _; split; [reflexivity | exact Hd]|].
    intros H. rewrite <- Hv0 in H. discriminate.
Qed.

Lemma alertEmail_valid (dateStr today : string) (w : World) :
  fst (_validateEmailData
         (mkEmailData DAILY_PROCESSING ADMIN_EMAIL
            ("ALERTA: Procesamiento diario pendiente - " +:+ dateStr) dateStr today) w)
  = Ok tt.
Proof.
  unfold _validateEmailData. cbn [e_type e_recipient e_subject].
  change (String.eqb DAILY_PROCESSING EmptyString) with false.
  change (String.eqb ADMIN_EMAIL EmptyString) with false.
  change (String.eqb ("ALERTA: Procesamiento diario pendiente - " +:+ dateStr) EmptyString)
    with false.
  cbv iota.
  destruct (Regex.exec false emailRegex ADMIN_EMAIL 0) eqn:E; [|vm_compute in E; discriminate].
  reflexivity.
Qed.

Lemma sendDailyAlert_outcome (t : Z) (w : World) :
  exists sent w',
    sendDailyAlert (JsDate.Valid t) w = (Ok sent, w') /\
    (sent = true <->
       persistenceUp w = false \/
       alertDocs (_formatDateString t) DAILY_PROCESSING w = ∅) /\
    (sent = false -> w' = w) /\
    (emailConfigured w = false \/ emailJsUp w = false -> delivered w' = delivered w) /\
    (sent = true -> emailConfigured w = true -> emailJsUp w = true ->
     exists emailData, delivered w' = (delivered w ++ [emailData])%list) /\
    daily_processing w' = daily_processing w.
Proof.
  unfold sendDailyAlert, tryCatch, bind, _validateDate, ret.
  rewrite _checkAlertSent_run.
  destruct (persistenceUp w &&
            negb (bool_decide (alertDocs (_formatDateString t) DAILY_PROCESSING w = ∅)))
    eqn:Esent.
  - apply andb_true_iff in Esent as [Hup Hdocs].
    apply negb_true_iff, bool_decide_eq_false in Hdocs.
    exists false, w. split; [reflexivity|].
    split; [split; [discriminate | intros [H | H]; congruence]|].
    split; [reflexivity|]. split; [reflexivity|]. split; [discriminate | reflexivity].
  - unfold _buildAlertEmailData, bind, get, ret.
    match goal with |- context [sendAlert ?e w] =>
      destruct (sendAlert_delivery e w) as (success & w1 & -> & Hl1 & Hno & Hyes);
      pose proof (alertEmail_valid (_formatDateString t) (_formatDateString (clock w)) w)
        as Hvalid
    end.
    destruct (_recordAlertSent_run (_formatDateString t) w1) as (w2 & -> & Hd & _ & _ & Hl2).
    exists true, w2. split; [reflexivity|].
    split.
    { split; [|reflexivity]. intros _.
      apply andb_false_iff in Esent as [H | H]; [now left | right].
      apply negb_false_iff, bool_decide_eq_true in H. exact H. }
    split; [discriminate|].
    split; [intros H; rewrite Hd; now apply Hno|].
    split; [|congruence].
    intros _ Hc Hj. eexists. rewrite Hd. now apply Hyes.
Qed.

(** sendDailyAlert never throws on a valid date.  Its answer tells whether an
    alert record for the date was found (false) or not (true, also when the
    records cannot be read), not whether a mail went out: with the mail
    service unconfigured or unreachable the answer is still true and nothing
    is delivered; with both in order one mail is delivered.  An answer of
    false leaves everything as it was. *)
Theorem sendDailyAlert_answer (t : Z) (w : World) :
  exists sent w',
    sendDailyAlert (JsDate.Valid t) w = (Ok sent, w') /\
    (sent = true <->
       persistenceUp w = false \/
       alertDocs (_formatDateString t) DAILY_PROCESSING w = ∅) /\
    (sent = false -> w' = w) /\
    (emailConfigured w = false \/ emailJsUp w = false -> delivered w' = delivered w) /\
    (sent = true -> emailConfigured w = true -> emailJsUp w = true ->
     exists emailData, delivered w' = (delivered w ++ [emailData])%list) /\
    daily_processing w' = daily_processing w.
Proof. exact (sendDailyAlert_outcome t w). Qed.

Lemma checkDailyProcessing_returns (date : JsDate.Date) (w : World) :
  exists check, checkDailyProcessing date w = (Ok check, w).
Proof.
  destruct date as [t|].
  - destruct (persistenceUp w) eqn:Hup.
    + rewrite checkDailyProcessing_run by assumption. eauto.
    + destruct (checkDailyProcessing_error (JsDate.Valid t) w) as [e He]; [now right|]. eauto.
  - destruct (checkDailyProcessing_error JsDate.Invalid w) as [e He]; [now left|]. eauto.
Qed.

Lemma _checkAndSendForDate_returns (t : Z) (w : World) :
  exists sent w', _checkAndSendForDate (JsDate.Valid t) w = (Ok sent, w').
Proof.
  unfold _checkAndSendForDate, bind.
  destruct (checkDailyProcessing_returns (JsDate.Valid t) w) as [check ->].
  destruct (negb (processed check) && shouldAlert check); [|unfold ret; eauto].
  destruct (sendDailyAlert_outcome t w) as (sent & w' & -> & _). eauto.
Qed.

(** A check of a date with the store reachable: the ledger stays as it is,
    and the only alert record it can add is the one of its own date. *)
Lemma _checkAndSendForDate_online (t : Z) (w : World) :
  persistenceUp w = true ->
  exists sent w',
    _checkAndSendForDate (JsDate.Valid t) w = (Ok sent, w') /\
    clock w' = clock w /\ localTZA w' = localTZA w /\
    daily_processing w' = daily_processing w /\ persistenceUp w' = true /\
    (sent_alerts w' = sent_alerts w \/
     sent_alerts w'
     = <["daily_" +:+ _formatDateString t :=
           mkAlertRecord (_formatDateString t) DAILY_PROCESSING (clock w) ADMIN_EMAIL]>
         (sent_alerts w)).
Proof.
  intros Hup. unfold _checkAndSendForDate, bind.
  rewrite checkDailyProcessing_run by assumption.
  destruct (latest _) as [last|]; cbn [processed shouldAlert negb andb].
  - unfold ret. eexists _, _. split; [reflexivity|]. repeat split; auto.
  - destruct (existsb _ _ && _).
    + destruct (decide (alertDocs (_formatDateString t) DAILY_PROCESSING w = ∅)) as [He | Hne].
      * destruct (sendDailyAlert_fresh t w Hup He)
          as (w' & emailData & -> & Hc & Hz & Hdp & Hp & Hsa & _).
        eexists _, _. split; [reflexivity|]. repeat split; auto.
      * rewrite (sendDailyAlert_already t w Hup Hne).
        eexists _, _. split; [reflexivity|]. repeat split; auto.
    + unfold ret. eexists _, _. split; [reflexivity|]. repeat split; auto.
Qed.

(** A check of a date that is due: nothing recorded for it, a working day,
    the clock past the date, no alert record yet.  The alert goes out and is
    recorded. *)
Lemma _checkAndSendForDate_due (t : Z) (w : World) :
  persistenceUp w = true ->
  recordsFor (_formatDateString t) w = [] ->
  existsb (Z.eqb (getDay w t)) ALERT_DAYS = true ->
  t < clock w ->
  alertDocs (_formatDateString t) DAILY_PROCESSING w = ∅ ->
  exists w',
    _checkAndSendForDate (JsDate.Valid t) w = (Ok true, w') /\
    alertDocs (_formatDateString t) DAILY_PROCESSING w' <> ∅.
Proof.
  intros Hup Hrec Hday Hpast Hnone. unfold _checkAndSendForDate, bind.
  rewrite checkDailyProcessing_run, Hrec, Hday by assumption.
  replace (0 <? clock w - t) with true by (symmetry; apply Z.ltb_lt; lia).
  cbn [latest fold_right option_map processed shouldAlert negb andb].
  destruct (sendDailyAlert_fresh t w Hup Hnone)
    as (w' & emailData & -> & _ & _ & _ & _ & Hsa & _).
  exists w'. split; [reflexivity|].
  unfold alertDocs. rewrite Hsa.
  rewrite map_filter_insert_True by apply isAlertFor_own.
  apply insert_non_empty.
Qed.

Lemma alertDocs_other_date (dateStr other docId : string) (sentAt : Z) (w w' : World) :
  other <> dateStr ->
  alertDocs dateStr DAILY_PROCESSING w = ∅ ->
  sent_alerts w' = sent_alerts w \/
  sent_alerts w'
  = <[docId := mkAlertRecord other DAILY_PROCESSING sentAt ADMIN_EMAIL]> (sent_alerts w) ->
  alertDocs dateStr DAILY_PROCESSING w' = ∅.
Proof.
  intros Hne Hnone [H | H]; unfold alertDocs in *; rewrite H; [assumption|].
  rewrite map_filter_insert_False.
  - rewrite map_filter_delete, Hnone. apply delete_empty.
  - cbn [snd]. unfold isAlertFor. cbn [ar_date].
    apply String.eqb_neq in Hne. rewrite Hne. discriminate.
Qed.

Lemma checkAndSendDailyAlerts_outcome (UTC : Z -> Z) (awaitYesterday awaitToday : Z)
  (w : World) :
  exists results w',
    checkAndSendDailyAlerts UTC awaitYesterday awaitToday w = (Ok results, w') /\
    errors results = [] /\
    alertsChecked results = (if _shouldCheckToday w (clock w) then 2 else 1) /\
    0 <= alertsSent results <= alertsChecked results /\
    (persistenceUp w = true ->
     _shouldCheckToday w (clock w) = true ->
     0 < awaitYesterday + awaitToday ->
     recordsFor (_formatDateString (clock w)) w = [] ->
     alertDocs (_formatDateString (clock w)) DAILY_PROCESSING w = ∅ ->
     _formatDateString (dayBefore UTC w (clock w)) <> _formatDateString (clock w) ->
     1 <= alertsSent results /\
     alertDocs (_formatDateString (clock w)) DAILY_PROCESSING w' <> ∅).
Proof.
  unfold checkAndSendDailyAlerts, bind, get, tryCatch, elapse.
  destruct (_checkAndSendForDate_returns (dayBefore UTC w (clock w)) (advance awaitYesterday w))
    as (s1 & w1 & E1).
  rewrite E1. unfold ret at 1.
  destruct (_shouldCheckToday w (clock w)) eqn:Etoday.
  - destruct (_checkAndSendForDate_returns (clock w) (advance awaitToday w1)) as (s2 & w2 & E2).
    rewrite E2. unfold ret. eexists _, _. split; [reflexivity|].
    cbn [errors alertsChecked alertsSent].
    split; [reflexivity|]. split; [reflexivity|].
    split; [destruct s1, s2; lia|].
    intros Hup _ Hpos Hrec Hnone Hne.
    destruct (_checkAndSendForDate_online (dayBefore UTC w (clock w))
                (advance awaitYesterday w) Hup)
      as (s1' & w1' & E1' & Hc & Hz & Hdp & Hp & Hsa).
    rewrite E1 in E1'. injection E1' as <- <-.
    cbn [advance clock localTZA daily_processing sent_alerts] in Hc, Hz, Hdp, Hsa.
    destruct (_checkAndSendForDate_due (clock w) (advance awaitToday w1)) as (w2' & E2' & Hdocs).
    + exact Hp.
    + unfold recordsFor. cbn [advance daily_processing]. rewrite Hdp. exact Hrec.
    + unfold _shouldCheckToday in Etoday. apply andb_true_iff in Etoday as [Hday _].
      unfold getDay. cbn [advance localTZA]. rewrite Hz. exact Hday.
    + cbn [advance clock]. lia.
    + eapply (alertDocs_other_date _ _ _ _ w); [exact Hne | exact Hnone |].
      cbn [advance sent_alerts]. exact Hsa.
    + rewrite E2 in E2'. injection E2' as -> <-.
      split; [destruct s1; lia | exact Hdocs].
  - unfold ret. eexists _, _. split; [reflexivity|].
    cbn [errors alertsChecked alertsSent].
    split; [reflexivity|]. split; [reflexivity|].
    split; [destruct s1; lia|]. discriminate.
Qed.

(** checkAndSendDailyAlerts never throws and never reports an error: every
    failure below it is caught before it gets there.  It checks yesterday,
    and today as well on a working day from 18:00 local time on, and sends at
    most one alert per date checked.  The alert of the same day goes out:
    when today is checked, the store is reachable and holds neither a record
    of today nor an alert for it, and the clock has moved since today was
    read, one alert is counted and its record is written. *)
Theorem checkAndSendDailyAlerts_answer (UTC : Z -> Z) (awaitYesterday awaitToday : Z)
  (w : World) :
  exists results w',
    checkAndSendDailyAlerts UTC awaitYesterday awaitToday w = (Ok results, w') /\
    errors results = [] /\
    alertsChecked results = (if _shouldCheckToday w (clock w) then 2 else 1) /\
    0 <= alertsSent results <= alertsChecked results /\
    (persistenceUp w = true ->
     _shouldCheckToday w (clock w) = true ->
     0 < awaitYesterday + awaitToday ->
     recordsFor (_formatDateString (clock w)) w = [] ->
     alertDocs (_formatDateString (clock w)) DAILY_PROCESSING w = ∅ ->
     _formatDateString (dayBefore UTC w (clock w)) <> _formatDateString (clock w) ->
     1 <= alertsSent results /\
     alertDocs (_formatDateString (clock w)) DAILY_PROCESSING w' <> ∅).
Proof. exact (checkAndSendDailyAlerts_outcome UTC awaitYesterday awaitToday w). Qed.

(** Monday 8 January 2024, 19:00, nothing processed: the check of yesterday
    (a Sunday) sends nothing and the check of today sends its alert, once the
    queries have taken any time at all. *)
Example checkAndSendDailyAlerts_monday_evening :
  let run d1 d2 :=
    fst (checkAndSendDailyAlerts (fun t => t) d1 d2 Samples.mondayEvening) in
  run 40 60 = Ok (mkResults 2 1 []) /\ run 0 1 = Ok (mkResults 2 1 []) /\
  run 0 0 = Ok (mkResults 2 0 []).
Proof. vm_compute. repeat split. Qed.

(** *** The configuration of the mail service *)

(** The build decides: in production the shipped placeholders are read and
    the service is never configured; in development it is configured exactly
    when the three variables of the environment are set to values that are
    not blank and do not start with "your_".  The check of emailConfig.js on
    the shipped values says the same. *)
Theorem _validateConfiguration_of_build (env : Env) :
  _validateConfiguration (getEmailConfig env)
  = DEV env &&
    fieldConfigured (VITE_EMAILJS_SERVICE_ID env) &&
    fieldConfigured (VITE_EMAILJS_TEMPLATE_ID env) &&
    fieldConfigured (VITE_EMAILJS_USER_ID env) /\
  isEmailConfigured = false.
Proof.
  split; [|reflexivity].
  unfold getEmailConfig, _validateConfiguration.
  destruct (DEV env); [|reflexivity].
  cbn [serviceId templateId userId List.forallb andb].
  assert (H : forall v d, fieldConfigured d = false ->
                          fieldConfigured (orElse v d) = fieldConfigured v).
  { intros [[|c r]|] d Hd; cbn [orElse]; [rewrite Hd | |rewrite Hd]; reflexivity. }
  rewrite !H by reflexivity. now rewrite andb_true_r, andb_assoc.
Qed.

End SchedulerFacts.

(** ** Recording a processing and detecting changes *)

Section LedgerFacts.
Import JsString AlertService.
Variable localeCompare : string -> string -> Z.
Variable random : string.

Lemma generateDataHash_returns (host : DataHashService.Host)
  (data : DataHashService.ProcessingData) :
  exists hash,
    DataHashService.generateDataHash localeCompare host data = Ok hash /\
    DataHashService.isValidHash hash = true.
Proof.
  unfold DataHashService.generateDataHash.
  destruct (DataHashService._normalizeData localeCompare data); eexists;
    (split; [reflexivity | apply _calculateHash_valid]).
Qed.

Lemma startsWith_app (p s : string) : startsWith p (p +:+ s) = true.
Proof.
  induction p as [|c r IH]; [now destruct s|].
  change (String c r +:+ s) with (String c (r +:+ s)).
  cbn [startsWith]. now rewrite Ascii.eqb_refl, IH.
Qed.

(** recordDailyProcessing either stores one record and returns it, or throws
    and leaves the store as it was.  It throws exactly on an invalid date, a
    negative count or an unreachable store, with a message that starts with
    "Error guardando datos: ".  The record it stores is keyed by the date and
    the clock, carries the date string of the date given, the time of the
    clock and a digest that isValidHash accepts. *)
Theorem recordDailyProcessing_cases (date : JsDate.Date)
  (data : DataHashService.ProcessingData) (w : World) :
  match recordDailyProcessing localeCompare random date data w with
  | (Ok record, w') =>
      exists t,
        date = JsDate.Valid t /\ 0 <= DataHashService.transfersCount data /\
        persistenceUp w = true /\
        pr_date record = _formatDateString t /\ pr_timestamp record = clock w /\
        pr_transfersProcessed record = DataHashService.transfersCount data /\
        DataHashService.isValidHash (pr_hash record) = true /\
        daily_processing w'
        = <[_formatDateString t +:+ "_" +:+ JsNumber.toString10 (clock w) := record]>
            (daily_processing w) /\
        sent_alerts w' = sent_alerts w /\ clock w' = clock w /\
        dispatched w' = dispatched w /\ delivered w' = delivered w
  | (Throw e, w') =>
      w' = w /\ startsWith "Error guardando datos: " e = true /\
      (date = JsDate.Invalid \/ DataHashService.transfersCount data < 0 \/
       persistenceUp w = false)
  end.
Proof.
  unfold recordDailyProcessing, tryCatch, bind, _validateDate, _validateProcessingData,
    get, hashOf, setDailyProcessing, ret, throw.
  destruct date as [t|].
  - destruct (DataHashService.transfersCount data <? 0) eqn:Ec.
    + apply Z.ltb_lt in Ec. split; [reflexivity|]. split; [reflexivity|]. right. now left.
    + apply Z.ltb_ge in Ec.
      destruct (generateDataHash_returns
                  (DataHashService.mkHost (clock w) random) data) as (hash & -> & Hv).
      destruct (persistenceUp w) eqn:Hup.
      * exists t. cbn. repeat split; assumption.
      * split; [reflexivity|]. split; [reflexivity|]. right. now right.
  - split; [reflexivity|]. split; [reflexivity|]. now left.
Qed.




(** *** The newest record of a date *)

Lemma latest_In (docs : list (string * ProcessingRecord)) (last : ProcessingRecord) :
  latest docs = Some last -> exists id, In (id, last) docs.
Proof.
  unfold latest.
  assert (H : forall best, fold_right
                 (fun d best => match best with
                                | Some b => if newer d b then Some d else Some b
                                | None => Some d
                                end) None docs = Some best -> In best docs).
  { induction docs as [|x r IH]; intros best E; cbn [fold_right] in E; [discriminate|].
    destruct (fold_right _ None r) as [b|].
    - destruct (newer x b); injection E as <-; [now left | right; now apply IH].
    - injection E as <-. now left. }
  destruct (fold_right _ None docs) as [[id r]|] eqn:E; [|discriminate].
  intros [= <-]. exists id. now apply H.
Qed.



(** *** detectChanges *)

Lemma detectChanges_run (t : Z) (data : DataHashService.ProcessingData) (w : World) :
  0 <= DataHashService.transfersCount data -> persistenceUp w = true ->
  detectChanges localeCompare random (JsDate.Valid t) data w
  = match latest (recordsFor (_formatDateString t) w) with
    | None => (Ok (mkDetection true true [] FIRST_PROCESSING None None, data), w)
    | Some last =>
        match DataHashService.generateDataHash localeCompare
                (DataHashService.mkHost (clock w) random) data with
        | Ok newHash =>
            if String.eqb (pr_hash last) newHash
            then (Ok (mkDetection false false [] NO_CHANGES_DETECTED None None, data), w)
            else
              let '(changes, last', data') := _compareProcessingData last data in
              (Ok (mkDetection true false changes CHANGES_DETECTED (Some last') None, data'), w)
        | Throw e => (Ok (mkDetection true true [] COMPARISON_ERROR None (Some e), data), w)
        end
    end.
Proof.
  intros Hc Hup. apply Z.ltb_ge in Hc.
  unfold detectChanges, tryCatch, bind, _validateDate, _validateProcessingData, ret, throw.
  rewrite Hc. rewrite checkDailyProcessing_run by exact Hup.
  destruct (latest _) as [last|]; cbn [processed lastProcessing]; [|reflexivity].
  unfold hashOf.
  destruct (DataHashService.generateDataHash _ _ _) as [newHash|e]; [|reflexivity].
  destruct (String.eqb (pr_hash last) newHash); [reflexivity|].
  destruct (_compareProcessingData last data) as [[c l'] d']. reflexivity.
Qed.

(** detectChanges never throws and writes nothing.  It answers "no changes"
    exactly when the date is valid, the count is not negative, the store can
    be read and the newest record of the date carries the digest of the new
    data; then the data come back as they were.  It answers "first
    processing" whenever no record of the date can be read, and it reports an
    error only for an invalid date or a negative count (an unreachable store
    reads as a first processing). *)
Theorem detectChanges_answer (date : JsDate.Date) (data : DataHashService.ProcessingData)
  (w : World) :
  exists answer data',
    detectChanges localeCompare random date data w = (Ok (answer, data'), w) /\
    (hasChanges answer = false <->
       exists t last,
         date = JsDate.Valid t /\ 0 <= DataHashService.transfersCount data /\
         persistenceUp w = true /\
         latest (recordsFor (_formatDateString t) w) = Some last /\
         DataHashService.generateDataHash localeCompare
           (DataHashService.mkHost (clock w) random) data = Ok (pr_hash last)) /\
    (isFirstProcessing answer = false <->
       exists t,
         date = JsDate.Valid t /\ 0 <= DataHashService.transfersCount data /\
         persistenceUp w = true /\ recordsFor (_formatDateString t) w <> []) /\
    (detectionError answer <> None <->
       date = JsDate.Invalid \/ DataHashService.transfersCount data < 0) /\
    (hasChanges answer = false -> data' = data /\ changes answer = []).
Proof.
  destruct date as [t|].
  2:{ eexists _, _. split; [reflexivity|]. cbn.
      split; [split; [discriminate | intros (t & l & H & _); discriminate]|].
      split; [split; [discriminate | intros (t & H & _); discriminate]|].
      split; [split; [now left | discriminate] | discriminate]. }
  destruct (DataHashService.transfersCount data <? 0) eqn:Ec.
  { apply Z.ltb_lt in Ec.
    unfold detectChanges, tryCatch, bind, _validateDate, _validateProcessingData, ret, throw.
    apply Z.ltb_lt in Ec as Ec'. rewrite Ec'.
    eexists _, _. split; [reflexivity|]. cbn.
    split; [split; [discriminate | intros (t' & l & _ & H & _); lia]|].
    split; [split; [discriminate | intros (t' & _ & H & _); lia]|].
    split; [split; [now right | discriminate] | discriminate]. }
  apply Z.ltb_ge in Ec.
  destruct (persistenceUp w) eqn:Hup.
  2:{ unfold detectChanges, tryCatch, bind, _validateDate, _validateProcessingData, ret, throw.
      apply Z.ltb_ge in Ec as Ec'. rewrite Ec'.
      destruct (checkDailyProcessing_error (JsDate.Valid t) w) as [e ->]; [now right|].
      cbn [processed lastProcessing].
      eexists _, _. split; [reflexivity|]. cbn.
      split; [split; [discriminate | intros (t' & l & _ & _ & H & _); discriminate]|].
      split; [split; [discriminate | intros (t' & _ & _ & H & _); discriminate]|].
      split; [split; [contradiction | intros [H | H]; [discriminate | lia]] | discriminate]. }
  rewrite detectChanges_run by assumption.
  pose proof (latest_None (recordsFor (_formatDateString t) w)) as Hnone.
  destruct (latest (recordsFor (_formatDateString t) w)) as [last|] eqn:El.
  - assert (Hrec : recordsFor (_formatDateString t) w <> []).
    { intros E. apply Hnone in E. discriminate. }
    destruct (generateDataHash_returns (DataHashService.mkHost (clock w) random) data)
      as (newHash & Eh & _).
    rewrite Eh.
    destruct (String.eqb (pr_hash last) newHash) eqn:Ee.
    + apply String.eqb_eq in Ee. subst newHash.
      eexists _, _. split; [reflexivity|]. cbn.
      split; [split; [intros _; exists t, last; now repeat split | reflexivity]|].
      split; [split; [intros _; exists t; now repeat split | reflexivity]|].
      split; [split; [contradiction | intros [H | H]; [discriminate | lia]]|].
      intros _. now split.
    + apply String.eqb_neq in Ee.
      destruct (_compareProcessingData last data) as [[c l'] d'].
      eexists _, _. split; [reflexivity|]. cbn.
      split.
      { split; [discriminate|].
        intros (t' & last' & Et & _ & _ & El' & Eh'). injection Et as <-.
        rewrite El in El'. injection El' as <-. congruence. }
      split; [split; [intros _; exists t; now repeat split | reflexivity]|].
      split; [split; [contradiction | intros [H | H]; [discriminate | lia]] | discriminate].
  - eexists _, _. split; [reflexivity|]. cbn.
    split; [split; [discriminate | intros (t' & l & Et & _ & _ & El' & _)]|].
    { injection Et as <-. rewrite El in El'. discriminate. }
    split.
    { split; [discriminate|]. intros (t' & Et & _ & _ & Hr). injection Et as <-.
      exfalso. apply Hr. now apply Hnone. }
    split; [split; [contradiction | intros [H | H]; [discriminate | lia]] | discriminate].
Qed.


End LedgerFacts.



(** ** The registry look-ups and what reaches the save *)

Section RegistryFacts.
Import JsString Reconciler TransferPreview Props.
Variable vehicles : list Vehicle.
Variable drivers : list Driver.

Lemma removeDashes_removeSpaces (s : string) :
  removeDashes (removeSpaces s) = removeDashesAndSpaces s.
Proof.
  unfold removeDashes, removeSpaces, removeDashesAndSpaces.
  induction s as [|c r IH]; cbn [filter]; [reflexivity|].
  destruct (isWhiteSpace c) eqn:Ew; cbn [negb].
  - rewrite orb_true_r. cbn [negb]. exact IH.
  - cbn [filter]. rewrite orb_false_r. destruct (code c =? 45); cbn [negb]; now rewrite IH.
Qed.

Lemma find_ext {A : Type} (p q : A -> bool) (l : list A) :
  (forall x, p x = q x) -> List.find p l = List.find q l.
Proof.
  intros H. induction l as [|x r IH]; cbn [List.find]; [reflexivity|].
  now rewrite H, IH.
Qed.

(** findVehicleByIdentifier compares plates and identifier by one key: lower
    case, white space and hyphens removed (the first of its two comparisons
    adds nothing to the second).  It answers the first vehicle of the
    registry whose plate has the key of the identifier, and null for the
    empty identifier. *)
Theorem findVehicleByIdentifier_key (identifier : string) :
  findVehicleByIdentifier vehicles identifier
  = match identifier with
    | EmptyString => None
    | _ => List.find (fun vehicle => String.eqb (plateKey (plate vehicle)) (plateKey identifier))
             vehicles
    end.
Proof.
  unfold findVehicleByIdentifier. destruct identifier as [|c r]; [reflexivity|].
  apply find_ext. intros v. unfold plateKey.
  rewrite removeDashes_removeSpaces.
  destruct (String.eqb (removeSpaces (toLowerCase (plate v)))
                       (removeSpaces (toLowerCase (String c r)))) eqn:E; [|reflexivity].
  apply String.eqb_eq in E. cbn [orb]. symmetry. apply String.eqb_eq.
  now rewrite <- !removeDashes_removeSpaces, E.
Qed.

Lemma find_In {A : Type} (p : A -> bool) (l : list A) (x : A) :
  List.find p l = Some x -> In x l.
Proof. intros H. now apply find_some in H. Qed.

Lemma firstn_filter_sublist {A : Type} (p : A -> bool) (n : nat) (l : list A) :
  sublist (firstn n (List.filter p l)) l.
Proof.
  revert n. induction l as [|x r IH]; intros n; cbn [List.filter].
  - destruct n; constructor.
  - destruct (p x).
    + destruct n as [|n]; cbn [firstn]; [apply sublist_nil_l | apply sublist_skip, IH].
    + apply sublist_cons, IH.
Qed.

Lemma enrichTransfer_registered (transfer : WhatsAppParser.ParsedTransfer) :
  registered vehicles drivers (enrichTransfer vehicles drivers transfer).
Proof.
  unfold registered, enrichTransfer.
  cbn [vehicleMatch fromDriverMatch toDriverMatch].
  split; [|split].
  - intros v H. unfold findVehicleByIdentifier in H.
    destruct (WhatsAppParser.vehicleId _); [discriminate | eapply find_In, H].
  - intros d H. destruct (WhatsAppParser.fromDriver _) as [n|]; [|discriminate].
    unfold findDriverByName in H. destruct n; [discriminate | eapply find_In, H].
  - intros d H. unfold findDriverByName in H.
    destruct (WhatsAppParser.toDriver _); [discriminate | eapply find_In, H].
Qed.

Lemma overrideMatch_registered (type : MatchType) (selectedId : string)
  (r : ReconciledTransfer) :
  registered vehicles drivers r ->
  registered vehicles drivers (overrideMatch vehicles drivers type selectedId r).
Proof.
  unfold registered, overrideMatch. intros (Hv & Hf & Ht).
  cbn [vehicleMatch fromDriverMatch toDriverMatch].
  destruct type; (split; [|split]); intros x H; eauto using find_In.
Qed.

Lemma applyOverrides_registered (ops : list (nat * MatchType * string)) : forall ts,
  Forall (registered vehicles drivers) ts ->
  Forall (registered vehicles drivers) (applyOverrides vehicles drivers ops ts).
Proof.
  unfold applyOverrides.
  induction ops as [|[[i type] selectedId] ops IH]; intros ts H; cbn [fold_left]; [assumption|].
  apply IH. cbn [fst snd]. unfold handleManualMatch.
  destruct (ts !! i) as [t|] eqn:Ei; [|assumption].
  apply Forall_insert; [assumption|].
  apply overrideMatch_registered. exact (Forall_lookup_1 _ _ _ _ H Ei).
Qed.

(** The suggestions of a reconciled transfer: a list is offered exactly for
    a field without a match; it has at most three entries, all from the
    registry and in its order. *)
Theorem enrichTransfer_suggestions (transfer : WhatsAppParser.ParsedTransfer) :
  let r := enrichTransfer vehicles drivers transfer in
  (vehicleSuggestions r = None <-> vehicleMatch r <> None) /\
  (fromDriverSuggestions r = None <-> fromDriverMatch r <> None) /\
  (toDriverSuggestions r = None <-> toDriverMatch r <> None) /\
  (forall l, vehicleSuggestions r = Some l -> (List.length l <= 3)%nat /\ sublist l vehicles) /\
  (forall l, fromDriverSuggestions r = Some l ->
             (List.length l <= 3)%nat /\ sublist l drivers) /\
  (forall l, toDriverSuggestions r = Some l -> (List.length l <= 3)%nat /\ sublist l drivers).
Proof.
  cbv zeta. unfold enrichTransfer.
  cbn [vehicleSuggestions fromDriverSuggestions toDriverSuggestions
       vehicleMatch fromDriverMatch toDriverMatch].
  assert (Hd : forall n l, getSimilarDrivers drivers n = l ->
                           (List.length l <= 3)%nat /\ sublist l drivers).
  { intros n l <-. unfold getSimilarDrivers.
    destruct n as [[|c s]|]; try (split; [cbn; lia | apply sublist_nil_l]).
    split; [apply firstn_le_length | apply firstn_filter_sublist]. }
  assert (Hv : forall i l, getSimilarVehicles vehicles i = l ->
                           (List.length l <= 3)%nat /\ sublist l vehicles).
  { intros i l <-. unfold getSimilarVehicles.
    destruct i as [|c s]; [split; [cbn; lia | apply sublist_nil_l]|].
    split; [apply firstn_le_length | apply firstn_filter_sublist]. }
  destruct (findVehicleByIdentifier vehicles _) as [vm|];
    destruct (match WhatsAppParser.fromDriver _ with
              | Some n => findDriverByName drivers n
              | None => None
              end) as [fm|];
    destruct (findDriverByName drivers _) as [tm|]; cbn [truthy].
  all: repeat match goal with
         | |- _ /\ _ => split
         | |- None = None <-> _ => split; [intros _; discriminate | reflexivity]
         | |- Some _ = None <-> _ => split; [discriminate | intros H; now contradiction H]
         | |- forall l, None = Some l -> _ => discriminate
         end.
  all: intros l H;
       match type of H with
       | Some ?x = Some _ => assert (E : x = l) by congruence
       end;
       first [exact (Hv _ _ E) | exact (Hd _ _ E)].
Qed.

(** From the preview to the save: whatever the parsed transfers, the manual
    overrides and the selection, every transfer handed to the save has a
    vehicle match and a to-driver match, and both are entries of the
    registry. *)
Theorem handleSave_hands_matched (parsed : list WhatsAppParser.ParsedTransfer)
  (ops : list (nat * MatchType * string)) (selectedTransfers : list nat) :
  match handleSave selectedTransfers
          (applyOverrides vehicles drivers ops (enrichTransfers vehicles drivers parsed)) with
  | Ok saved =>
      Forall (fun r => exists vehicle driver,
                         vehicleMatch r = Some vehicle /\ In vehicle vehicles /\
                         toDriverMatch r = Some driver /\ In driver drivers)
             saved
  | Throw _ => True
  end.
Proof.
  set (ts := applyOverrides vehicles drivers ops (enrichTransfers vehicles drivers parsed)).
  assert (Hreg : Forall (registered vehicles drivers) ts).
  { apply applyOverrides_registered. unfold enrichTransfers.
    apply List.Forall_forall. intros r Hr. apply in_map_iff in Hr as (p & <- & _).
    apply enrichTransfer_registered. }
  assert (Hder : Forall validityDerived ts).
  { apply applyOverrides_derived, enrichTransfers_derived. }
  pose proof (handleSave_outcome selectedTransfers ts) as Hsave.
  destruct (handleSave selectedTransfers ts) as [saved|e]; [|exact I].
  destruct Hsave as (_ & _ & Hvalid).
  eapply Forall_impl; [exact Hvalid|].
  intros r [Hv Hin]. cbv beta in Hv.
  rewrite List.Forall_forall in Hreg, Hder.
  specialize (Hreg r Hin). specialize (Hder r Hin).
  destruct Hreg as (Hrv & _ & Hrt).
  unfold validityDerived in Hder. rewrite Hv in Hder.
  destruct (vehicleMatch r) as [v|]; [|discriminate].
  destruct (toDriverMatch r) as [d|]; [|discriminate].
  exists v, d. auto.
Qed.

End RegistryFacts.

(** Two transfers of different vehicles and two files, in both orders, under
    the code-unit collation. *)
Lemma generateDataHash_perm_distinct_keys_witness :
  Permutation
    [DataHashService.mkTransfer (Some "ABC-123") (Some "Juan Perez") None None;
     DataHashService.mkTransfer (Some "DEF-789") (Some "Ana") None None]
    [DataHashService.mkTransfer (Some "DEF-789") (Some "Ana") None None;
     DataHashService.mkTransfer (Some "ABC-123") (Some "Juan Perez") None None] /\
  DataHashService.generateDataHash JsString.compareUnits (DataHashService.mkHost 0 "x")
    (DataHashService.mkProcessingData 2
       (Some [DataHashService.mkTransfer (Some "ABC-123") (Some "Juan Perez") None None;
              DataHashService.mkTransfer (Some "DEF-789") (Some "Ana") None None])
       (Some ["b.txt"; "a.txt"]) (Some "whatsapp") None)
  = DataHashService.generateDataHash JsString.compareUnits (DataHashService.mkHost 0 "x")
      (DataHashService.mkProcessingData 2
         (Some [DataHashService.mkTransfer (Some "DEF-789") (Some "Ana") None None;
                DataHashService.mkTransfer (Some "ABC-123") (Some "Juan Perez") None None])
         (Some ["a.txt"; "b.txt"]) (Some "whatsapp") None).
Proof.
  split; [apply perm_swap|].
  apply (generateDataHash_perm_distinct_keys JsString.compareUnits
           (fun a b => compareUnits_total a b)
           (fun a b c => compareUnits_trans a b c)).
  - apply perm_swap.
  - apply perm_swap.
  - intros mapped x y E Hx Hy H1 H2.
    vm_compute in E. injection E as <-.
    destruct Hx as [<- | [<- | []]]; destruct Hy as [<- | [<- | []]];
      try reflexivity; exfalso.
    + vm_compute in H2. apply H2. reflexivity.
    + vm_compute in H1. apply H1. reflexivity.
Defined.

(** ** What sendAlert does with a mail, and the list of changes *)

Section MailFacts.
Import JsString AlertService.

Lemma _validateEmailData_fixed (emailData : EmailData) (w w0 : World) :
  fst (_validateEmailData emailData w0) = fst (_validateEmailData emailData w).
Proof.
  unfold _validateEmailData, throw, ret.
  repeat (destruct (String.eqb _ _); [reflexivity|]).
  destruct (Regex.exec _ _ _ _); [|reflexivity].
  destruct (existsb _ _); reflexivity.
Qed.

(** sendAlert never throws.  It reports success exactly when the data are
    valid, the service is configured and EmailJS accepts the request; then
    the mail is delivered and nothing is queued.  In every other case no
    mail is delivered, and the mail is queued in pending_emails when the
    store can be written (when it cannot, the mail is lost without an
    error).  The ledger and the alert records are never touched. *)
Theorem sendAlert_answer (emailData : EmailData) (w : World) :
  exists success w',
    sendAlert emailData w = (Ok success, w') /\
    (success = true <->
       fst (_validateEmailData emailData w) = Ok tt /\
       emailConfigured w = true /\ emailJsUp w = true) /\
    delivered w'
    = (if success then (delivered w ++ [emailData])%list else delivered w) /\
    pending_emails w'
    = (if negb success && persistenceUp w then (pending_emails w ++ [emailData])%list
       else pending_emails w) /\
    daily_processing w' = daily_processing w /\ sent_alerts w' = sent_alerts w.
Proof.
  unfold sendAlert, bind, noteDispatch, tryCatch.
  set (w0 := mkWorld _ _ _ _ _ _ _ _ _ _).
  pose proof (_validateEmailData_fixed emailData w w0) as Hv0.
  pose proof (_validateEmailData_world emailData w0) as Hw.
  assert (Hsave : _saveForManualSending emailData w0
                  = (Ok tt,
                     if persistenceUp w
                     then mkWorld (clock w) (localTZA w) (daily_processing w) (sent_alerts w)
                            (persistenceUp w) (emailConfigured w) (emailJsUp w)
                            (dispatched w ++ [emailData])%list (delivered w)
                            (pending_emails w ++ [emailData])%list
                     else w0)).
  { unfold _saveForManualSending, tryCatch, setPendingEmail, ret.
    change (persistenceUp w0) with (persistenceUp w).
    destruct (persistenceUp w); reflexivity. }
  destruct (_validateEmailData emailData w0) as [[[]|e] wv]; cbn [fst snd] in Hv0, Hw; subst wv.
  - unfold get. change (emailConfigured w0) with (emailConfigured w).
    destruct (emailConfigured w) eqn:Hc.
    + unfold _sendViaEmailJS. change (emailJsUp w0) with (emailJsUp w).
      destruct (emailJsUp w) eqn:Hj.
      * eexists _, _. split; [reflexivity|]. cbn.
        split; [split; [now auto | reflexivity]|]. now repeat split.
      * rewrite Hsave. eexists _, _. split; [reflexivity|].
        split; [split; [discriminate | intros (_ & _ & H); discriminate]|].
        cbn [negb andb]. destruct (persistenceUp w); now repeat split.
    + rewrite Hsave. eexists _, _. split; [reflexivity|].
      split; [split; [discriminate | intros (_ & H & _); discriminate]|].
      cbn [negb andb]. destruct (persistenceUp w); now repeat split.
  - rewrite Hsave. eexists _, _. split; [reflexivity|].
    split; [split; [discriminate | intros (H & _); rewrite <- Hv0 in H; discriminate]|].
    cbn [negb andb]. destruct (persistenceUp w); now repeat split.
Qed.

(** The list of changes has at most two entries.  A change of count is
    listed exactly when the recorded count and the new count differ.  The
    order of the file names is no change: two lists with the same names in
    any order give no entry for the files.  The file list of the caller comes
    back reordered: a permutation of what was given, sorted by code units. *)
Theorem _compareProcessingData_changes (oldData : ProcessingRecord)
  (newData : DataHashService.ProcessingData) :
  let result := _compareProcessingData oldData newData in
  let changes := fst (fst result) in
  let newData' := snd result in
  (List.length changes <= 2)%nat /\
  ((exists description,
      In (TransfersCount (pr_transfersProcessed oldData)
            (DataHashService.transfersCount newData) description) changes)
   <-> pr_transfersProcessed oldData <> DataHashService.transfersCount newData) /\
  (Permutation (pr_filesProcessed oldData)
     (filesOrEmpty (DataHashService.filesProcessed newData)) ->
   forall old new description, ~ In (FilesProcessed old new description) changes) /\
  match DataHashService.filesProcessed newData, DataHashService.filesProcessed newData' with
  | Some files, Some files' =>
      Permutation files' files /\
      StronglySorted (fun a b => compareUnits a b <= 0) files'
  | None, None => True
  | _, _ => False
  end.
Proof.
  cbv zeta. unfold _compareProcessingData. cbn [fst snd DataHashService.filesProcessed].
  split; [|split; [|split]].
  - destruct (_ =? _); destruct (String.eqb _ _); cbn; lia.
  - destruct (pr_transfersProcessed oldData =? DataHashService.transfersCount newData) eqn:E.
    + apply Z.eqb_eq in E. split; [|intros H; contradiction].
      intros (d & Hin). cbn [app] in Hin.
      destruct (String.eqb _ _); [destruct Hin | destruct Hin as [H | []]; discriminate].
    + apply Z.eqb_neq in E. split; [intros _; exact E|].
      intros _. eexists. left. reflexivity.
  - intros Hp old new description Hin.
    rewrite (sortBy_perm_invariant compareUnits
               (fun a b => compareUnits_total a b) (fun a b c => compareUnits_trans a b c)
               _ _ Hp) in Hin
      by (intros x y _ _; apply compareUnits_antisym).
    rewrite String.eqb_refl in Hin.
    destruct (_ =? _); cbn in Hin; [destruct Hin | destruct Hin as [H | []]; discriminate].
  - destruct (DataHashService.filesProcessed newData) as [files|]; cbn [option_map]; [|exact I].
    split.
    + apply sortBy_perm.
    + apply (sortBy_sorted compareUnits (fun a b => compareUnits_total a b)
               (fun a b c => compareUnits_trans a b c)).
Qed.

End MailFacts.

(** ** The alert hook *)

Section HookFacts.
Import AlertSystem.

(** A run of the periodic set-up leaves an interval running only in a
    development build (every five minutes, with one more check after thirty
    seconds); in a production build it stops the interval that was running
    and starts nothing. *)
Theorem setupPeriodicCheck_of_build (env : AlertService.Env) (timers : Timers) :
  setupPeriodicCheck (getEnvironmentConfig env) timers
  = if AlertService.DEV env
    then mkTimers (Some 300000) (timeouts timers ++ [30000])%list
    else mkTimers None (timeouts timers).
Proof.
  unfold setupPeriodicCheck, getEnvironmentConfig.
  destruct (AlertService.DEV env); reflexivity.
Qed.

(** A check that is skipped (the callback saw one in progress) changes
    nothing.  A check that runs never ends in the error state: afterwards
    checking is false, error is null, lastCheck is the time of the clock and
    alertsSent is the count the callback saw plus at most two; and the alert
    of the same day is counted: plus at least one when today is checked, the
    store is reachable and holds neither a record of today nor an alert for
    it, and the clock has moved since today was read. *)
Theorem performAlertCheck_answer (UTC : Z -> Z) (awaitYesterday awaitToday : Z)
  (state prevState : AlertSystemState) (w : AlertService.World) :
  exists state' w',
    performAlertCheck UTC awaitYesterday awaitToday state prevState w = (Ok state', w') /\
    (checking state = true -> state' = prevState /\ w' = w) /\
    (checking state = false ->
     checking state' = false /\ error state' = None /\
     lastCheck state' = Some (AlertService.clock w') /\
     alertsSent state <= alertsSent state' <= alertsSent state + 2 /\
     isConfigured state' = isConfigured prevState /\
     (AlertService.persistenceUp w = true ->
      AlertService._shouldCheckToday w (AlertService.clock w) = true ->
      0 < awaitYesterday + awaitToday ->
      AlertService.recordsFor (AlertService._formatDateString (AlertService.clock w)) w = [] ->
      AlertService.alertDocs (AlertService._formatDateString (AlertService.clock w))
        AlertService.DAILY_PROCESSING w = ∅ ->
      AlertService._formatDateString (AlertService.dayBefore UTC w (AlertService.clock w))
      <> AlertService._formatDateString (AlertService.clock w) ->
      alertsSent state + 1 <= alertsSent state')).
Proof.
  unfold performAlertCheck.
  destruct (checking state) eqn:Ec.
  - exists prevState, w. split; [reflexivity|]. split; [auto | discriminate].
  - unfold AlertService.tryCatch, AlertService.bind.
    destruct (checkAndSendDailyAlerts_outcome UTC awaitYesterday awaitToday w)
      as (results & w' & -> & He & Hn & Hs & Hday).
    unfold AlertService.get, AlertService.ret.
    eexists _, _. split; [reflexivity|]. split; [discriminate|]. intros _.
    cbn [checking error lastCheck alertsSent isConfigured]. rewrite He.
    split; [reflexivity|]. split; [reflexivity|]. split; [reflexivity|].
    split; [|split; [reflexivity|]].
    + destruct (AlertService._shouldCheckToday w (AlertService.clock w)); lia.
    + intros Hup Htoday Hpos Hrec Hnone Hne.
      destruct (Hday Hup Htoday Hpos Hrec Hnone Hne) as [H _]. lia.
Qed.

(** The hook on Monday 8 January 2024, 19:00, nothing processed: the check
    counts the alert of the day. *)
Example performAlertCheck_monday_evening :
  option_map alertsSent
    (match fst (performAlertCheck (fun t => t) 40 60 initialState initialState
                  Samples.mondayEvening) with
     | Ok state' => Some state'
     | Throw _ => None
     end)
  = Some 1.
Proof. vm_compute. reflexivity. Qed.

End HookFacts.
